(** * voxblox_ros: the TSDF server's ingestion and windowing pipeline

    A shallow embedding of [voxblox_ros/src/tsdf_server.cc]: the ingest rate
    gate, ICP correction bookkeeping, the pointcloud deintegration queue,
    lazy block pruning and the submap bookkeeping, with the properties the
    specification states about them. *)

From Stdlib Require Import ZArith Lia Bool List.
From Stdlib Require Import Floats.SpecFloat.
From Stdlib Require Import Ascii String DecimalString DecimalZ DecimalPos.
From stdpp Require Import gmap strings list fin_maps sorting.

Local Open Scope Z_scope.

(** ** Numbers *)

(** [FloatingPoint] is voxblox's scalar ([float]): IEEE-754 binary32, with
    the arithmetic of the standard library's executable specification. NaN,
    infinities and signed zeros are values of the type. *)
Module F32.
Definition prec : Z := 24.
Definition emax : Z := 128.
Definition of_Z (z : Z) : spec_float := binary_normalize prec emax z 0 false.
Definition add := SFadd prec emax.
Definition sub := SFsub prec emax.
Definition mul := SFmul prec emax.
Definition sqrt := SFsqrt prec emax.
Definition ltb := SFltb.
Definition isNaN (x : spec_float) : bool :=
  match x with S754_nan => true | _ => false end.
End F32.

(** [double]: IEEE-754 binary64. *)
Module F64.
Definition prec : Z := 53.
Definition emax : Z := 1024.
Definition of_Z (z : Z) : spec_float := binary_normalize prec emax z 0 false.
Definition add := SFadd prec emax.
Definition mul := SFmul prec emax.
Definition div := SFdiv prec emax.
(** The literal [1e-9]: the double nearest to 1/10^9. *)
Definition nano : spec_float := div (of_Z 1) (of_Z 1000000000).
(** The implicit conversion [double] to [float]. *)
Definition to_float (x : spec_float) : spec_float :=
  match x with
  | S754_finite s m e =>
      binary_normalize F32.prec F32.emax (cond_Zopp s (Z.pos m)) e s
  | _ => x
  end.
End F64.

Definition FloatingPoint : Type := spec_float.

(** The conversion of a [size_t] to [int] at a call of a [Threshold<int>]:
    reduction modulo 2^32 into the signed range. *)
Definition int_of_size (n : nat) : Z :=
  (Z.of_nat n + 2 ^ 31) mod 2 ^ 32 - 2 ^ 31.

(** ** ROS time

    [ros::Time] and [ros::Duration] are counts of nanoseconds, which the
    library (roscpp's rostime) stores as two 32-bit fields: seconds, unsigned
    in a [Time] and signed in a [Duration], and nanoseconds below 10^9. Both
    are integers here; the range of a duration's seconds is what
    [Duration_fromNSec] checks. *)
Definition Time : Type := Z.
Definition Duration : Type := Z.

Definition Time_isZero (t : Time) : bool := t =? 0.

(** The nanoseconds between two stamps: what [operator-] returns when it
    returns. The deintegration window and the submap bookkeeping subtract
    the stamps of two messages and are written with this difference; the
    rate gate subtracts the last enqueued stamp, zero on a fresh server, and
    is written with [Time_minus]. *)
Definition Time_sub (a b : Time) : Duration := a - b.
Definition Duration_gtb (a b : Duration) : bool := b <? a.

Definition int32_min : Z := - 2 ^ 31.
Definition int32_max : Z := 2 ^ 31 - 1.

(** [Duration::fromNSec(int64_t t)]: the seconds [t / 10^9], rounded towards
    zero, must fit [int32_t], and so must the seconds once
    [normalizeSecNSecSigned] has borrowed one to make the nanoseconds
    non-negative; otherwise [std::runtime_error] is thrown: [None]. *)
Definition Duration_fromNSec (t : Z) : option Duration :=
  let sec64 := Z.quot t 1000000000 in
  if (sec64 <? int32_min) || (int32_max <? sec64) then None
  else
    let nsec := Z.rem t 1000000000 in
    let sec_part := if nsec <? 0 then sec64 - 1 else sec64 in
    if (sec_part <? int32_min) || (int32_max <? sec_part) then None
    else Some t.

(** [ros::Time::operator-(const Time&)]: [fromNSec] of the difference of the
    two [toNSec()], which is exact in 64 bits for the stamps a [Time] can
    hold. *)
Definition Time_minus (a b : Time) : option Duration :=
  Duration_fromNSec (Time_sub a b).

(** The seconds of a duration fit [int32_t]. *)
Definition Duration_representable (d : Z) : Prop :=
  int32_min <= d / 1000000000 <= int32_max.

(** [Duration::toSec]: [(double)sec + 1e-9 * (double)nsec] on the normalised
    fields (0 <= nsec < 10^9). *)
Definition Duration_toSec (d : Duration) : spec_float :=
  F64.add (F64.of_Z (d / 1000000000))
          (F64.mul F64.nano (F64.of_Z (d mod 1000000000))).

(** ** Thresholds *)

(** The comparison [operator<] of the value type of a threshold. *)
Class Less (T : Type) := less : T -> T -> bool.
#[export] Instance Less_int : Less Z := Z.ltb.
#[export] Instance Less_float : Less FloatingPoint := F32.ltb.

(** Modelled from the spec: the class template [Threshold<T>] of
    voxblox_ros/include (absent here): "an optional value type with an
    isSetAndLessThan(x) predicate that is false whenever unset", "compared
    with strict-less-than semantics". [isSetAndLT] is the name the server
    calls it by. *)
Record Threshold (T : Type) : Type := mkThreshold {
  threshold_is_set : bool;
  threshold_value : T
}.
Arguments mkThreshold {T} _ _.
Arguments threshold_is_set {T} _.
Arguments threshold_value {T} _.

Definition isSet {T} (t : Threshold T) : bool := threshold_is_set t.

Definition unset {T} (t : Threshold T) : Threshold T :=
  mkThreshold false (threshold_value t).

Definition set {T} (v : T) (_ : Threshold T) : Threshold T :=
  mkThreshold true v.

Definition isSetAndLT {T} `{Less T} (t : Threshold T) (value : T) : bool :=
  threshold_is_set t && less (threshold_value t) value.

(** ** Geometry *)

(** [Point]: an Eigen column vector of three [FloatingPoint]s. *)
Record Point : Type := mkPoint {
  px : FloatingPoint;
  py : FloatingPoint;
  pz : FloatingPoint
}.

(** [Point::Constant(NAN)]. *)
Definition Point_Constant (c : FloatingPoint) : Point := mkPoint c c c.

(** [p.array().isNaN().any()]. *)
Definition Point_isNaN_any (p : Point) : bool :=
  F32.isNaN (px p) || F32.isNaN (py p) || F32.isNaN (pz p).

(** [(a - b).norm()]: coefficient-wise difference, sum of squares in index
    order, square root. *)
Definition Point_distance (a b : Point) : FloatingPoint :=
  let dx := F32.sub (px a) (px b) in
  let dy := F32.sub (py a) (py b) in
  let dz := F32.sub (pz a) (pz b) in
  F32.sqrt (F32.add (F32.add (F32.mul dx dx) (F32.mul dy dy)) (F32.mul dz dz)).

(** [Transformation::Vector6]: the six exponential coordinates. *)
Definition Vector6 : Type := list FloatingPoint.

(** The rigid transformations of minkindr ([Transformation]), through the
    operations the server uses. *)
Class Pose (Transformation : Type) : Type := {
  T_identity : Transformation;
  T_compose : Transformation -> Transformation -> Transformation;
  T_inverse : Transformation -> Transformation;
  getPosition : Transformation -> Point;
  T_log : Transformation -> Vector6;
  T_exp : Vector6 -> Transformation
}.

(** The group laws of rigid transformations. *)
Class PoseLaws (Transformation : Type) `{Pose Transformation} : Prop := {
  T_compose_identity_l : forall T : Transformation, T_compose T_identity T = T;
  T_compose_identity_r : forall T : Transformation, T_compose T T_identity = T;
  T_compose_assoc : forall A B C : Transformation,
    T_compose A (T_compose B C) = T_compose (T_compose A B) C;
  T_compose_inverse_r : forall T : Transformation,
    T_compose T (T_inverse T) = T_identity
}.

(** ** Map and mesh layers *)

Definition BlockIndex : Type := Z * Z * Z.

Record TsdfVoxel : Type := mkVoxel {
  distance : FloatingPoint;
  weight : FloatingPoint
}.

(** A block: its voxels in linear-index order and its [Update::kMap] flag. *)
Record Block : Type := mkBlock { voxels : list TsdfVoxel; updated_map : bool }.

Record Mesh : Type := mkMesh { vertices : list Point; mesh_updated : bool }.

Abbreviation Layer := (gmap BlockIndex Block).
Abbreviation MeshLayer := (gmap BlockIndex Mesh).

(** Modelled from the spec: the constant [kFloatEpsilon] of the voxblox core
    library (absent here), "a near-zero weight epsilon"; upstream it is the
    [float] nearest to 1e-6. No property below depends on its value. *)
Definition kFloatEpsilon : FloatingPoint :=
  F64.to_float (F64.div (F64.of_Z 1) (F64.of_Z 1000000)).

(** Modelled from the spec: the layer and mesh containers of the voxblox
    core library (absent here), "blocks of voxels" keyed by block index;
    [getAllUpdatedBlocks] lists the "blocks touched since the last prune",
    and clearing a mesh empties it without touching its flag. *)
Definition removeAllBlocks (_ : Layer) : Layer := ∅.
Definition removeBlock (i : BlockIndex) (l : Layer) : Layer := delete i l.
Definition getAllUpdatedBlocks (l : Layer) : list BlockIndex :=
  (map_to_list (filter (fun kv => updated_map kv.2 = true) l)).*1.
Definition MeshLayer_clear (_ : MeshLayer) : MeshLayer := ∅.
Definition Mesh_clear (m : Mesh) : Mesh := mkMesh [] (mesh_updated m).
Definition Mesh_set_updated (b : bool) (m : Mesh) : Mesh :=
  mkMesh (vertices m) b.

(** ** Messages, packets and external effects *)

Definition Pointcloud : Type := list Point.
Definition Colors : Type := list (Z * Z * Z * Z).

(** An incoming [sensor_msgs::PointCloud2], with the points and colours its
    conversion yields. *)
Record PointCloud2 : Type := mkMsg {
  header_stamp : Time;
  header_frame_id : string;
  converted_points : Pointcloud;
  converted_colors : Colors
}.

Inductive TsdfIntegratorType : Type := kSimple | kMerged | kFast | kProjective.

Definition TsdfIntegratorType_eqb (a b : TsdfIntegratorType) : bool :=
  match a, b with
  | kSimple, kSimple | kMerged, kMerged | kFast, kFast
  | kProjective, kProjective => true
  | _, _ => false
  end.

(** The members fixed once the constructor returns. *)
Record Config : Type := mkConfig {
  verbose_ : bool;
  publish_pointclouds_on_update_ : bool;
  publish_tsdf_map_ : bool;
  enable_icp_ : bool;
  accumulate_icp_corrections_ : bool;
  min_time_between_msgs_ : Duration;
  max_block_distance_from_body_ : FloatingPoint;
  submap_max_time_interval_ : Threshold FloatingPoint;
  submap_max_distance_travelled_ : Threshold FloatingPoint;
  pointcloud_deintegration_max_queue_length_ : Threshold Z;
  pointcloud_deintegration_max_time_interval_ : Threshold FloatingPoint;
  pointcloud_deintegration_max_distance_travelled_ : Threshold FloatingPoint;
  num_voxels_per_block_ : nat
}.

Section Model.
Context {Transformation : Type}.

Record PointcloudDeintegrationPacket : Type := mkPacket {
  timestamp : Time;
  T_G_C : Transformation;
  ptcloud_C : Pointcloud;
  colors : Colors;
  is_freespace_pointcloud : bool
}.

(** What the server does to its surroundings. Informational logging
    ([ROS_INFO]) and timers are left out. [EvRosErrorThrottle] stands for a
    [ROS_ERROR_THROTTLE] statement being reached: the console prints its
    message unless that statement printed less than [period] seconds
    before. *)
Inductive Event : Type :=
| EvIntegratePointCloud (T : Transformation) (points : Pointcloud)
    (cols : Colors) (freespace deintegrate : bool)
| EvRunICP (initial : Transformation)
| EvSendIcpTransforms (correction pose : Transformation)
| EvRosError (msg : string)
| EvRosErrorThrottle (period : Z) (msg : string)
| EvPublishLayer (reset_remote_map : bool)
| EvPublishPointclouds
| EvPublishSubmap (index : Z) (trajectory : list (Time * Transformation))
| EvNewPose (T : Transformation)
| EvAdvertiseService (name : string).

(** The collaborators behind narrow interfaces: the TSDF integrator and its
    type, ICP, the transformer, the layers' distance culling and the
    subscriber counts of the publishers. *)
Class Collaborators : Type := {
  integratePointCloud :
    Transformation -> Pointcloud -> Colors -> bool -> bool -> Layer -> Layer;
  getType : TsdfIntegratorType;
  runICP : Layer -> Pointcloud -> Transformation -> nat * Transformation;
  refiningRollPitch : bool;
  lookupTransform : string -> Time -> option Transformation;
  removeDistantBlocks : Point -> FloatingPoint -> Layer -> Layer;
  clearDistantMesh : Point -> FloatingPoint -> MeshLayer -> MeshLayer;
  tsdf_map_pub_getNumSubscribers : Z;
  submap_pub_getNumSubscribers : Z
}.

(** The server: its configuration, its mutable members and the trace of
    its external effects, newest first. *)
Record TsdfServer : Type := mkServer {
  config : Config;
  last_msg_time_ptcloud_ : Time;
  pointcloud_queue_ : list PointCloud2;
  icp_corrected_transform_ : Transformation;
  pointcloud_deintegration_queue_ : list PointcloudDeintegrationPacket;
  tsdf_layer : Layer;
  mesh_layer_ : MeshLayer;
  submap_counter_ : Z;
  last_published_submap_timestamp_ : Time;
  last_published_submap_position_ : Point;
  map_needs_pruning_ : bool;
  num_subscribers_tsdf_map_ : Z;
  trace : list Event
}.
End Model.

Arguments PointcloudDeintegrationPacket : clear implicits.
Arguments Event : clear implicits.
Arguments Collaborators : clear implicits.
Arguments TsdfServer : clear implicits.

(** ** Member updates *)

Section Updates.
Context {Transformation : Type}.
Implicit Type s : TsdfServer Transformation.

Definition set_last_msg_time_ptcloud v s : TsdfServer Transformation :=
  mkServer (config s) v (pointcloud_queue_ s) (icp_corrected_transform_ s)
    (pointcloud_deintegration_queue_ s) (tsdf_layer s) (mesh_layer_ s)
    (submap_counter_ s) (last_published_submap_timestamp_ s)
    (last_published_submap_position_ s) (map_needs_pruning_ s)
    (num_subscribers_tsdf_map_ s) (trace s).

Definition set_pointcloud_queue v s : TsdfServer Transformation :=
  mkServer (config s) (last_msg_time_ptcloud_ s) v
    (icp_corrected_transform_ s) (pointcloud_deintegration_queue_ s)
    (tsdf_layer s) (mesh_layer_ s) (submap_counter_ s)
    (last_published_submap_timestamp_ s) (last_published_submap_position_ s)
    (map_needs_pruning_ s) (num_subscribers_tsdf_map_ s) (trace s).

Definition set_icp_corrected_transform v s : TsdfServer Transformation :=
  mkServer (config s) (last_msg_time_ptcloud_ s) (pointcloud_queue_ s) v
    (pointcloud_deintegration_queue_ s) (tsdf_layer s) (mesh_layer_ s)
    (submap_counter_ s) (last_published_submap_timestamp_ s)
    (last_published_submap_position_ s) (map_needs_pruning_ s)
    (num_subscribers_tsdf_map_ s) (trace s).

Definition set_pointcloud_deintegration_queue v s : TsdfServer Transformation :=
  mkServer (config s) (last_msg_time_ptcloud_ s) (pointcloud_queue_ s)
    (icp_corrected_transform_ s) v (tsdf_layer s) (mesh_layer_ s)
    (submap_counter_ s) (last_published_submap_timestamp_ s)
    (last_published_submap_position_ s) (map_needs_pruning_ s)
    (num_subscribers_tsdf_map_ s) (trace s).

Definition set_tsdf_layer v s : TsdfServer Transformation :=
  mkServer (config s) (last_msg_time_ptcloud_ s) (pointcloud_queue_ s)
    (icp_corrected_transform_ s) (pointcloud_deintegration_queue_ s) v
    (mesh_layer_ s) (submap_counter_ s) (last_published_submap_timestamp_ s)
    (last_published_submap_position_ s) (map_needs_pruning_ s)
    (num_subscribers_tsdf_map_ s) (trace s).

Definition set_mesh_layer v s : TsdfServer Transformation :=
  mkServer (config s) (last_msg_time_ptcloud_ s) (pointcloud_queue_ s)
    (icp_corrected_transform_ s) (pointcloud_deintegration_queue_ s)
    (tsdf_layer s) v (submap_counter_ s)
    (last_published_submap_timestamp_ s) (last_published_submap_position_ s)
    (map_needs_pruning_ s) (num_subscribers_tsdf_map_ s) (trace s).

Definition set_submap_counter v s : TsdfServer Transformation :=
  mkServer (config s) (last_msg_time_ptcloud_ s) (pointcloud_queue_ s)
    (icp_corrected_transform_ s) (pointcloud_deintegration_queue_ s)
    (tsdf_layer s) (mesh_layer_ s) v (last_published_submap_timestamp_ s)
    (last_published_submap_position_ s) (map_needs_pruning_ s)
    (num_subscribers_tsdf_map_ s) (trace s).

Definition set_last_published_submap_timestamp v s
  : TsdfServer Transformation :=
  mkServer (config s) (last_msg_time_ptcloud_ s) (pointcloud_queue_ s)
    (icp_corrected_transform_ s) (pointcloud_deintegration_queue_ s)
    (tsdf_layer s) (mesh_layer_ s) (submap_counter_ s) v
    (last_published_submap_position_ s) (map_needs_pruning_ s)
    (num_subscribers_tsdf_map_ s) (trace s).

Definition set_last_published_submap_position v s : TsdfServer Transformation :=
  mkServer (config s) (last_msg_time_ptcloud_ s) (pointcloud_queue_ s)
    (icp_corrected_transform_ s) (pointcloud_deintegration_queue_ s)
    (tsdf_layer s) (mesh_layer_ s) (submap_counter_ s)
    (last_published_submap_timestamp_ s) v (map_needs_pruning_ s)
    (num_subscribers_tsdf_map_ s) (trace s).

Definition set_map_needs_pruning v s : TsdfServer Transformation :=
  mkServer (config s) (last_msg_time_ptcloud_ s) (pointcloud_queue_ s)
    (icp_corrected_transform_ s) (pointcloud_deintegration_queue_ s)
    (tsdf_layer s) (mesh_layer_ s) (submap_counter_ s)
    (last_published_submap_timestamp_ s) (last_published_submap_position_ s)
    v (num_subscribers_tsdf_map_ s) (trace s).

Definition set_num_subscribers_tsdf_map v s : TsdfServer Transformation :=
  mkServer (config s) (last_msg_time_ptcloud_ s) (pointcloud_queue_ s)
    (icp_corrected_transform_ s) (pointcloud_deintegration_queue_ s)
    (tsdf_layer s) (mesh_layer_ s) (submap_counter_ s)
    (last_published_submap_timestamp_ s) (last_published_submap_position_ s)
    (map_needs_pruning_ s) v (trace s).

Definition set_trace v s : TsdfServer Transformation :=
  mkServer (config s) (last_msg_time_ptcloud_ s) (pointcloud_queue_ s)
    (icp_corrected_transform_ s) (pointcloud_deintegration_queue_ s)
    (tsdf_layer s) (mesh_layer_ s) (submap_counter_ s)
    (last_published_submap_timestamp_ s) (last_published_submap_position_ s)
    (map_needs_pruning_ s) (num_subscribers_tsdf_map_ s) v.

(** One more external effect. *)
Definition emit (e : Event Transformation) s : TsdfServer Transformation :=
  set_trace (e :: trace s) s.
End Updates.

(** ** The server's operations *)

(** A [while] loop whose body either leaves the loop ([None]) or yields the
    next state; [fuel] bounds the number of iterations. *)
Fixpoint while_loop {St : Type} (fuel : nat) (body : St -> option St) (s : St)
  : St :=
  match fuel with
  | O => s
  | S fuel' =>
      match body s with
      | None => s
      | Some s' => while_loop fuel' body s'
      end
  end.

Section Operations.
Context {Transformation : Type} {pose_ops : Pose Transformation}
        {collab : Collaborators Transformation}.
Implicit Type s : TsdfServer Transformation.
Implicit Type c : Config.

(** Modelled from the spec: the inline predicates of tsdf_server.h (absent
    here): deintegration is on when "any pointcloud-deintegration threshold
    is set", submapping is off when "both time and distance submap bounds are
    unset". *)
Definition pointcloudDeintegrationEnabled c : bool :=
  isSet (pointcloud_deintegration_max_queue_length_ c)
  || isSet (pointcloud_deintegration_max_time_interval_ c)
  || isSet (pointcloud_deintegration_max_distance_travelled_ c).

Definition submappingEnabled c : bool :=
  isSet (submap_max_time_interval_ c)
  || isSet (submap_max_distance_travelled_ c).

(** *** Ingest *)

(** The first statement of [insertPointcloud]: the rate gate. [None] when
    the subtraction throws; nothing has been changed by then. *)
Definition insertPointcloud_enqueue (pointcloud_msg_in : PointCloud2) s
  : option (TsdfServer Transformation) :=
  match Time_minus (header_stamp pointcloud_msg_in)
                   (last_msg_time_ptcloud_ s) with
  | None => None
  | Some elapsed =>
      if Duration_gtb elapsed (min_time_between_msgs_ (config s))
      then
        Some (set_pointcloud_queue (pointcloud_queue_ s ++ [pointcloud_msg_in])
                (set_last_msg_time_ptcloud (header_stamp pointcloud_msg_in) s))
      else Some s
  end.

Definition kMaxQueueSize : nat := 10.

(** The message of the [ROS_ERROR_THROTTLE] of [getNextPointcloudFromQueue]. *)
Definition queue_too_long_error : string :=
  "Input pointcloud queue getting too long! Dropping some pointclouds. Either unable to look up transform timestamps or the processing is taking too long.".

(** One pass through the inner [while] of [getNextPointcloudFromQueue]:
    [pop] while the queue holds [kMaxQueueSize] messages or more. *)
Definition getNextPointcloudFromQueue_pop s
  : option (TsdfServer Transformation) :=
  if (kMaxQueueSize <=? length (pointcloud_queue_ s))%nat
  then Some (set_pointcloud_queue (tail (pointcloud_queue_ s)) s)
  else None.

(** [getNextPointcloudFromQueue]: the message and its pose when the head of
    the queue resolves; otherwise nothing, once the throttled error statement
    and the popping loop have run on a queue of [kMaxQueueSize] messages or
    more. Every pass of the loop pops a message, so the length of the queue
    bounds the passes. *)
Definition getNextPointcloudFromQueue s
  : option (PointCloud2 * Transformation) * TsdfServer Transformation :=
  match pointcloud_queue_ s with
  | [] => (None, s)
  | pointcloud_msg :: rest =>
      match lookupTransform (header_frame_id pointcloud_msg)
                            (header_stamp pointcloud_msg) with
      | Some T => (Some (pointcloud_msg, T), set_pointcloud_queue rest s)
      | None =>
          if (kMaxQueueSize <=? length (pointcloud_queue_ s))%nat then
            let s1 := emit (EvRosErrorThrottle 60 queue_too_long_error) s in
            (None,
             while_loop (length (pointcloud_queue_ s1))
                        getNextPointcloudFromQueue_pop s1)
          else (None, s)
      end
  end.

(** *** Deintegration queue *)

Definition should_deintegrate_pointcloud c
    (queue_size : nat)
    (oldest_pointcloud_packet newest_pointcloud_packet
       : PointcloudDeintegrationPacket Transformation) : bool :=
  let queue_length_exceeded :=
    isSetAndLT (pointcloud_deintegration_max_queue_length_ c)
               (int_of_size queue_size) in
  let time_elapsed :=
    Time_sub (timestamp newest_pointcloud_packet)
             (timestamp oldest_pointcloud_packet) in
  let time_threshold_exceeded :=
    isSetAndLT (pointcloud_deintegration_max_time_interval_ c)
               (F64.to_float (Duration_toSec time_elapsed)) in
  let distance_travelled :=
    Point_distance (getPosition (T_G_C newest_pointcloud_packet))
                   (getPosition (T_G_C oldest_pointcloud_packet)) in
  let distance_threshold_exceeded :=
    isSetAndLT (pointcloud_deintegration_max_distance_travelled_ c)
               distance_travelled in
  queue_length_exceeded || time_threshold_exceeded
  || distance_threshold_exceeded.

(** What one iteration does once it has decided to deintegrate: the
    integrator call with [deintegrate = true], [pop_front], the dirty flag. *)
Definition deintegrate_oldest
    (oldest : PointcloudDeintegrationPacket Transformation) s
  : TsdfServer Transformation :=
  let s1 :=
    emit (EvIntegratePointCloud (T_G_C oldest) (ptcloud_C oldest)
            (colors oldest) (is_freespace_pointcloud oldest) true)
      (set_tsdf_layer
         (integratePointCloud (T_G_C oldest) (ptcloud_C oldest)
            (colors oldest) (is_freespace_pointcloud oldest) true
            (tsdf_layer s)) s) in
  let s2 :=
    set_pointcloud_deintegration_queue
      (tail (pointcloud_deintegration_queue_ s1)) s1 in
  set_map_needs_pruning true s2.

(** One pass through the [while] of [servicePointcloudDeintegrationQueue]:
    [None] when the condition fails or the body reaches [break]. *)
Definition servicePointcloudDeintegrationQueue_body s
  : option (TsdfServer Transformation) :=
  if (1 <? length (pointcloud_deintegration_queue_ s))%nat then
    match pointcloud_deintegration_queue_ s with
    | [] => None
    | oldest_pointcloud_packet :: _ =>
        let newest_pointcloud_packet :=
          List.last (pointcloud_deintegration_queue_ s)
                    oldest_pointcloud_packet in
        if should_deintegrate_pointcloud (config s)
             (length (pointcloud_deintegration_queue_ s))
             oldest_pointcloud_packet newest_pointcloud_packet
        then Some (deintegrate_oldest oldest_pointcloud_packet s)
        else None
    end
  else None.

(** Every iteration pops one packet, so the length of the queue bounds the
    number of iterations. *)
Definition servicePointcloudDeintegrationQueue s : TsdfServer Transformation :=
  while_loop (length (pointcloud_deintegration_queue_ s))
             servicePointcloudDeintegrationQueue_body s.

(** *** Pruning *)

(** The inner loop of [pruneMap] over the linear indices below
    [num_voxels_per_block_]. *)
Definition block_contains_observed_voxels (num_voxels_per_block : nat)
    (updated_block : Block) : bool :=
  existsb (fun voxel => F32.ltb kFloatEpsilon (weight voxel))
          (take num_voxels_per_block (voxels updated_block)).

(** The body of the outer loop, on the layers. [getBlockByIndex] aborts on an
    index the layer does not hold; the indices come from the layer itself, so
    that branch leaves the layers as they are. *)
Definition pruneMap_block (num_voxels_per_block : nat)
    (layers : Layer * MeshLayer) (updated_block_index : BlockIndex)
  : Layer * MeshLayer :=
  match layers.1 !! updated_block_index with
  | None => layers
  | Some updated_block =>
      if block_contains_observed_voxels num_voxels_per_block updated_block
      then layers
      else
        (removeBlock updated_block_index layers.1,
         match layers.2 !! updated_block_index with
         | Some mesh =>
             <[updated_block_index := Mesh_set_updated true (Mesh_clear mesh)]>
               layers.2
         | None => layers.2
         end)
  end.

Definition pruneMap s : TsdfServer Transformation :=
  let updated_blocks_ := getAllUpdatedBlocks (tsdf_layer s) in
  let layers :=
    foldl (pruneMap_block (num_voxels_per_block_ (config s)))
          (tsdf_layer s, mesh_layer_ s) updated_blocks_ in
  set_map_needs_pruning false
    (set_mesh_layer layers.2 (set_tsdf_layer layers.1 s)).

(** *** Publishing and clearing *)

Definition publishMap (reset_remote_map : bool) s : TsdfServer Transformation :=
  let s1 := if map_needs_pruning_ s then pruneMap s else s in
  if negb (publish_tsdf_map_ (config s1)) then s1
  else
    let subscribers := tsdf_map_pub_getNumSubscribers in
    let s2 :=
      if 0 <? subscribers then
        let reset_remote_map :=
          if num_subscribers_tsdf_map_ s1 <? subscribers then true
          else reset_remote_map in
        emit (EvPublishLayer reset_remote_map) s1
      else s1 in
    set_num_subscribers_tsdf_map subscribers s2.

Definition publishPointclouds s : TsdfServer Transformation :=
  let s1 := if map_needs_pruning_ s then pruneMap s else s in
  emit EvPublishPointclouds s1.

Definition clear s : TsdfServer Transformation :=
  let s1 := set_tsdf_layer (removeAllBlocks (tsdf_layer s)) s in
  let s2 := set_mesh_layer (MeshLayer_clear (mesh_layer_ s1)) s1 in
  let s3 := set_pointcloud_deintegration_queue [] s2 in
  if publish_tsdf_map_ (config s3) then publishMap true s3 else s3.

Definition clearMapCallback s : bool * TsdfServer Transformation :=
  (true, clear s).
End Operations.

Section Pipeline.
Context {Transformation : Type} {pose_ops : Pose Transformation}
        {collab : Collaborators Transformation}.
Implicit Type s : TsdfServer Transformation.

(** *** Fusion *)

(** [integratePointcloud] with a timestamp. [CHECK_EQ] aborts the process
    when points and colours differ in number: [None]. *)
Definition integratePointcloud (stamp : Time) (T : Transformation)
    (points : Pointcloud) (cols : Colors) (is_freespace : bool) s
  : option (TsdfServer Transformation) :=
  if negb (length points =? length cols)%nat then None
  else
    let s1 :=
      emit (EvIntegratePointCloud T points cols is_freespace false)
        (set_tsdf_layer
           (integratePointCloud T points cols is_freespace false (tsdf_layer s))
           s) in
    if pointcloudDeintegrationEnabled (config s1)
       || submappingEnabled (config s1)
    then
      Some (set_pointcloud_deintegration_queue
              (pointcloud_deintegration_queue_ s1
               ++ [mkPacket stamp T points cols is_freespace]) s1)
    else Some s1.

(** *** Pose refinement *)

(** The [enable_icp_] block of [processPointCloudMessageAndInsert]: the
    server after it and the refined pose [T_G_C_refined]. *)
Definition refinePose (points_C : Pointcloud) (T : Transformation) s
  : TsdfServer Transformation * Transformation :=
  if enable_icp_ (config s) then
    let s1 :=
      if negb (accumulate_icp_corrections_ (config s))
      then set_icp_corrected_transform T_identity s else s in
    let initial := T_compose (icp_corrected_transform_ s1) T in
    let T_G_C_refined := (runICP (tsdf_layer s1) points_C initial).2 in
    let s2 := emit (EvRunICP initial) s1 in
    let s3 :=
      set_icp_corrected_transform (T_compose T_G_C_refined (T_inverse T)) s2 in
    let s4 :=
      if negb refiningRollPitch then
        let T_vec := T_log (icp_corrected_transform_ s3) in
        let T_vec := <[3%nat := S754_zero false]> T_vec in
        let T_vec := <[4%nat := S754_zero false]> T_vec in
        set_icp_corrected_transform (T_exp T_vec) s3
      else s3 in
    (emit (EvSendIcpTransforms (icp_corrected_transform_ s4) T) s4,
     T_G_C_refined)
  else (s, T).

(** *** Submaps *)

Definition shouldCreateNewSubmap (current_timestamp : Time)
    (current_T_G_C : Transformation) s : bool * TsdfServer Transformation :=
  if negb (submappingEnabled (config s)) then (false, s)
  else if Time_isZero (last_published_submap_timestamp_ s)
          || Point_isNaN_any (last_published_submap_position_ s)
  then
    (false,
     set_last_published_submap_position (getPosition current_T_G_C)
       (set_last_published_submap_timestamp current_timestamp s))
  else
    let time_elapsed :=
      Time_sub current_timestamp (last_published_submap_timestamp_ s) in
    let time_threshold_exceeded :=
      isSetAndLT (submap_max_time_interval_ (config s))
                 (F64.to_float (Duration_toSec time_elapsed)) in
    let distance_travelled :=
      Point_distance (getPosition current_T_G_C)
                     (last_published_submap_position_ s) in
    let distance_threshold_exceeded :=
      isSetAndLT (submap_max_distance_travelled_ (config s))
                 distance_travelled in
    (time_threshold_exceeded || distance_threshold_exceeded, s).

Definition createNewSubmap (current_timestamp : Time)
    (current_T_G_C : Transformation) s : TsdfServer Transformation :=
  let s1 :=
    if negb (pointcloudDeintegrationEnabled (config s)) then clear s else s in
  let s2 := set_submap_counter (submap_counter_ s1 + 1) s1 in
  let s3 := set_last_published_submap_timestamp current_timestamp s2 in
  set_last_published_submap_position (getPosition current_T_G_C) s3.

(** [publishSubmap], as far as the submap topic goes: the trajectory is read
    off the deintegration queue. Writing to disk is outside the model. *)
Definition publishSubmap s : TsdfServer Transformation :=
  if 0 <? submap_pub_getNumSubscribers then
    emit (EvPublishSubmap (submap_counter_ s)
            (map (fun packet => (timestamp packet, T_G_C packet))
                 (pointcloud_deintegration_queue_ s))) s
  else s.

(** *** One message *)

Definition processPointCloudMessageAndInsert (pointcloud_msg : PointCloud2)
    (T : Transformation) (is_freespace : bool) s
  : option (TsdfServer Transformation) :=
  let points_C := converted_points pointcloud_msg in
  let cols := converted_colors pointcloud_msg in
  let '(s1, T_G_C_refined) := refinePose points_C T s in
  match integratePointcloud (header_stamp pointcloud_msg) T_G_C_refined
          points_C cols is_freespace s1 with
  | None => None
  | Some s2 =>
      let s3 :=
        if pointcloudDeintegrationEnabled (config s2)
        then servicePointcloudDeintegrationQueue s2 else s2 in
      let s4 :=
        set_tsdf_layer
          (removeDistantBlocks (getPosition T)
             (max_block_distance_from_body_ (config s3)) (tsdf_layer s3)) s3 in
      let s5 :=
        set_mesh_layer
          (clearDistantMesh (getPosition T)
             (max_block_distance_from_body_ (config s4)) (mesh_layer_ s4)) s4 in
      let '(create, s6) :=
        shouldCreateNewSubmap (header_stamp pointcloud_msg) T s5 in
      let s7 :=
        if create
        then createNewSubmap (header_stamp pointcloud_msg) T (publishSubmap s6)
        else s6 in
      Some (emit (EvNewPose T) s7)
  end.

(** The draining [while] of [insertPointcloud]: [None] of the outer option
    when a [CHECK] aborts, otherwise [processed_any] and the server. *)
Fixpoint insertPointcloud_drain (fuel : nat) (processed_any : bool) s
  : option (bool * TsdfServer Transformation) :=
  match fuel with
  | O => Some (processed_any, s)
  | S fuel' =>
      match getNextPointcloudFromQueue s with
      | (Some (pointcloud_msg, T), s1) =>
          match processPointCloudMessageAndInsert pointcloud_msg T false s1 with
          | None => None
          | Some s2 => insertPointcloud_drain fuel' true s2
          end
      | (None, s1) => Some (processed_any, s1)
      end
  end.

(** [insertPointcloud]; [None] when the call does not return: the exception
    of the gate's subtraction leaves it, or a [CHECK] aborts. A successful
    iteration of the drain pops one message, so one more than the length of
    the queue bounds the iterations. *)
Definition insertPointcloud (pointcloud_msg_in : PointCloud2) s
  : option (TsdfServer Transformation) :=
  match insertPointcloud_enqueue pointcloud_msg_in s with
  | None => None
  | Some s1 =>
      match insertPointcloud_drain (S (length (pointcloud_queue_ s1))) false s1
      with
      | None => None
      | Some (processed_any, s2) =>
          if negb processed_any then Some s2
          else if publish_pointclouds_on_update_ (config s2)
          then Some (publishPointclouds s2)
          else Some s2
      end
  end.
End Pipeline.

(** ** Construction *)

(** The values on the ROS parameter server that the constructor reads;
    [None] for a parameter that is not set. [min_time_between_msgs_sec] is
    given as the duration [fromSec] turns it into. *)
Record RosParams : Type := mkRosParams {
  param_min_time_between_msgs_sec : option Duration;
  param_max_block_distance_from_body : option FloatingPoint;
  param_publish_pointclouds_on_update : option bool;
  param_enable_icp : option bool;
  param_accumulate_icp_corrections : option bool;
  param_verbose : option bool;
  param_publish_tsdf_map : option bool;
  param_submap_max_time_interval : option FloatingPoint;
  param_submap_max_distance_travelled : option FloatingPoint;
  param_pointcloud_deintegration_max_queue_length : option Z;
  param_pointcloud_deintegration_max_time_interval : option FloatingPoint;
  param_pointcloud_deintegration_max_distance_travelled : option FloatingPoint
}.

(** [nh.param(name, variable, default)]. *)
Definition param {T} (value : option T) (default_value : T) : T :=
  match value with Some v => v | None => default_value end.

(** Modelled from the spec: the helper [getParamIfSetAndValid] of
    ros_params.h (absent here): a bound is either "unset" or, "if set",
    "strictly positive"; a parameter that fails the validity test leaves the
    threshold as it was. *)
Definition getParamIfSetAndValid {T} (value : option T) (valid : T -> bool)
    (t : Threshold T) : Threshold T :=
  match value with
  | Some v => if valid v then set v t else t
  | None => t
  end.

(** [std::numeric_limits<FloatingPoint>::max()]. *)
Definition FloatingPoint_max : FloatingPoint := SFmax_float F32.prec F32.emax.

(** A default-constructed threshold. *)
Definition Threshold_default {T} (zero : T) : Threshold T :=
  mkThreshold false zero.

Definition positive_int (ros_param : Z) : bool := 0 <? ros_param.
Definition positive_float (ros_param : FloatingPoint) : bool :=
  F32.ltb (S754_zero false) ros_param.

(** The member initialisers, [getServerConfigFromRosParam] and the later
    read of [publish_tsdf_map]. *)
Definition getServerConfigFromRosParam (p : RosParams)
    (tsdf_voxels_per_side : Z) : Config :=
  mkConfig
    (param (param_verbose p) true)
    (param (param_publish_pointclouds_on_update p) false)
    (param (param_publish_tsdf_map p) false)
    (param (param_enable_icp p) false)
    (param (param_accumulate_icp_corrections p) true)
    (param (param_min_time_between_msgs_sec p) 0)
    (param (param_max_block_distance_from_body p) FloatingPoint_max)
    (getParamIfSetAndValid (param_submap_max_time_interval p) positive_float
       (Threshold_default (S754_zero false)))
    (getParamIfSetAndValid (param_submap_max_distance_travelled p)
       positive_float (Threshold_default (S754_zero false)))
    (getParamIfSetAndValid (param_pointcloud_deintegration_max_queue_length p)
       positive_int (Threshold_default 0))
    (getParamIfSetAndValid (param_pointcloud_deintegration_max_time_interval p)
       positive_float (Threshold_default (S754_zero false)))
    (getParamIfSetAndValid
       (param_pointcloud_deintegration_max_distance_travelled p)
       positive_float (Threshold_default (S754_zero false)))
    (Z.to_nat
       (tsdf_voxels_per_side * tsdf_voxels_per_side * tsdf_voxels_per_side)).

(** The three [unset()] calls of the constructor. *)
Definition unset_pointcloud_deintegration (c : Config) : Config :=
  mkConfig (verbose_ c) (publish_pointclouds_on_update_ c)
    (publish_tsdf_map_ c) (enable_icp_ c) (accumulate_icp_corrections_ c)
    (min_time_between_msgs_ c) (max_block_distance_from_body_ c)
    (submap_max_time_interval_ c) (submap_max_distance_travelled_ c)
    (unset (pointcloud_deintegration_max_queue_length_ c))
    (unset (pointcloud_deintegration_max_time_interval_ c))
    (unset (pointcloud_deintegration_max_distance_travelled_ c))
    (num_voxels_per_block_ c).

(** The opening of the constructor's [ROS_ERROR_STREAM] message. *)
Definition deintegration_unsupported_error : string :=
  "Pointcloud deintegration is enabled, but not supported by the chosen TSDF integration method.".

Definition advertised_services : list string :=
  ["generate_mesh"; "clear_map"; "save_map"; "load_map";
   "publish_pointclouds"; "publish_map"]%string.

Section Construction.
Context {Transformation : Type} {pose_ops : Pose Transformation}
        {collab : Collaborators Transformation}.

Definition set_config (c : Config) (s : TsdfServer Transformation)
  : TsdfServer Transformation :=
  mkServer c (last_msg_time_ptcloud_ s) (pointcloud_queue_ s)
    (icp_corrected_transform_ s) (pointcloud_deintegration_queue_ s)
    (tsdf_layer s) (mesh_layer_ s) (submap_counter_ s)
    (last_published_submap_timestamp_ s) (last_published_submap_position_ s)
    (map_needs_pruning_ s) (num_subscribers_tsdf_map_ s) (trace s).

(** The constructor: members initialised, then deintegration disabled when
    the integrator at hand cannot do it, then the services advertised. *)
Definition TsdfServer_new (p : RosParams) (tsdf_voxels_per_side : Z)
  : TsdfServer Transformation :=
  let s0 :=
    mkServer (getServerConfigFromRosParam p tsdf_voxels_per_side)
      0 [] T_identity [] ∅ ∅ 0 0 (Point_Constant S754_nan) false 0 [] in
  let s1 :=
    if pointcloudDeintegrationEnabled (config s0)
       && negb (TsdfIntegratorType_eqb getType kProjective)
    then
      set_config (unset_pointcloud_deintegration (config s0))
        (emit (EvRosError deintegration_unsupported_error) s0)
    else s0 in
  foldl (fun s name => emit (EvAdvertiseService name) s) s1
        advertised_services.
End Construction.

(** ** The member functions as operations on the server *)

Section Operations_machine.
Context {Transformation : Type} {pose_ops : Pose Transformation}
        {collab : Collaborators Transformation}.
Implicit Type s : TsdfServer Transformation.

Inductive Operation : Type :=
| OpIntegratePointcloud (stamp : Time) (T : Transformation)
    (points : Pointcloud) (cols : Colors) (is_freespace : bool)
| OpServicePointcloudDeintegrationQueue
| OpPruneMap
| OpPublishMap (reset_remote_map : bool)
| OpPublishPointclouds
| OpShouldCreateNewSubmap (stamp : Time) (T : Transformation)
| OpCreateNewSubmap (stamp : Time) (T : Transformation)
| OpClear.

(** The server after the operation; [None] when a [CHECK] aborts. *)
Definition run (op : Operation) s : option (TsdfServer Transformation) :=
  match op with
  | OpIntegratePointcloud stamp T points cols is_freespace =>
      integratePointcloud stamp T points cols is_freespace s
  | OpServicePointcloudDeintegrationQueue =>
      Some (servicePointcloudDeintegrationQueue s)
  | OpPruneMap => Some (pruneMap s)
  | OpPublishMap reset_remote_map => Some (publishMap reset_remote_map s)
  | OpPublishPointclouds => Some (publishPointclouds s)
  | OpShouldCreateNewSubmap stamp T => Some (shouldCreateNewSubmap stamp T s).2
  | OpCreateNewSubmap stamp T => Some (createNewSubmap stamp T s)
  | OpClear => Some (clear s)
  end.

(** Whether the operation, started in [s], reaches the call of [clear]. *)
Definition calls_clear (op : Operation) s : bool :=
  match op with
  | OpClear => true
  | OpCreateNewSubmap _ _ => negb (pointcloudDeintegrationEnabled (config s))
  | _ => false
  end.

(** Whether the operation, started in [s], reaches a call of [pruneMap]. *)
Definition calls_pruneMap (op : Operation) s : bool :=
  match op with
  | OpPruneMap => true
  | OpPublishMap _ | OpPublishPointclouds => map_needs_pruning_ s
  | OpClear => publish_tsdf_map_ (config s) && map_needs_pruning_ s
  | OpCreateNewSubmap _ _ =>
      negb (pointcloudDeintegrationEnabled (config s))
      && publish_tsdf_map_ (config s) && map_needs_pruning_ s
  | _ => false
  end.
End Operations_machine.

Arguments Operation : clear implicits.

(** ** The predicates of the properties *)

Section Property_predicates.
Context {Transformation : Type} {pose_ops : Pose Transformation}.

(** Seconds between the oldest and the newest packet, as the threshold sees
    them. *)
Definition window_time_elapsed
    (oldest newest : PointcloudDeintegrationPacket Transformation)
  : FloatingPoint :=
  F64.to_float
    (Duration_toSec (Time_sub (timestamp newest) (timestamp oldest))).

Definition window_distance_travelled
    (oldest newest : PointcloudDeintegrationPacket Transformation)
  : FloatingPoint :=
  Point_distance (getPosition (T_G_C newest)) (getPosition (T_G_C oldest)).

(** Some bound is set and strictly below the measured quantity. *)
Definition eviction_due (c : Config) (queue_size : nat)
    (oldest newest : PointcloudDeintegrationPacket Transformation) : Prop :=
  (isSet (pointcloud_deintegration_max_queue_length_ c) = true
   /\ threshold_value (pointcloud_deintegration_max_queue_length_ c)
      < int_of_size queue_size)
  \/ (isSet (pointcloud_deintegration_max_time_interval_ c) = true
      /\ F32.ltb (threshold_value (pointcloud_deintegration_max_time_interval_ c))
                 (window_time_elapsed oldest newest) = true)
  \/ (isSet (pointcloud_deintegration_max_distance_travelled_ c) = true
      /\ F32.ltb
           (threshold_value (pointcloud_deintegration_max_distance_travelled_ c))
           (window_distance_travelled oldest newest) = true).


(** A block touched since the last pruning pass in which no voxel's weight
    exceeds [kFloatEpsilon]. *)
Definition fully_cancelled (s : TsdfServer Transformation) (i : BlockIndex)
  : Prop :=
  exists b, tsdf_layer s !! i = Some b /\ updated_map b = true
            /\ forall voxel, voxel ∈ voxels b ->
                 F32.ltb kFloatEpsilon (weight voxel) = false.

(** What pruning a block does to its mesh: emptied, marked as updated. *)
Definition Mesh_reset (mesh : Mesh) : Mesh :=
  Mesh_set_updated true (Mesh_clear mesh).
End Property_predicates.

Section Refinement_predicates.
Context {Transformation : Type} {pose_ops : Pose Transformation}
        {collab : Collaborators Transformation}.

(** The transformation has neither roll nor pitch: setting coordinates 3
    and 4 of its logarithm to zero gives it back. *)
Definition without_roll_pitch (T : Transformation) : Prop :=
  T_exp (<[4%nat := S754_zero false]>
           (<[3%nat := S754_zero false]> (T_log T))) = T.

(** ICP as the comment in [processPointCloudMessageAndInsert] has it ("its
    already removed internally"): when ICP does not refine roll and pitch,
    the pose it returns differs from its initial guess by a transformation
    without roll and pitch. *)
Definition icp_removes_roll_pitch : Prop :=
  refiningRollPitch = false ->
  forall (layer : Layer) (points : Pointcloud) (initial : Transformation),
    without_roll_pitch
      (T_compose (runICP layer points initial).2 (T_inverse initial)).
End Refinement_predicates.

(** Whether the outer loop of [pruneMap], run over the indices [ks] on the
    layer [l], removes block [i]. *)
Definition pruned_by (n : nat) (l : Layer) (ks : list BlockIndex)
    (i : BlockIndex) : bool :=
  match l !! i with
  | Some b => bool_decide (i ∈ ks) && negb (block_contains_observed_voxels n b)
  | None => false
  end.

(** ** A concrete setting

    Screw motions about the sensor's x axis: a translation along the axis
    and a rotation about it, both in whole units. They commute, so in
    exponential coordinates composition is addition, [log] lists the two
    coordinates in places 0 and 3, and [exp] reads them back. The
    collaborators are small stand-ins: an integrator that keeps one
    single-voxel block per position and adds (or, deintegrating, subtracts)
    the number of points as weight; an ICP that does not refine roll and
    pitch and moves its initial guess one unit along the axis. *)
Module XScrew.

Record t : Type := mk { shift : Z; roll : Z }.

(** The integer a float holds, truncated. *)
Definition to_Z (f : FloatingPoint) : Z :=
  match f with
  | S754_finite sign m e =>
      cond_Zopp sign (if 0 <=? e then Z.pos m * 2 ^ e else Z.pos m / 2 ^ (- e))
  | _ => 0
  end.

#[export] Instance pose : Pose t := {|
  T_identity := mk 0 0;
  T_compose a b := mk (shift a + shift b) (roll a + roll b);
  T_inverse a := mk (- shift a) (- roll a);
  getPosition a :=
    mkPoint (F32.of_Z (shift a)) (S754_zero false) (S754_zero false);
  T_log a :=
    [F32.of_Z (shift a); S754_zero false; S754_zero false;
     F32.of_Z (roll a); S754_zero false; S754_zero false];
  T_exp v :=
    mk (to_Z (nth 0 v (S754_zero false))) (to_Z (nth 3 v (S754_zero false)))
|}.

Definition integrate_block (T : t) (points : Pointcloud) (deintegrate : bool)
    (layer : Layer) : Layer :=
  let index : BlockIndex := (shift T, 0, 0) in
  let block :=
    default (mkBlock [mkVoxel (S754_zero false) (S754_zero false)] false)
            (layer !! index) in
  let w := F32.of_Z (Z.of_nat (length points)) in
  let update voxel :=
    mkVoxel (distance voxel)
      ((if deintegrate then F32.sub else F32.add) (weight voxel) w) in
  <[index := mkBlock (map update (voxels block)) true]> layer.

Definition collaborators_with (type : TsdfIntegratorType) : Collaborators t := {|
  integratePointCloud T points _ _ deintegrate layer :=
    integrate_block T points deintegrate layer;
  getType := type;
  runICP _ _ initial := (1%nat, mk (shift initial + 1) (roll initial));
  refiningRollPitch := false;
  lookupTransform _ stamp := Some (mk (stamp / 1000000000) 0);
  removeDistantBlocks _ _ layer := layer;
  clearDistantMesh _ _ mesh := mesh;
  tsdf_map_pub_getNumSubscribers := 1;
  submap_pub_getNumSubscribers := 0
|}.

(** The projective integrator, which can deintegrate. *)
#[export] Instance collaborators : Collaborators t :=
  collaborators_with kProjective.

(** [pointcloud_deintegration_max_queue_length] is 2 and the map is
    published; everything else is left at its default. *)
Definition windowed_params : RosParams :=
  mkRosParams None None None None None None (Some true) None None (Some 2)
    None None.

(** No deintegration bound; submaps every 5 units travelled; ICP is on and
    does not accumulate. *)
Definition submap_params : RosParams :=
  mkRosParams None None None (Some true) (Some false) None None None
    (Some (F32.of_Z 5)) None None None.

Definition one_point : Pointcloud :=
  [mkPoint (F32.of_Z 1) (S754_zero false) (S754_zero false)].
Definition one_color : Colors := [(0, 0, 0, 255)].

Definition packet_at (seconds : Z) (position : Z)
  : PointcloudDeintegrationPacket t :=
  mkPacket (seconds * 1000000000) (mk position 0) one_point one_color false.

Definition message_at (seconds : Z) : PointCloud2 :=
  mkMsg (seconds * 1000000000) "camera" one_point one_color.

(** The server after fusing one point seen at [position] at [seconds]. *)
Definition fuse (seconds position : Z) (s : TsdfServer t) : TsdfServer t :=
  default s
    (integratePointcloud (seconds * 1000000000) (mk position 0) one_point
       one_color false s).

(** Servers with single-voxel blocks, as constructed. *)
Definition windowed : TsdfServer t := TsdfServer_new windowed_params 1.
Definition submapped : TsdfServer t := TsdfServer_new submap_params 1.

(** Two, then three, clouds fused under a queue-length bound of 2; the
    first was seen from position 7. *)
Definition two_packets : TsdfServer t := fuse 2 0 (fuse 1 7 windowed).
Definition three_packets : TsdfServer t := fuse 3 0 two_packets.

(** The window serviced, and the block the evicted cloud had touched given
    a mesh. *)
Definition serviced : TsdfServer t :=
  servicePointcloudDeintegrationQueue three_packets.
Definition dirty_map : TsdfServer t :=
  set_mesh_layer {[(7, 0, 0) := mkMesh one_point false]} serviced.

(** Two clouds fused eight seconds and a hundred units apart, no
    deintegration bound set. *)
Definition unbounded_window : TsdfServer t :=
  fuse 9 100 (fuse 1 0 submapped).

End XScrew.


(** ** More predicates and operations *)

Section More_definitions.
Context {Transformation : Type} {pose_ops : Pose Transformation}
        {collab : Collaborators Transformation}.

(** The integrator call that deintegrates a packet. *)
Definition deintegration_of
    (packet : PointcloudDeintegrationPacket Transformation)
  : Event Transformation :=
  EvIntegratePointCloud (T_G_C packet) (ptcloud_C packet) (colors packet)
    (is_freespace_pointcloud packet) true.

(** The layer after deintegrating a packet. *)
Definition deintegrated (layer : Layer)
    (packet : PointcloudDeintegrationPacket Transformation) : Layer :=
  integratePointCloud (T_G_C packet) (ptcloud_C packet) (colors packet)
    (is_freespace_pointcloud packet) true layer.

(** The stamps the server holds, oldest first: those of the packets in
    the window, then those of the messages still waiting for a pose. *)
Definition held_stamps (s : TsdfServer Transformation) : list Time :=
  map timestamp (pointcloud_deintegration_queue_ s)
  ++ map header_stamp (pointcloud_queue_ s).

(** The held stamps strictly increase and none is later than the stamp of
    the last message enqueued; the rate gate's interval is not negative. *)
Definition stamps_in_order (s : TsdfServer Transformation) : Prop :=
  StronglySorted Z.lt (held_stamps s)
  /\ Forall (fun stamp => stamp <= last_msg_time_ptcloud_ s) (held_stamps s)
  /\ 0 <= min_time_between_msgs_ (config s).
(** A message whose conversion gave as many colours as points. *)
Definition well_formed (pointcloud_msg : PointCloud2) : Prop :=
  length (converted_points pointcloud_msg)
  = length (converted_colors pointcloud_msg).

(** Each submap bound that is set passed the constructor's validity test
    [0 < value]. *)
Definition submap_bounds_positive (c : Config) : Prop :=
  (isSet (submap_max_time_interval_ c) = true ->
   positive_float (threshold_value (submap_max_time_interval_ c)) = true)
  /\ (isSet (submap_max_distance_travelled_ c) = true ->
      positive_float (threshold_value (submap_max_distance_travelled_ c))
      = true).
End More_definitions.

(** A zero of either sign, or NaN. *)
Definition zero_or_nan (x : FloatingPoint) : bool :=
  match x with S754_zero _ | S754_nan => true | _ => false end.


(** ** Paths and directories *)

(** A [std::string] handled character by character. *)
Definition CString : Type := list ascii.

(** The value of a [char] in a comparison: [char] is signed on some
    platforms and unsigned on others. *)
Definition char_value (char_is_signed : bool) (character : ascii) : Z :=
  let code := Z.of_N (N_of_ascii character) in
  if char_is_signed && (128 <=? code) then code - 256 else code.

Definition kUpperAsciiBound : ascii := "~"%char.
Definition kLowerAsciiBound : ascii := " "%char.

Fixpoint hasOnlyAsciiCharacters (char_is_signed : bool)
    (string_to_test : CString) : bool :=
  match string_to_test with
  | [] => true
  | character :: rest =>
      if (char_value char_is_signed kUpperAsciiBound
          <? char_value char_is_signed character)
         || (char_value char_is_signed character
             <? char_value char_is_signed kLowerAsciiBound)
      then false
      else hasOnlyAsciiCharacters char_is_signed rest
  end.

(** A character between space and tilde. *)
Definition printable (character : ascii) : Prop :=
  (32 <= N_of_ascii character <= 126)%N.

(** [std::string::find_first_of(c, pos)]: the first index at or after [pos]
    that holds [c]; [None] for [npos]. *)
Fixpoint find_first_of (c : ascii) (s : CString) (pos : nat) : option nat :=
  match s with
  | [] => None
  | a :: rest =>
      match pos with
      | O => if Ascii.eqb a c then Some O else S <$> find_first_of c rest O
      | S pos' => S <$> find_first_of c rest pos'
      end
  end.

Definition CString_eqb (a b : CString) : bool :=
  bool_decide (a = b).

(** [EEXIST]. *)
Definition EEXIST : Z := 17.

Section CreatePath.
(** The file system and [mkdir(name, 0777)] on it: the status returned,
    [errno] after the call, the file system after the call. *)
Context {FS : Type} (char_is_signed : bool)
        (mkdir : CString -> FS -> Z * Z * FS).

(** The [while] of [createPath], from [previous_position] on. Every pass
    moves [previous_position] past one more slash, so the length of the path
    bounds the passes. *)
Fixpoint createPath_loop (fuel : nat) (path_to_create : CString)
    (previous_position : nat) (fs : FS) : bool * FS :=
  match fuel with
  | O => (true, fs)
  | S fuel' =>
      match find_first_of "/" path_to_create previous_position with
      | None => (true, fs)
      | Some current_position =>
          let current_directory := take current_position path_to_create in
          let previous_position := S current_position in
          if CString_eqb current_directory ["."%char]
             || CString_eqb current_directory []
          then createPath_loop fuel' path_to_create previous_position fs
          else if negb (hasOnlyAsciiCharacters char_is_signed
                          current_directory)
          then (false, fs)
          else
            let '(make_dir_status, errno, fs') := mkdir current_directory fs in
            if negb (make_dir_status =? 0) && negb (errno =? EEXIST)
            then (make_dir_status =? 0, fs')
            else createPath_loop fuel' path_to_create previous_position fs'
      end
  end.

(** [createPath]; [None] when the [CHECK] on an empty path aborts. *)
Definition createPath (path_to_create_input : CString) (fs : FS)
  : option (bool * FS) :=
  match path_to_create_input with
  | [] => None
  | first :: _ =>
      let path_to_create :=
        if negb (Ascii.eqb (List.last path_to_create_input first) "/")
        then path_to_create_input ++ ["/"%char]
        else path_to_create_input in
      Some (createPath_loop (S (length path_to_create)) path_to_create 0 fs)
  end.

(** The directories a path names, shortest first: for every slash of
    [rest], what stands before it, [before] included. *)
Fixpoint slash_prefixes (before rest : CString) : list CString :=
  match rest with
  | [] => []
  | a :: rest' =>
      (if Ascii.eqb a "/" then [before] else [])
      ++ slash_prefixes (before ++ [a]) rest'
  end.

(** Making directories one after the other, stopping at the first name
    with a character outside the printable range and at the first [mkdir]
    that fails for another reason than the directory being there. *)
Fixpoint make_directories (directories : list CString) (fs : FS)
  : bool * FS :=
  match directories with
  | [] => (true, fs)
  | directory :: others =>
      if negb (hasOnlyAsciiCharacters char_is_signed directory)
      then (false, fs)
      else
        let '(make_dir_status, errno, fs') := mkdir directory fs in
        if negb (make_dir_status =? 0) && negb (errno =? EEXIST)
        then (false, fs')
        else make_directories others fs'
  end.
End CreatePath.

(** The directory names [createPath] passes over: the empty one and ".". *)
Definition skipped_directory (directory : CString) : bool :=
  CString_eqb directory ["."%char] || CString_eqb directory [].

(** The path with a slash at its end, as [createPath] walks it. *)
Definition with_trailing_slash (path : CString) : CString :=
  match path with
  | [] => []
  | first :: _ =>
      if Ascii.eqb (List.last path first) "/" then path
      else path ++ ["/"%char]
  end.

(** *** The submap directory *)

(** The two checks on [write_submaps_to_directory_] in
    [getServerConfigFromRosParam], once a trailing slash is gone: the
    directory kept and the errors logged. [front()] of an empty string is
    undefined: [None]. *)
Definition check_submap_directory (char_is_signed : bool)
    (directory : CString) : option (CString * list string) :=
  match directory with
  | [] => None
  | front :: _ =>
      let '(directory, errors) :=
        if negb (Ascii.eqb front "/")
        then ([], ["must correspond to an absolute path"%string])
        else (directory, []) in
      if negb (hasOnlyAsciiCharacters char_is_signed directory)
      then Some ([], errors ++ ["must only contain ASCII characters"%string])
      else Some (directory, errors)
  end.

(** The sanitising of [write_submaps_to_directory_]: nothing is done to an
    empty path; otherwise one trailing slash is removed and the checks run.
    Of the path "/" only the empty string is left for the checks. *)
Definition sanitize_submap_directory (char_is_signed : bool)
    (write_submaps_to_directory_ : CString)
  : option (CString * list string) :=
  match write_submaps_to_directory_ with
  | [] => Some ([], [])
  | first :: _ =>
      check_submap_directory char_is_signed
        (if Ascii.eqb (List.last write_submaps_to_directory_ first) "/"
         then removelast write_submaps_to_directory_
         else write_submaps_to_directory_)
  end.

(** [std::to_string] of an integer: decimal digits, a minus sign first for
    a negative number. *)
Definition to_string (n : Z) : CString :=
  list_ascii_of_string (NilZero.string_of_int (Z.to_int n)).

(** The folder a submap is saved to, as [publishSubmap] builds it. *)
Definition submap_folder_path (write_submaps_to_directory_ : CString)
    (submap_counter : Z) : CString :=
  write_submaps_to_directory_
  ++ list_ascii_of_string "/voxblox_submap_" ++ to_string submap_counter.

(** ** More of the concrete setting *)
Module Samples.
Import XScrew.

(** An ICP that refines roll and pitch and returns its guess shifted by
    one unit along the axis. *)
Definition refining_collaborators : Collaborators t := {|
  integratePointCloud T points _ _ deintegrate layer :=
    integrate_block T points deintegrate layer;
  getType := kProjective;
  runICP _ _ initial := (1%nat, mk (shift initial + 1) (roll initial));
  refiningRollPitch := true;
  lookupTransform _ stamp := Some (mk (stamp / 1000000000) 0);
  removeDistantBlocks _ _ layer := layer;
  clearDistantMesh _ _ mesh := mesh;
  tsdf_map_pub_getNumSubscribers := 1;
  submap_pub_getNumSubscribers := 0
|}.

(** No parameter set: neither deintegration nor submapping. *)
Definition plain : TsdfServer t :=
  TsdfServer_new
    (mkRosParams None None None None None None None None None None None None)
    1.

(** A third cloud processed by the server that holds two, under a
    queue-length bound of 2. *)
Definition processed : TsdfServer t :=
  default two_packets
    (processPointCloudMessageAndInsert (message_at 3) (mk 0 0) false
       two_packets).

(** A cloud processed by the server with no parameter set. *)
Definition processed_plain : TsdfServer t :=
  default plain
    (processPointCloudMessageAndInsert (message_at 3) (mk 0 0) false plain).

(** A message inserted into the fresh server with the queue-length bound. *)
Definition inserted : TsdfServer t :=
  default windowed (insertPointcloud (message_at 1) windowed).

(** A file system that records the directories made, newest first, and a
    [mkdir] that always succeeds. *)
Definition recording_mkdir (directory : CString) (made : list CString)
  : Z * Z * list CString :=
  (0, 0, directory :: made).

(** "/maps" followed by a character of code 200. *)
Definition unprintable_path : CString :=
  list_ascii_of_string "/maps" ++ [ascii_of_nat 200].

Definition printable_path : CString := list_ascii_of_string "/tmp/maps".
End Samples.
(** * Properties *)

(** ** Auxiliary facts *)

Lemma int_of_size_small (n : nat) :
  Z.of_nat n < 2 ^ 31 -> int_of_size n = Z.of_nat n.
Proof.
  intros Hn. unfold int_of_size.
  rewrite Z.mod_small by lia. lia.
Qed.

Lemma last_cons_default {A : Type} (l : list A) (a d : A) :
  List.last (a :: l) d = List.last l a.
Proof.
  revert a d. induction l as [|b l IH]; intros a d; [reflexivity|].
  change (List.last (a :: b :: l) d) with (List.last (b :: l) d).
  rewrite (IH b d), (IH b a). reflexivity.
Qed.

Lemma while_loop_unroll {St : Type} (fuel : nat) (body : St -> option St)
    (s : St) :
  while_loop (S fuel) body s
  = match body s with
    | None => s
    | Some s' => while_loop fuel body s'
    end.
Proof. reflexivity. Qed.

(** A loop whose body lowers a measure, started with at least that much
    fuel, ends because its body leaves, not because the fuel ran out. *)
Lemma while_loop_exits {St : Type} (measure : St -> nat)
    (body : St -> option St) :
  (forall s s', body s = Some s' -> (measure s' < measure s)%nat) ->
  forall fuel s, (measure s <= fuel)%nat ->
  body (while_loop fuel body s) = None.
Proof.
  intros Hdec fuel. induction fuel as [|fuel IH]; intros s Hfuel.
  - simpl. destruct (body s) as [s'|] eqn:Hb; [|reflexivity].
    apply Hdec in Hb. lia.
  - rewrite while_loop_unroll. destruct (body s) as [s'|] eqn:Hb; [|exact Hb].
    apply IH. apply Hdec in Hb. lia.
Qed.

(** [fromNSec] returns exactly on the durations whose seconds, rounded
    down, fit [int32_t]. *)
Lemma Duration_fromNSec_seconds (t : Z) :
  let sec64 := Z.quot t 1000000000 in
  (if Z.rem t 1000000000 <? 0 then sec64 - 1 else sec64) = t / 1000000000
  /\ t / 1000000000 <= sec64
  /\ (0 < sec64 -> sec64 = t / 1000000000).
Proof.
  cbv zeta.
  pose proof (Z.quot_rem' t 1000000000) as Hquot.
  pose proof (Z.div_mod t 1000000000 ltac:(lia)) as Hdiv.
  pose proof (Z.mod_pos_bound t 1000000000 ltac:(lia)) as Hmod.
  destruct (Z_lt_le_dec t 0) as [Hneg|Hpos].
  - pose proof (Z.rem_bound_pos_neg t 1000000000 ltac:(lia) ltac:(lia))
      as Hrem.
    destruct (Z.ltb_spec (Z.rem t 1000000000) 0); repeat split; nia.
  - pose proof (Z.rem_bound_pos_pos t 1000000000 ltac:(lia) ltac:(lia))
      as Hrem.
    destruct (Z.ltb_spec (Z.rem t 1000000000) 0); repeat split; nia.
Qed.

Lemma Duration_fromNSec_representable (t : Z) :
  Duration_representable t -> Duration_fromNSec t = Some t.
Proof.
  unfold Duration_representable, Duration_fromNSec. intros [Hlo Hhi].
  destruct (Duration_fromNSec_seconds t) as (Hsec & Hle & Hpos).
  cbv zeta in Hsec, Hle, Hpos. rewrite Hsec.
  unfold int32_min, int32_max in *.
  destruct (Z.ltb_spec (Z.quot t 1000000000) (- 2 ^ 31)); [lia|].
  destruct (Z.ltb_spec (2 ^ 31 - 1) (Z.quot t 1000000000)); [lia|].
  destruct (Z.ltb_spec (t / 1000000000) (- 2 ^ 31)); [lia|].
  destruct (Z.ltb_spec (2 ^ 31 - 1) (t / 1000000000)); [lia|].
  reflexivity.
Qed.

Lemma Duration_fromNSec_not_representable (t : Z) :
  ~ Duration_representable t -> Duration_fromNSec t = None.
Proof.
  unfold Duration_representable, Duration_fromNSec. intros Hnot.
  destruct (Duration_fromNSec_seconds t) as (Hsec & Hle & Hpos).
  cbv zeta in Hsec, Hle, Hpos. rewrite Hsec.
  unfold int32_min, int32_max in *.
  destruct (Z.ltb_spec (Z.quot t 1000000000) (- 2 ^ 31)); [reflexivity|].
  destruct (Z.ltb_spec (2 ^ 31 - 1) (Z.quot t 1000000000)); [reflexivity|].
  destruct (Z.ltb_spec (t / 1000000000) (- 2 ^ 31)); [reflexivity|].
  destruct (Z.ltb_spec (2 ^ 31 - 1) (t / 1000000000)); [reflexivity|].
  lia.
Qed.

Lemma Duration_representable_dec (t : Z) :
  Duration_representable t \/ ~ Duration_representable t.
Proof. unfold Duration_representable. lia. Qed.

Section Properties.
Context {Transformation : Type} {pose_ops : Pose Transformation}
        {collab : Collaborators Transformation}.
Implicit Type s : TsdfServer Transformation.

(** *** The deintegration queue *)

Lemma isSetAndLT_int (t : Threshold Z) (v : Z) :
  isSetAndLT t v = true <-> isSet t = true /\ threshold_value t < v.
Proof.
  unfold isSetAndLT, isSet, less, Less_int.
  rewrite andb_true_iff, Z.ltb_lt. reflexivity.
Qed.

Lemma isSetAndLT_float (t : Threshold FloatingPoint) (v : FloatingPoint) :
  isSetAndLT t v = true
  <-> isSet t = true /\ F32.ltb (threshold_value t) v = true.
Proof.
  unfold isSetAndLT, isSet, less, Less_float.
  rewrite andb_true_iff. reflexivity.
Qed.

Lemma should_deintegrate_pointcloud_spec (c : Config) (n : nat)
    (oldest newest : PointcloudDeintegrationPacket Transformation) :
  should_deintegrate_pointcloud c n oldest newest = true
  <-> eviction_due c n oldest newest.
Proof.
  unfold should_deintegrate_pointcloud, eviction_due,
    window_time_elapsed, window_distance_travelled.
  rewrite !orb_true_iff, isSetAndLT_int, !isSetAndLT_float. tauto.
Qed.

Lemma service_body_inv s s' :
  servicePointcloudDeintegrationQueue_body s = Some s' ->
  exists oldest rest,
    pointcloud_deintegration_queue_ s = oldest :: rest /\ rest <> []
    /\ eviction_due (config s) (length (oldest :: rest)) oldest
         (List.last rest oldest)
    /\ s' = deintegrate_oldest oldest s.
Proof.
  unfold servicePointcloudDeintegrationQueue_body.
  destruct (pointcloud_deintegration_queue_ s) as [|oldest rest] eqn:Hq;
    [destruct (1 <? length _)%nat; discriminate|].
  destruct (1 <? length (oldest :: rest))%nat eqn:Hlen; [|discriminate].
  destruct (should_deintegrate_pointcloud _ _ _ _) eqn:Hd; [|discriminate].
  intros [= <-]. exists oldest, rest. split; [reflexivity|].
  apply Nat.ltb_lt in Hlen. simpl in Hlen.
  split; [destruct rest; simpl in *; [lia|discriminate]|].
  split; [|reflexivity].
  apply should_deintegrate_pointcloud_spec.
  rewrite last_cons_default in Hd. exact Hd.
Qed.

Lemma service_body_due s oldest rest :
  pointcloud_deintegration_queue_ s = oldest :: rest -> rest <> [] ->
  eviction_due (config s) (length (oldest :: rest)) oldest
    (List.last rest oldest) ->
  servicePointcloudDeintegrationQueue_body s
  = Some (deintegrate_oldest oldest s).
Proof.
  intros Hq Hrest Hdue. unfold servicePointcloudDeintegrationQueue_body.
  rewrite Hq.
  replace (1 <? length (oldest :: rest))%nat with true
    by (symmetry; apply Nat.ltb_lt; destruct rest; simpl; [tauto|lia]).
  rewrite last_cons_default.
  apply should_deintegrate_pointcloud_spec in Hdue. rewrite Hdue.
  reflexivity.
Qed.


Lemma deintegrate_oldest_queue s oldest :
  pointcloud_deintegration_queue_ (deintegrate_oldest oldest s)
  = tail (pointcloud_deintegration_queue_ s).
Proof. reflexivity. Qed.

Lemma deintegrate_oldest_config s oldest :
  config (deintegrate_oldest oldest s) = config s.
Proof. reflexivity. Qed.

Lemma service_body_measure s s' :
  servicePointcloudDeintegrationQueue_body s = Some s' ->
  (length (pointcloud_deintegration_queue_ s')
   < length (pointcloud_deintegration_queue_ s))%nat.
Proof.
  intros Hb. apply service_body_inv in Hb as (o & r & Hq & _ & _ & ->).
  rewrite deintegrate_oldest_queue, Hq. simpl. lia.
Qed.

Lemma service_exits s :
  servicePointcloudDeintegrationQueue_body
    (servicePointcloudDeintegrationQueue s) = None.
Proof.
  unfold servicePointcloudDeintegrationQueue.
  apply (while_loop_exits
           (fun s => length (pointcloud_deintegration_queue_ s)));
    [exact service_body_measure|lia].
Qed.

Lemma service_unfold s :
  servicePointcloudDeintegrationQueue s
  = match servicePointcloudDeintegrationQueue_body s with
    | None => s
    | Some s' => servicePointcloudDeintegrationQueue s'
    end.
Proof.
  unfold servicePointcloudDeintegrationQueue at 1.
  destruct (pointcloud_deintegration_queue_ s) as [|oldest rest] eqn:Hq.
  - simpl. unfold servicePointcloudDeintegrationQueue_body. rewrite Hq.
    reflexivity.
  - simpl length. rewrite while_loop_unroll.
    destruct (servicePointcloudDeintegrationQueue_body s) as [s'|] eqn:Hb;
      [|reflexivity].
    apply service_body_inv in Hb as (o & r & Hq' & _ & _ & ->).
    unfold servicePointcloudDeintegrationQueue.
    rewrite deintegrate_oldest_queue, Hq. reflexivity.
Qed.

Lemma service_config s :
  config (servicePointcloudDeintegrationQueue s) = config s.
Proof.
  unfold servicePointcloudDeintegrationQueue.
  generalize (length (pointcloud_deintegration_queue_ s)) as fuel.
  intros fuel. revert s. induction fuel as [|fuel IH]; intros s;
    [reflexivity|].
  rewrite while_loop_unroll.
  destruct (servicePointcloudDeintegrationQueue_body s) as [s'|] eqn:Hb;
    [|reflexivity].
  rewrite IH. apply service_body_inv in Hb as (o & r & _ & _ & _ & ->).
  reflexivity.
Qed.

Lemma service_loop_keeps_one_packet (fuel : nat) s :
  (1 <= length (pointcloud_deintegration_queue_ s))%nat ->
  (1 <= length (pointcloud_deintegration_queue_
                  (while_loop fuel servicePointcloudDeintegrationQueue_body
                     s)))%nat.
Proof.
  revert s. induction fuel as [|fuel IH]; intros s Hlen; [exact Hlen|].
  rewrite while_loop_unroll.
  destruct (servicePointcloudDeintegrationQueue_body s) as [s'|] eqn:Hb;
    [|exact Hlen].
  apply IH.
  apply service_body_inv in Hb as (o & r & Hq & Hr & _ & ->).
  rewrite deintegrate_oldest_queue, Hq. simpl.
  destruct r; [contradiction|simpl; lia].
Qed.


(** C2: [servicePointcloudDeintegrationQueue] never empties a window that
    holds a packet, whatever the bounds and whatever predicates still hold;
    and an operation of the server that is entered with a packet retained
    and returns with none has gone through [clear]. *)
Theorem service_keeps_one_packet s :
  (1 <= length (pointcloud_deintegration_queue_ s))%nat ->
  (1 <= length (pointcloud_deintegration_queue_
                  (servicePointcloudDeintegrationQueue s)))%nat
  /\ forall (op : Operation Transformation) s',
       run op s = Some s' ->
       pointcloud_deintegration_queue_ s' = [] ->
       calls_clear op s = true.
Proof.
  intros Hlen.
  assert (Hservice :
    (1 <= length (pointcloud_deintegration_queue_
                    (servicePointcloudDeintegrationQueue s)))%nat)
    by (apply service_loop_keeps_one_packet; exact Hlen).
  split; [exact Hservice|].
    assert (Hprune : forall s0,
      pointcloud_deintegration_queue_ (pruneMap s0)
      = pointcloud_deintegration_queue_ s0) by reflexivity.
    assert (Hpublish : forall b s0,
      pointcloud_deintegration_queue_ (publishMap b s0)
      = pointcloud_deintegration_queue_ s0).
    { intros b s0. unfold publishMap.
      destruct (map_needs_pruning_ s0);
        destruct (negb (publish_tsdf_map_ _)); try reflexivity;
        destruct (0 <? _); reflexivity. }
    intros op s' Hrun Hempty.
    destruct op as [stamp T points cols fs| | |reset| |stamp T|stamp T|];
      simpl in Hrun; simpl.
    + unfold integratePointcloud in Hrun.
      destruct (negb _); [discriminate|].
      destruct (_ || _); injection Hrun as <-; simpl in Hempty.
      * destruct (pointcloud_deintegration_queue_ s); discriminate.
      * rewrite Hempty in Hlen. simpl in Hlen. lia.
    + injection Hrun as <-. rewrite Hempty in Hservice.
      simpl in Hservice. lia.
    + injection Hrun as <-. rewrite Hprune in Hempty.
      rewrite Hempty in Hlen. simpl in Hlen. lia.
    + injection Hrun as <-. rewrite Hpublish in Hempty.
      rewrite Hempty in Hlen. simpl in Hlen. lia.
    + injection Hrun as <-. unfold publishPointclouds in Hempty.
      destruct (map_needs_pruning_ s); simpl in Hempty;
        rewrite Hempty in Hlen; simpl in Hlen; lia.
    + injection Hrun as <-. unfold shouldCreateNewSubmap in Hempty.
      destruct (negb _); [|destruct (_ || _)]; simpl in Hempty;
        rewrite Hempty in Hlen; simpl in Hlen; lia.
    + injection Hrun as <-. unfold createNewSubmap in Hempty.
      destruct (negb (pointcloudDeintegrationEnabled (config s)));
        [reflexivity|].
      simpl in Hempty. rewrite Hempty in Hlen. simpl in Hlen. lia.
    + reflexivity.
Qed.

(** C3: with none of the three deintegration bounds set,
    [servicePointcloudDeintegrationQueue] changes nothing: the window, the
    map, the mesh, the pruning flag and the trace of integrator calls are
    those it was entered with. *)
Theorem service_noop_when_unset s :
  isSet (pointcloud_deintegration_max_queue_length_ (config s)) = false ->
  isSet (pointcloud_deintegration_max_time_interval_ (config s)) = false ->
  isSet (pointcloud_deintegration_max_distance_travelled_ (config s)) = false ->
  servicePointcloudDeintegrationQueue s = s.
Proof.
  intros Hlen Htime Hdist. rewrite service_unfold.
  destruct (servicePointcloudDeintegrationQueue_body s) as [s'|] eqn:Hb;
    [|reflexivity].
  apply service_body_inv in Hb as (o & r & _ & _ & Hd & _).
  destruct Hd as [[Hset _]|[[Hset _]|[Hset _]]]; congruence.
Qed.

(** *** Pruning, publishing and clearing: what they leave alone *)

Lemma getAllUpdatedBlocks_empty : getAllUpdatedBlocks ∅ = [].
Proof.
  unfold getAllUpdatedBlocks. rewrite map_filter_empty, map_to_list_empty.
  reflexivity.
Qed.

Lemma pruneMap_empty_layer s :
  tsdf_layer s = ∅ ->
  tsdf_layer (pruneMap s) = ∅ /\ mesh_layer_ (pruneMap s) = mesh_layer_ s.
Proof.
  intros Hl. unfold pruneMap. rewrite Hl, getAllUpdatedBlocks_empty.
  split; reflexivity.
Qed.

Lemma publishMap_layers (reset_remote_map : bool) s :
  tsdf_layer (publishMap reset_remote_map s)
  = tsdf_layer (if map_needs_pruning_ s then pruneMap s else s)
  /\ mesh_layer_ (publishMap reset_remote_map s)
     = mesh_layer_ (if map_needs_pruning_ s then pruneMap s else s).
Proof.
  unfold publishMap.
  destruct (negb (publish_tsdf_map_ _)); [split; reflexivity|].
  destruct (0 <? _); split; reflexivity.
Qed.

Lemma publishMap_config (reset_remote_map : bool) s :
  config (publishMap reset_remote_map s) = config s.
Proof.
  unfold publishMap.
  destruct (map_needs_pruning_ s); simpl;
    destruct (negb (publish_tsdf_map_ _)); try reflexivity;
    destruct (0 <? _); reflexivity.
Qed.

Lemma publishMap_needs_pruning (reset_remote_map : bool) s :
  map_needs_pruning_ (publishMap reset_remote_map s) = false.
Proof.
  unfold publishMap.
  destruct (map_needs_pruning_ s) eqn:Hflag; simpl;
    destruct (negb (publish_tsdf_map_ _)); simpl; try reflexivity;
    try exact Hflag; destruct (0 <? _); simpl; try reflexivity; exact Hflag.
Qed.

(** [publishMap] touches neither the window nor the submap bookkeeping nor
    the ICP correction. *)
Lemma publishMap_frame (reset_remote_map : bool) s :
  pointcloud_deintegration_queue_ (publishMap reset_remote_map s)
  = pointcloud_deintegration_queue_ s
  /\ submap_counter_ (publishMap reset_remote_map s) = submap_counter_ s
  /\ last_published_submap_timestamp_ (publishMap reset_remote_map s)
     = last_published_submap_timestamp_ s
  /\ last_published_submap_position_ (publishMap reset_remote_map s)
     = last_published_submap_position_ s
  /\ icp_corrected_transform_ (publishMap reset_remote_map s)
     = icp_corrected_transform_ s.
Proof.
  unfold publishMap.
  destruct (map_needs_pruning_ s); simpl;
    destruct (negb (publish_tsdf_map_ _)); simpl; try (repeat split; fail);
    destruct (0 <? _); repeat split.
Qed.

Lemma clear_layers s :
  tsdf_layer (clear s) = ∅ /\ mesh_layer_ (clear s) = ∅
  /\ pointcloud_deintegration_queue_ (clear s) = [].
Proof.
  unfold clear. cbn [config set_pointcloud_deintegration_queue set_mesh_layer
                     set_tsdf_layer].
  destruct (publish_tsdf_map_ (config s)); [|repeat split].
  match goal with |- context [publishMap true ?x] => set (s3 := x) end.
  destruct (publishMap_layers true s3) as [Hl Hm].
  destruct (publishMap_frame true s3) as (Hq & _).
  rewrite Hl, Hm, Hq.
  destruct (map_needs_pruning_ s3); [|repeat split].
  destruct (pruneMap_empty_layer s3 eq_refl) as [-> ->]. repeat split.
Qed.

Lemma clear_frame s :
  config (clear s) = config s
  /\ submap_counter_ (clear s) = submap_counter_ s
  /\ last_published_submap_timestamp_ (clear s)
     = last_published_submap_timestamp_ s
  /\ last_published_submap_position_ (clear s)
     = last_published_submap_position_ s
  /\ icp_corrected_transform_ (clear s) = icp_corrected_transform_ s.
Proof.
  unfold clear. cbn [config set_pointcloud_deintegration_queue set_mesh_layer
                     set_tsdf_layer].
  destruct (publish_tsdf_map_ (config s)); [|repeat split].
  match goal with |- context [publishMap true ?x] => set (s3 := x) end.
  destruct (publishMap_frame true s3) as (_ & -> & -> & -> & ->).
  rewrite publishMap_config. repeat split.
Qed.

Lemma clear_needs_pruning s :
  map_needs_pruning_ (clear s)
  = if publish_tsdf_map_ (config s) then false else map_needs_pruning_ s.
Proof.
  unfold clear. cbn [config set_pointcloud_deintegration_queue set_mesh_layer
                     set_tsdf_layer].
  destruct (publish_tsdf_map_ (config s)); [|reflexivity].
  apply publishMap_needs_pruning.
Qed.

(** *** Ingest *)

(** What the gate does once its subtraction has returned. *)
Lemma insertPointcloud_enqueue_returns (pointcloud_msg_in : PointCloud2) s :
  Duration_representable
    (header_stamp pointcloud_msg_in - last_msg_time_ptcloud_ s) ->
  insertPointcloud_enqueue pointcloud_msg_in s
  = Some (if min_time_between_msgs_ (config s)
             <? header_stamp pointcloud_msg_in - last_msg_time_ptcloud_ s
          then
            set_pointcloud_queue (pointcloud_queue_ s ++ [pointcloud_msg_in])
              (set_last_msg_time_ptcloud (header_stamp pointcloud_msg_in) s)
          else s).
Proof.
  intros Hfits. unfold insertPointcloud_enqueue, Time_minus, Time_sub.
  rewrite (Duration_fromNSec_representable _ Hfits). unfold Duration_gtb.
  destruct (_ <? _); reflexivity.
Qed.

Lemma insertPointcloud_enqueue_throws (pointcloud_msg_in : PointCloud2) s :
  ~ Duration_representable
      (header_stamp pointcloud_msg_in - last_msg_time_ptcloud_ s) ->
  insertPointcloud_enqueue pointcloud_msg_in s = None.
Proof.
  intros Hnot. unfold insertPointcloud_enqueue, Time_minus, Time_sub.
  rewrite (Duration_fromNSec_not_representable _ Hnot). reflexivity.
Qed.

Lemma insertPointcloud_enqueue_inv (pointcloud_msg_in : PointCloud2) s s1 :
  insertPointcloud_enqueue pointcloud_msg_in s = Some s1 ->
  Duration_representable
    (header_stamp pointcloud_msg_in - last_msg_time_ptcloud_ s)
  /\ s1 = (if min_time_between_msgs_ (config s)
              <? header_stamp pointcloud_msg_in - last_msg_time_ptcloud_ s
           then
             set_pointcloud_queue
               (pointcloud_queue_ s ++ [pointcloud_msg_in])
               (set_last_msg_time_ptcloud (header_stamp pointcloud_msg_in) s)
           else s).
Proof.
  intros Hgate.
  destruct (Duration_representable_dec
              (header_stamp pointcloud_msg_in - last_msg_time_ptcloud_ s))
    as [Hfits|Hnot].
  - rewrite (insertPointcloud_enqueue_returns _ _ Hfits) in Hgate.
    injection Hgate as <-. split; [exact Hfits|reflexivity].
  - rewrite (insertPointcloud_enqueue_throws _ _ Hnot) in Hgate.
    discriminate.
Qed.

(** C4 (as amended): the rate gate subtracts the last enqueued stamp from
    the message's stamp. When the seconds of the difference do not fit a
    [Duration] the subtraction throws: [insertPointcloud] does not return and
    nothing is enqueued. Otherwise the gate enqueues the message, and records
    its stamp as the last enqueued one, exactly when the difference strictly
    exceeds [min_time_between_msgs_]; if it does not, the server is left as
    it was, the message in no queue. With [min_time_between_msgs_] at zero
    such a message is enqueued exactly when its stamp is strictly later than
    the last enqueued one. *)
Theorem rate_gate_admits_iff_strictly_later
    (pointcloud_msg_in : PointCloud2) s :
  let elapsed :=
    header_stamp pointcloud_msg_in - last_msg_time_ptcloud_ s in
  (~ Duration_representable elapsed ->
   insertPointcloud_enqueue pointcloud_msg_in s = None
   /\ insertPointcloud pointcloud_msg_in s = None)
  /\ (Duration_representable elapsed ->
      exists s1,
        insertPointcloud_enqueue pointcloud_msg_in s = Some s1
        /\ (min_time_between_msgs_ (config s) < elapsed ->
            s1 = set_pointcloud_queue
                   (pointcloud_queue_ s ++ [pointcloud_msg_in])
                   (set_last_msg_time_ptcloud
                      (header_stamp pointcloud_msg_in) s))
        /\ (~ min_time_between_msgs_ (config s) < elapsed -> s1 = s)
        /\ (pointcloud_queue_ s1 = pointcloud_queue_ s ++ [pointcloud_msg_in]
            <-> min_time_between_msgs_ (config s) < elapsed)
        /\ (min_time_between_msgs_ (config s) = 0 ->
            (pointcloud_queue_ s1
             = pointcloud_queue_ s ++ [pointcloud_msg_in]
             <-> last_msg_time_ptcloud_ s < header_stamp pointcloud_msg_in))).
Proof.
  intros elapsed. split.
  { intros Hnot. pose proof (insertPointcloud_enqueue_throws _ _ Hnot) as Hgate.
    split; [exact Hgate|]. unfold insertPointcloud. rewrite Hgate.
    reflexivity. }
  intros Hfits. eexists.
  split; [exact (insertPointcloud_enqueue_returns _ _ Hfits)|].
  fold elapsed.
  destruct (Z.ltb_spec (min_time_between_msgs_ (config s)) elapsed) as [Hlt|Hge].
  - split; [reflexivity|]. split; [intros Hn; contradiction|].
    split; [simpl; tauto|].
    intros Hmin. simpl. split; [intros _|reflexivity].
    unfold elapsed in Hlt. lia.
  - split; [intros Hlt; lia|]. split; [reflexivity|].
    assert (Hne : pointcloud_queue_ s
                  <> pointcloud_queue_ s ++ [pointcloud_msg_in]).
    { intros Heq. apply (f_equal length) in Heq.
      rewrite length_app in Heq. simpl in Heq. lia. }
    split; [split; [intros Heq; contradiction|intros Hlt; lia]|].
    intros Hmin. split; [intros Heq; contradiction|].
    unfold elapsed in Hge. lia.
Qed.

(** *** Submaps *)

(** C5: with submapping enabled, [shouldCreateNewSubmap] entered with the
    reference stamp still zero or the reference position still holding a NaN
    answers false and sets both references to the observation at hand; a
    freshly constructed server is in that situation. *)
Theorem first_sample_never_finalizes (current_timestamp : Time)
    (current_T_G_C : Transformation) s :
  submappingEnabled (config s) = true ->
  Time_isZero (last_published_submap_timestamp_ s) = true
  \/ Point_isNaN_any (last_published_submap_position_ s) = true ->
  shouldCreateNewSubmap current_timestamp current_T_G_C s
  = (false,
     set_last_published_submap_position (getPosition current_T_G_C)
       (set_last_published_submap_timestamp current_timestamp s))
  /\ last_published_submap_timestamp_
       (shouldCreateNewSubmap current_timestamp current_T_G_C s).2
     = current_timestamp
  /\ last_published_submap_position_
       (shouldCreateNewSubmap current_timestamp current_T_G_C s).2
     = getPosition current_T_G_C
  /\ forall (p : RosParams) (tsdf_voxels_per_side : Z),
       Time_isZero
         (last_published_submap_timestamp_
            (TsdfServer_new p tsdf_voxels_per_side)) = true
       /\ Point_isNaN_any
            (last_published_submap_position_
               (TsdfServer_new p tsdf_voxels_per_side)) = true.
Proof.
  intros Henabled Hfirst.
  assert (Heq : shouldCreateNewSubmap current_timestamp current_T_G_C s
    = (false,
       set_last_published_submap_position (getPosition current_T_G_C)
         (set_last_published_submap_timestamp current_timestamp s))).
  { unfold shouldCreateNewSubmap. rewrite Henabled. simpl negb. cbv iota.
    replace (Time_isZero (last_published_submap_timestamp_ s)
             || Point_isNaN_any (last_published_submap_position_ s))
      with true; [reflexivity|].
    symmetry. apply orb_true_iff. exact Hfirst. }
  rewrite Heq. split; [reflexivity|]. split; [reflexivity|].
  split; [reflexivity|].
  intros p n. unfold TsdfServer_new.
  destruct (pointcloudDeintegrationEnabled _ && _); split; reflexivity.
Qed.

(** C6: [createNewSubmap] adds one to the submap counter and sets the
    reference stamp and position to the observation at hand. Without
    pointcloud deintegration it first goes through [clear], which empties
    map, mesh and window; with it, map, mesh, window, pruning flag and trace
    are left as they were. *)
Theorem createNewSubmap_bookkeeping (current_timestamp : Time)
    (current_T_G_C : Transformation) s :
  let s' := createNewSubmap current_timestamp current_T_G_C s in
  submap_counter_ s' = submap_counter_ s + 1
  /\ last_published_submap_timestamp_ s' = current_timestamp
  /\ last_published_submap_position_ s' = getPosition current_T_G_C
  /\ (pointcloudDeintegrationEnabled (config s) = false ->
      s' = set_last_published_submap_position (getPosition current_T_G_C)
             (set_last_published_submap_timestamp current_timestamp
                (set_submap_counter (submap_counter_ s + 1) (clear s)))
      /\ tsdf_layer s' = ∅ /\ mesh_layer_ s' = ∅
      /\ pointcloud_deintegration_queue_ s' = [])
  /\ (pointcloudDeintegrationEnabled (config s) = true ->
      s' = set_last_published_submap_position (getPosition current_T_G_C)
             (set_last_published_submap_timestamp current_timestamp
                (set_submap_counter (submap_counter_ s + 1) s))
      /\ tsdf_layer s' = tsdf_layer s /\ mesh_layer_ s' = mesh_layer_ s
      /\ pointcloud_deintegration_queue_ s'
         = pointcloud_deintegration_queue_ s
      /\ map_needs_pruning_ s' = map_needs_pruning_ s
      /\ trace s' = trace s).
Proof.
  intros s'. subst s'. unfold createNewSubmap.
  destruct (clear_frame s) as (_ & Hcounter & _).
  destruct (clear_layers s) as (Hl & Hm & Hq).
  destruct (pointcloudDeintegrationEnabled (config s)); simpl.
  - split; [reflexivity|]. split; [reflexivity|]. split; [reflexivity|].
    split; [intros [=]|]. intros _. repeat split.
  - split; [exact (f_equal (fun n => n + 1) Hcounter)|].
    split; [reflexivity|]. split; [reflexivity|].
    split; [|intros [=]]. intros _.
    rewrite Hcounter. repeat split; assumption.
Qed.

(** *** Construction *)

(** C7: when the parameters set some deintegration bound and the integrator
    at hand is not the projective one, the constructor logs an error,
    returns a server whose three deintegration bounds are unset and whose
    configuration is otherwise what the parameters gave, and goes on to
    advertise its services. *)
Theorem constructor_disables_unsupported_deintegration (p : RosParams)
    (tsdf_voxels_per_side : Z) :
  pointcloudDeintegrationEnabled
    (getServerConfigFromRosParam p tsdf_voxels_per_side) = true ->
  getType <> kProjective ->
  let s : TsdfServer Transformation := TsdfServer_new p tsdf_voxels_per_side in
  isSet (pointcloud_deintegration_max_queue_length_ (config s)) = false
  /\ isSet (pointcloud_deintegration_max_time_interval_ (config s)) = false
  /\ isSet (pointcloud_deintegration_max_distance_travelled_ (config s)) = false
  /\ pointcloudDeintegrationEnabled (config s) = false
  /\ config s
     = unset_pointcloud_deintegration
         (getServerConfigFromRosParam p tsdf_voxels_per_side)
  /\ trace s
     = rev (map EvAdvertiseService advertised_services)
       ++ [EvRosError deintegration_unsupported_error]
  /\ pointcloud_deintegration_queue_ s = []
  /\ map_needs_pruning_ s = false.
Proof.
  intros Henabled Htype s. subst s. unfold TsdfServer_new.
  cbn [config]. rewrite Henabled.
  replace (TsdfIntegratorType_eqb getType kProjective) with false
    by (destruct getType; try reflexivity; contradiction).
  repeat split.
Qed.

(** *** Pruning *)

Lemma elem_of_getAllUpdatedBlocks (l : Layer) (i : BlockIndex) :
  i ∈ getAllUpdatedBlocks l
  <-> exists b, l !! i = Some b /\ updated_map b = true.
Proof.
  unfold getAllUpdatedBlocks. rewrite list_elem_of_fmap. split.
  - intros [[k b] [-> Hin]]. apply elem_of_map_to_list in Hin.
    apply map_lookup_filter_Some in Hin as [Hl Hu]. exists b. split; assumption.
  - intros (b & Hl & Hu). exists (i, b). split; [reflexivity|].
    apply elem_of_map_to_list, map_lookup_filter_Some. split; assumption.
Qed.

Lemma pruneMap_loop_lookup (n : nat) (ks : list BlockIndex) :
  forall (l : Layer) (m : MeshLayer) (i : BlockIndex),
    (foldl (pruneMap_block n) (l, m) ks).1 !! i
    = (if pruned_by n l ks i then None else l !! i)
    /\ (foldl (pruneMap_block n) (l, m) ks).2 !! i
       = (if pruned_by n l ks i then Mesh_reset <$> m !! i else m !! i).
Proof.
  induction ks as [|k ks IH]; intros l m i.
  - unfold pruned_by. simpl.
    destruct (l !! i); split; reflexivity.
  - simpl foldl. unfold pruneMap_block at 2 4. simpl fst. simpl snd.
    destruct (l !! k) as [bk|] eqn:Hk.
    + destruct (block_contains_observed_voxels n bk) eqn:Hobs.
      * destruct (IH l m i) as [-> ->]. unfold pruned_by.
        destruct (l !! i) as [b|] eqn:Hi; [|split; reflexivity].
        destruct (decide (i = k)) as [->|Hne].
        -- assert (b = bk) as -> by congruence. rewrite Hobs.
           rewrite !andb_false_r. split; reflexivity.
        -- rewrite (bool_decide_ext (i ∈ k :: ks) (i ∈ ks)); [split; reflexivity|].
           rewrite elem_of_cons. tauto.
      * destruct (IH (removeBlock k l)
                     (match m !! k with
                      | Some mesh =>
                          <[k := Mesh_set_updated true (Mesh_clear mesh)]> m
                      | None => m
                      end) i) as [-> ->].
        unfold pruned_by, removeBlock.
        destruct (decide (i = k)) as [->|Hne].
        -- rewrite lookup_delete_eq, Hk, Hobs.
           rewrite bool_decide_eq_true_2 by apply list_elem_of_here.
           simpl. split; [reflexivity|].
           destruct (m !! k) as [mesh|] eqn:Hm;
             [rewrite lookup_insert_eq|rewrite Hm]; reflexivity.
        -- rewrite lookup_delete_ne by congruence.
           assert (Hmesh :
             (match m !! k with
              | Some mesh =>
                  <[k := Mesh_set_updated true (Mesh_clear mesh)]> m
              | None => m
              end) !! i = m !! i).
           { destruct (m !! k); [rewrite lookup_insert_ne by congruence|];
               reflexivity. }
           rewrite Hmesh.
           destruct (l !! i) as [b|]; [|split; reflexivity].
           rewrite (bool_decide_ext (i ∈ k :: ks) (i ∈ ks)); [split; reflexivity|].
           rewrite elem_of_cons. tauto.
    + destruct (IH l m i) as [-> ->]. unfold pruned_by.
      destruct (l !! i) as [b|] eqn:Hi; [|split; reflexivity].
      assert (i <> k) by congruence.
      rewrite (bool_decide_ext (i ∈ k :: ks) (i ∈ ks)); [split; reflexivity|].
      rewrite elem_of_cons. tauto.
Qed.

Lemma block_contains_observed_voxels_false (n : nat) (b : Block) :
  length (voxels b) = n ->
  block_contains_observed_voxels n b = false
  <-> forall voxel, voxel ∈ voxels b ->
        F32.ltb kFloatEpsilon (weight voxel) = false.
Proof.
  intros Hlen. unfold block_contains_observed_voxels.
  rewrite take_ge by lia. rewrite <- not_true_iff_false, existsb_exists.
  split.
  - intros Hno voxel Hin. apply not_true_iff_false. intros Hlt.
    apply Hno. exists voxel. split; [apply list_elem_of_In; exact Hin|exact Hlt].
  - intros Hall (voxel & Hin & Hlt). apply list_elem_of_In in Hin.
    rewrite (Hall voxel Hin) in Hlt. discriminate.
Qed.

Lemma pruned_by_spec s (i : BlockIndex) :
  (forall j b, tsdf_layer s !! j = Some b -> updated_map b = true ->
               length (voxels b) = num_voxels_per_block_ (config s)) ->
  pruned_by (num_voxels_per_block_ (config s)) (tsdf_layer s)
            (getAllUpdatedBlocks (tsdf_layer s)) i = true
  <-> fully_cancelled s i.
Proof.
  intros Hwf. unfold pruned_by, fully_cancelled. split.
  - destruct (tsdf_layer s !! i) as [b|] eqn:Hi; [|discriminate].
    rewrite andb_true_iff, bool_decide_eq_true, negb_true_iff.
    intros [Hin Hobs]. apply elem_of_getAllUpdatedBlocks in Hin as (b' & Hb' & Hu).
    assert (b' = b) as -> by congruence.
    exists b. split; [reflexivity|]. split; [exact Hu|].
    apply (block_contains_observed_voxels_false _ b (Hwf i b Hi Hu)). exact Hobs.
  - intros (b & Hi & Hu & Hall). rewrite Hi.
    rewrite andb_true_iff, bool_decide_eq_true, negb_true_iff. split.
    + apply elem_of_getAllUpdatedBlocks. exists b. split; assumption.
    + apply (block_contains_observed_voxels_false _ b (Hwf i b Hi Hu)). exact Hall.
Qed.

Lemma service_loop_keeps_flag (fuel : nat) s :
  map_needs_pruning_ s = true ->
  map_needs_pruning_
    (while_loop fuel servicePointcloudDeintegrationQueue_body s) = true.
Proof.
  revert s. induction fuel as [|fuel IH]; intros s Hflag; [exact Hflag|].
  rewrite while_loop_unroll.
  destruct (servicePointcloudDeintegrationQueue_body s) as [s'|] eqn:Hb;
    [|exact Hflag].
  apply IH. apply service_body_inv in Hb as (o & r & _ & _ & _ & ->).
  reflexivity.
Qed.

(** C8: on a layer whose touched blocks hold [num_voxels_per_block_] voxels
    each, [pruneMap] removes exactly the touched blocks in which no voxel's
    weight exceeds [kFloatEpsilon], empties the mesh of each removed block
    and marks it as updated, and leaves every other block and mesh alone. It
    clears the pruning flag. A pass of the deintegration loop that
    deintegrates sets the flag, which is then still set when the call
    returns; and a member function entered with the flag set that returns
    with it cleared has gone through [pruneMap]. *)
Theorem pruneMap_removes_fully_cancelled_blocks s :
  (forall j b, tsdf_layer s !! j = Some b -> updated_map b = true ->
               length (voxels b) = num_voxels_per_block_ (config s)) ->
  (forall i, fully_cancelled s i ->
     tsdf_layer (pruneMap s) !! i = None
     /\ mesh_layer_ (pruneMap s) !! i = Mesh_reset <$> mesh_layer_ s !! i)
  /\ (forall i, ~ fully_cancelled s i ->
        tsdf_layer (pruneMap s) !! i = tsdf_layer s !! i
        /\ mesh_layer_ (pruneMap s) !! i = mesh_layer_ s !! i)
  /\ map_needs_pruning_ (pruneMap s) = false
  /\ (forall s', servicePointcloudDeintegrationQueue_body s = Some s' ->
        map_needs_pruning_ s' = true
        /\ map_needs_pruning_ (servicePointcloudDeintegrationQueue s) = true)
  /\ (forall (op : Operation Transformation) s',
        run op s = Some s' ->
        map_needs_pruning_ s = true -> map_needs_pruning_ s' = false ->
        calls_pruneMap op s = true).
Proof.
  intros Hwf.
  split.
  { intros i Hc. apply (pruned_by_spec s i Hwf) in Hc.
    destruct (pruneMap_loop_lookup (num_voxels_per_block_ (config s))
                (getAllUpdatedBlocks (tsdf_layer s)) (tsdf_layer s)
                (mesh_layer_ s) i) as [Hl Hm].
    unfold pruneMap. simpl. rewrite Hl, Hm, Hc. split; reflexivity. }
  split.
  { intros i Hc.
    assert (Hp : pruned_by (num_voxels_per_block_ (config s)) (tsdf_layer s)
                   (getAllUpdatedBlocks (tsdf_layer s)) i = false).
    { apply not_true_iff_false. intros Hp. apply Hc.
      apply (pruned_by_spec s i Hwf). exact Hp. }
    destruct (pruneMap_loop_lookup (num_voxels_per_block_ (config s))
                (getAllUpdatedBlocks (tsdf_layer s)) (tsdf_layer s)
                (mesh_layer_ s) i) as [Hl Hm].
    unfold pruneMap. simpl. rewrite Hl, Hm, Hp. split; reflexivity. }
  split; [reflexivity|].
  split.
  { intros s' Hb. rewrite service_unfold, Hb.
    apply service_body_inv in Hb as (o & r & _ & _ & _ & ->).
    split; [reflexivity|].
    apply service_loop_keeps_flag. reflexivity. }
  intros op s' Hrun Hflag Hclear.
  destruct op as [stamp T points cols fs| | |reset| |stamp T|stamp T|];
    simpl in Hrun; simpl; try exact Hflag; try reflexivity.
  - unfold integratePointcloud in Hrun.
    destruct (negb _); [discriminate|].
    destruct (_ || _); injection Hrun as <-; simpl in Hclear; congruence.
  - injection Hrun as <-. unfold servicePointcloudDeintegrationQueue in Hclear.
    rewrite (service_loop_keeps_flag _ s Hflag) in Hclear. discriminate.
  - injection Hrun as <-. unfold shouldCreateNewSubmap in Hclear.
    destruct (negb _); [|destruct (_ || _)]; simpl in Hclear; congruence.
  - injection Hrun as <-. unfold createNewSubmap in Hclear.
    destruct (pointcloudDeintegrationEnabled (config s)); simpl in Hclear;
      [congruence|].
    rewrite clear_needs_pruning in Hclear. rewrite Hflag.
    destruct (publish_tsdf_map_ (config s)); [reflexivity|congruence].
  - injection Hrun as <-. rewrite clear_needs_pruning in Hclear. rewrite Hflag.
    destruct (publish_tsdf_map_ (config s)); [reflexivity|congruence].
Qed.

(** *** Pose refinement *)

Lemma service_loop_keeps_icp (fuel : nat) s :
  icp_corrected_transform_
    (while_loop fuel servicePointcloudDeintegrationQueue_body s)
  = icp_corrected_transform_ s.
Proof.
  revert s. induction fuel as [|fuel IH]; intros s; [reflexivity|].
  rewrite while_loop_unroll.
  destruct (servicePointcloudDeintegrationQueue_body s) as [s'|] eqn:Hb;
    [|reflexivity].
  rewrite IH. apply service_body_inv in Hb as (o & r & _ & _ & _ & ->).
  reflexivity.
Qed.

Lemma integratePointcloud_keeps_icp (stamp : Time) (T : Transformation)
    (points : Pointcloud) (cols : Colors) (is_freespace : bool) s s' :
  integratePointcloud stamp T points cols is_freespace s = Some s' ->
  icp_corrected_transform_ s' = icp_corrected_transform_ s.
Proof.
  unfold integratePointcloud. destruct (negb _); [discriminate|].
  destruct (_ || _); intros [= <-]; reflexivity.
Qed.

Lemma shouldCreateNewSubmap_keeps_icp (stamp : Time) (T : Transformation) s :
  icp_corrected_transform_ (shouldCreateNewSubmap stamp T s).2
  = icp_corrected_transform_ s.
Proof.
  unfold shouldCreateNewSubmap.
  destruct (negb _); [|destruct (_ || _)]; reflexivity.
Qed.

Lemma createNewSubmap_keeps_icp (stamp : Time) (T : Transformation) s :
  icp_corrected_transform_ (createNewSubmap stamp T s)
  = icp_corrected_transform_ s.
Proof.
  unfold createNewSubmap. destruct (negb _); simpl; [|reflexivity].
  apply clear_frame.
Qed.

Lemma publishSubmap_keeps_icp s :
  icp_corrected_transform_ (publishSubmap s) = icp_corrected_transform_ s.
Proof. unfold publishSubmap. destruct (0 <? _); reflexivity. Qed.

Lemma process_keeps_refined_correction (pointcloud_msg : PointCloud2)
    (T : Transformation) (is_freespace : bool) s s' :
  processPointCloudMessageAndInsert pointcloud_msg T is_freespace s = Some s' ->
  icp_corrected_transform_ s'
  = icp_corrected_transform_
      (refinePose (converted_points pointcloud_msg) T s).1.
Proof.
  unfold processPointCloudMessageAndInsert.
  destruct (refinePose (converted_points pointcloud_msg) T s) as [s1 Tr].
  destruct (integratePointcloud _ _ _ _ _ s1) as [s2|] eqn:Hint; [|discriminate].
  apply integratePointcloud_keeps_icp in Hint.
  match goal with
  | |- context [shouldCreateNewSubmap ?a ?b ?c] =>
      pose proof (shouldCreateNewSubmap_keeps_icp a b c) as Hsub;
      destruct (shouldCreateNewSubmap a b c) as [create s6]
  end.
  intros [= <-]. simpl in Hsub.
  assert (Hs6 : icp_corrected_transform_ s6 = icp_corrected_transform_ s1).
  { rewrite Hsub. simpl. rewrite <- Hint.
    destruct (pointcloudDeintegrationEnabled (config s2)); [|reflexivity].
    apply service_loop_keeps_icp. }
  simpl. destruct create; [|exact Hs6].
  rewrite createNewSubmap_keeps_icp, publishSubmap_keeps_icp. exact Hs6.
Qed.

(** With ICP enabled and accumulation disabled: the pose handed to ICP, the
    correction left behind in either mode of ICP, and that none of it depends
    on the correction held before. *)
Lemma refinePose_without_accumulation {laws : PoseLaws Transformation}
    (points_C : Pointcloud) (T : Transformation) s :
  enable_icp_ (config s) = true ->
  accumulate_icp_corrections_ (config s) = false ->
  let refined := (runICP (tsdf_layer s) points_C T).2 in
  let recomputed := T_compose refined (T_inverse T) in
  let s' := (refinePose points_C T s).1 in
  (refinePose points_C T s).2 = refined
  /\ trace s'
     = EvSendIcpTransforms (icp_corrected_transform_ s') T
       :: EvRunICP T :: trace s
  /\ (refiningRollPitch = true -> icp_corrected_transform_ s' = recomputed)
  /\ (refiningRollPitch = false ->
      icp_corrected_transform_ s'
      = T_exp (<[4%nat := S754_zero false]>
                 (<[3%nat := S754_zero false]> (T_log recomputed))))
  /\ (forall previous : Transformation,
        refinePose points_C T (set_icp_corrected_transform previous s)
        = ((refinePose points_C T s).1, refined))
  /\ (forall (pointcloud_msg : PointCloud2) (is_freespace : bool) s_end,
        converted_points pointcloud_msg = points_C ->
        processPointCloudMessageAndInsert pointcloud_msg T is_freespace s
        = Some s_end ->
        icp_corrected_transform_ s_end = icp_corrected_transform_ s').
Proof.
  intros Hicp Hacc refined recomputed s'.
  assert (Hrefine : forall previous : Transformation,
    refinePose points_C T (set_icp_corrected_transform previous s)
    = (let s3 :=
         set_icp_corrected_transform recomputed
           (emit (EvRunICP T) (set_icp_corrected_transform T_identity s)) in
       let s4 :=
         if negb refiningRollPitch then
           set_icp_corrected_transform
             (T_exp (<[4%nat := S754_zero false]>
                       (<[3%nat := S754_zero false]> (T_log recomputed)))) s3
         else s3 in
       (emit (EvSendIcpTransforms (icp_corrected_transform_ s4) T) s4,
        refined))).
  { intros previous. unfold refinePose. cbn [config set_icp_corrected_transform].
    rewrite Hicp, Hacc. cbn [negb].
    cbn [icp_corrected_transform_ tsdf_layer set_icp_corrected_transform emit
         set_trace].
    rewrite T_compose_identity_l. fold refined. fold recomputed.
    destruct refiningRollPitch; reflexivity. }
  assert (Hself : set_icp_corrected_transform (icp_corrected_transform_ s) s = s)
    by (destruct s; reflexivity).
  pose proof (Hrefine (icp_corrected_transform_ s)) as Hs.
  rewrite Hself in Hs.
  split; [rewrite Hs; destruct refiningRollPitch; reflexivity|].
  split; [subst s'; rewrite Hs; destruct refiningRollPitch; reflexivity|].
  split; [intros Hrp; subst s'; rewrite Hs, Hrp; reflexivity|].
  split; [intros Hrp; subst s'; rewrite Hs, Hrp; reflexivity|].
  split.
  { intros previous. rewrite (Hrefine previous), Hs. reflexivity. }
  intros pointcloud_msg is_freespace s_end Hpoints Hprocess.
  apply process_keeps_refined_correction in Hprocess.
  rewrite Hpoints in Hprocess. exact Hprocess.
Qed.

(** C9: with ICP enabled and accumulation disabled, whatever correction the
    server holds, the correction is the identity when ICP is called, so the
    pose handed to ICP is the raw prior pose; the correction the call leaves
    behind is refinedPose o priorPose^-1, and it is the correction the
    server holds once the message is processed. Transformations are taken as
    a group, and ICP as the server's comment has it: when it does not
    refine roll and pitch it has removed them from its update already. *)
Theorem refinement_does_not_accumulate {laws : PoseLaws Transformation}
    (points_C : Pointcloud) (T : Transformation) s :
  enable_icp_ (config s) = true ->
  accumulate_icp_corrections_ (config s) = false ->
  icp_removes_roll_pitch ->
  let refined := (runICP (tsdf_layer s) points_C T).2 in
  let recomputed := T_compose refined (T_inverse T) in
  let s' := (refinePose points_C T s).1 in
  (refinePose points_C T s).2 = refined
  /\ trace s' = EvSendIcpTransforms recomputed T :: EvRunICP T :: trace s
  /\ icp_corrected_transform_ s' = recomputed
  /\ (forall previous : Transformation,
        refinePose points_C T (set_icp_corrected_transform previous s)
        = (s', refined))
  /\ (forall (pointcloud_msg : PointCloud2) (is_freespace : bool) s_end,
        converted_points pointcloud_msg = points_C ->
        processPointCloudMessageAndInsert pointcloud_msg T is_freespace s
        = Some s_end ->
        icp_corrected_transform_ s_end = recomputed).
Proof.
  intros Hicp Hacc Hcontract refined recomputed s'.
  destruct (refinePose_without_accumulation points_C T s Hicp Hacc)
    as (Href & Htrace & Hrefining & Hfixed & Hprevious & Hprocess).
  fold refined in Href, Hrefining, Hfixed, Hprevious.
  fold recomputed in Hrefining, Hfixed. fold s' in Htrace, Hrefining, Hfixed,
    Hprevious, Hprocess.
  assert (Hcorrection : icp_corrected_transform_ s' = recomputed).
  { destruct refiningRollPitch eqn:Hrp; [exact (Hrefining eq_refl)|].
    rewrite (Hfixed eq_refl).
    specialize (Hcontract Hrp (tsdf_layer s) points_C
                  (T_compose T_identity T)).
    rewrite T_compose_identity_l in Hcontract. exact Hcontract. }
  split; [exact Href|].
  split; [rewrite Htrace, Hcorrection; reflexivity|].
  split; [exact Hcorrection|].
  split.
  { intros previous. rewrite (Hprevious previous). reflexivity. }
  intros pointcloud_msg is_freespace s_end Hpoints Hrun.
  rewrite (Hprocess pointcloud_msg is_freespace s_end Hpoints Hrun).
  exact Hcorrection.
Qed.

(** *** Clearing *)

(** C10 (as amended): [clear], and with it the clear-map command, empties
    the map, the mesh layer and the window and leaves the submap counter and
    both submap references as they were. The pruning flag is left as it was
    when the map is not published; when it is, the flag is cleared. *)
Theorem clear_keeps_submap_bookkeeping s :
  tsdf_layer (clear s) = ∅
  /\ mesh_layer_ (clear s) = ∅
  /\ pointcloud_deintegration_queue_ (clear s) = []
  /\ submap_counter_ (clear s) = submap_counter_ s
  /\ last_published_submap_timestamp_ (clear s)
     = last_published_submap_timestamp_ s
  /\ last_published_submap_position_ (clear s)
     = last_published_submap_position_ s
  /\ map_needs_pruning_ (clear s)
     = (if publish_tsdf_map_ (config s) then false else map_needs_pruning_ s)
  /\ clearMapCallback s = (true, clear s).
Proof.
  destruct (clear_layers s) as (Hl & Hm & Hq).
  destruct (clear_frame s) as (_ & Hc & Ht & Hp & _).
  repeat split; try assumption. apply clear_needs_pruning.
Qed.

End Properties.

(** * Further properties of the server *)

Section More_properties.
Context {Transformation : Type} {pose_ops : Pose Transformation}
        {collab : Collaborators Transformation}.
Implicit Type s : TsdfServer Transformation.

(** ** The deintegration queue, as a whole call *)

Lemma service_loop_evicts_prefix (fuel : nat) s :
  exists evicted,
    pointcloud_deintegration_queue_ s
    = evicted
      ++ pointcloud_deintegration_queue_
           (while_loop fuel servicePointcloudDeintegrationQueue_body s)
    /\ trace (while_loop fuel servicePointcloudDeintegrationQueue_body s)
       = rev (map deintegration_of evicted) ++ trace s
    /\ tsdf_layer (while_loop fuel servicePointcloudDeintegrationQueue_body s)
       = foldl deintegrated (tsdf_layer s) evicted
    /\ mesh_layer_ (while_loop fuel servicePointcloudDeintegrationQueue_body s)
       = mesh_layer_ s
    /\ (evicted = [] ->
        while_loop fuel servicePointcloudDeintegrationQueue_body s = s)
    /\ (evicted <> [] ->
        map_needs_pruning_
          (while_loop fuel servicePointcloudDeintegrationQueue_body s) = true).
Proof.
  revert s. induction fuel as [|fuel IH]; intros s.
  - exists []. simpl. repeat split; try reflexivity. intros Hne; contradiction.
  - rewrite while_loop_unroll.
    destruct (servicePointcloudDeintegrationQueue_body s) as [s'|] eqn:Hb.
    + apply service_body_inv in Hb as (o & r & Hq & _ & _ & ->).
      destruct (IH (deintegrate_oldest o s))
        as (evicted & Hqueue & Htrace & Hlayer & Hmesh & _ & _).
      exists (o :: evicted).
      rewrite deintegrate_oldest_queue, Hq in Hqueue. simpl in Hqueue.
      split; [rewrite Hq, Hqueue; reflexivity|].
      split; [rewrite Htrace; simpl; rewrite <- app_assoc; reflexivity|].
      split; [rewrite Hlayer; reflexivity|].
      split; [rewrite Hmesh; reflexivity|].
      split; [intros [=]|]. intros _.
      apply service_loop_keeps_flag. reflexivity.
    + exists []. simpl. repeat split; try reflexivity.
      intros Hne; contradiction.
Qed.

(** X1: a call of [servicePointcloudDeintegrationQueue] evicts from the
    front only: the window it was entered with is the evicted packets
    followed by the window it leaves. Each evicted packet is deintegrated
    exactly once, oldest first, and nothing else is sent to the integrator;
    the mesh is not touched. *)
Theorem service_evicts_oldest_first s :
  exists evicted,
    pointcloud_deintegration_queue_ s
    = evicted
      ++ pointcloud_deintegration_queue_
           (servicePointcloudDeintegrationQueue s)
    /\ trace (servicePointcloudDeintegrationQueue s)
       = rev (map deintegration_of evicted) ++ trace s
    /\ tsdf_layer (servicePointcloudDeintegrationQueue s)
       = foldl deintegrated (tsdf_layer s) evicted
    /\ mesh_layer_ (servicePointcloudDeintegrationQueue s) = mesh_layer_ s
    /\ (evicted = [] -> servicePointcloudDeintegrationQueue s = s)
    /\ (evicted <> [] ->
        map_needs_pruning_ (servicePointcloudDeintegrationQueue s) = true).
Proof. apply service_loop_evicts_prefix. Qed.

Lemma service_queue_suffix s :
  pointcloud_deintegration_queue_ (servicePointcloudDeintegrationQueue s)
  `suffix_of` pointcloud_deintegration_queue_ s.
Proof.
  destruct (service_loop_evicts_prefix
              (length (pointcloud_deintegration_queue_ s)) s)
    as (evicted & Hq & _).
  exists evicted. exact Hq.
Qed.

Lemma service_bounded_by_queue_length s (max_queue_length : Z) :
  isSet (pointcloud_deintegration_max_queue_length_ (config s)) = true ->
  threshold_value (pointcloud_deintegration_max_queue_length_ (config s))
  = max_queue_length ->
  Z.of_nat (length (pointcloud_deintegration_queue_ s)) < 2 ^ 31 ->
  Z.of_nat (length (pointcloud_deintegration_queue_
                      (servicePointcloudDeintegrationQueue s)))
  <= Z.max 1 max_queue_length.
Proof.
  intros Hset Hval Hsize.
  pose proof (service_exits s) as Hexit.
  pose proof (service_config s) as Hcfg.
  pose proof (suffix_length _ _ (service_queue_suffix s)) as Hlen.
  set (s' := servicePointcloudDeintegrationQueue s) in *.
  destruct (pointcloud_deintegration_queue_ s') as [|o r] eqn:Hq;
    [simpl; lia|].
  destruct r as [|o2 r]; [simpl; lia|].
  destruct (Z_lt_le_dec max_queue_length
              (Z.of_nat (length (o :: o2 :: r)))) as [Hlt|Hle]; [|lia].
  exfalso.
  rewrite (service_body_due s' o (o2 :: r) Hq) in Hexit;
    [discriminate|discriminate|].
  left. rewrite Hcfg. split; [exact Hset|].
  rewrite Hval, int_of_size_small by lia. exact Hlt.
Qed.


(** ** One message: what the steps leave alone *)

Lemma refinePose_frame (points_C : Pointcloud) (T : Transformation) s :
  let s' := (refinePose points_C T s).1 in
  config s' = config s
  /\ pointcloud_queue_ s' = pointcloud_queue_ s
  /\ last_msg_time_ptcloud_ s' = last_msg_time_ptcloud_ s
  /\ pointcloud_deintegration_queue_ s' = pointcloud_deintegration_queue_ s
  /\ tsdf_layer s' = tsdf_layer s
  /\ mesh_layer_ s' = mesh_layer_ s
  /\ submap_counter_ s' = submap_counter_ s
  /\ last_published_submap_timestamp_ s' = last_published_submap_timestamp_ s
  /\ last_published_submap_position_ s' = last_published_submap_position_ s
  /\ map_needs_pruning_ s' = map_needs_pruning_ s.
Proof.
  unfold refinePose.
  destruct (enable_icp_ (config s)); [|repeat split].
  destruct (negb (accumulate_icp_corrections_ (config s)));
    destruct (negb refiningRollPitch); repeat split.
Qed.

Lemma integratePointcloud_frame (stamp : Time) (T : Transformation)
    (points : Pointcloud) (cols : Colors) (is_freespace : bool) s s' :
  integratePointcloud stamp T points cols is_freespace s = Some s' ->
  config s' = config s
  /\ pointcloud_queue_ s' = pointcloud_queue_ s
  /\ last_msg_time_ptcloud_ s' = last_msg_time_ptcloud_ s
  /\ mesh_layer_ s' = mesh_layer_ s
  /\ submap_counter_ s' = submap_counter_ s
  /\ last_published_submap_timestamp_ s' = last_published_submap_timestamp_ s
  /\ last_published_submap_position_ s' = last_published_submap_position_ s
  /\ map_needs_pruning_ s' = map_needs_pruning_ s
  /\ pointcloud_deintegration_queue_ s'
     = (if pointcloudDeintegrationEnabled (config s)
           || submappingEnabled (config s)
        then pointcloud_deintegration_queue_ s
             ++ [mkPacket stamp T points cols is_freespace]
        else pointcloud_deintegration_queue_ s)
  /\ trace s' = EvIntegratePointCloud T points cols is_freespace false :: trace s.
Proof.
  unfold integratePointcloud. destruct (negb _); [discriminate|].
  cbn [config emit set_trace set_tsdf_layer].
  destruct (_ || _); intros [= <-]; repeat split.
Qed.

Lemma service_loop_frame (fuel : nat) s :
  let s' := while_loop fuel servicePointcloudDeintegrationQueue_body s in
  config s' = config s
  /\ pointcloud_queue_ s' = pointcloud_queue_ s
  /\ last_msg_time_ptcloud_ s' = last_msg_time_ptcloud_ s
  /\ submap_counter_ s' = submap_counter_ s
  /\ last_published_submap_timestamp_ s' = last_published_submap_timestamp_ s
  /\ last_published_submap_position_ s' = last_published_submap_position_ s.
Proof.
  revert s. induction fuel as [|fuel IH]; intros s; [repeat split|].
  cbv zeta. rewrite while_loop_unroll.
  destruct (servicePointcloudDeintegrationQueue_body s) as [s'|] eqn:Hb;
    [|repeat split].
  apply service_body_inv in Hb as (o & r & _ & _ & _ & ->).
  destruct (IH (deintegrate_oldest o s)) as (-> & -> & -> & -> & -> & ->).
  repeat split.
Qed.

Lemma pruneMap_frame s :
  config (pruneMap s) = config s
  /\ pointcloud_queue_ (pruneMap s) = pointcloud_queue_ s
  /\ last_msg_time_ptcloud_ (pruneMap s) = last_msg_time_ptcloud_ s
  /\ pointcloud_deintegration_queue_ (pruneMap s)
     = pointcloud_deintegration_queue_ s
  /\ trace (pruneMap s) = trace s.
Proof. repeat split. Qed.

Lemma publishMap_pending (reset_remote_map : bool) s :
  pointcloud_queue_ (publishMap reset_remote_map s) = pointcloud_queue_ s
  /\ last_msg_time_ptcloud_ (publishMap reset_remote_map s)
     = last_msg_time_ptcloud_ s.
Proof.
  unfold publishMap.
  destruct (map_needs_pruning_ s); simpl;
    destruct (negb (publish_tsdf_map_ _)); simpl; try (repeat split; fail);
    destruct (0 <? _); repeat split.
Qed.

Lemma clear_pending s :
  pointcloud_queue_ (clear s) = pointcloud_queue_ s
  /\ last_msg_time_ptcloud_ (clear s) = last_msg_time_ptcloud_ s.
Proof.
  unfold clear. cbn [config set_pointcloud_deintegration_queue set_mesh_layer
                     set_tsdf_layer].
  destruct (publish_tsdf_map_ (config s)); [|repeat split].
  match goal with |- context [publishMap true ?x] => set (s3 := x) end.
  destruct (publishMap_pending true s3) as [-> ->]. repeat split.
Qed.

Lemma shouldCreateNewSubmap_frame (stamp : Time) (T : Transformation) s :
  let s' := (shouldCreateNewSubmap stamp T s).2 in
  config s' = config s
  /\ pointcloud_queue_ s' = pointcloud_queue_ s
  /\ last_msg_time_ptcloud_ s' = last_msg_time_ptcloud_ s
  /\ pointcloud_deintegration_queue_ s' = pointcloud_deintegration_queue_ s
  /\ submap_counter_ s' = submap_counter_ s
  /\ map_needs_pruning_ s' = map_needs_pruning_ s
  /\ tsdf_layer s' = tsdf_layer s
  /\ mesh_layer_ s' = mesh_layer_ s
  /\ trace s' = trace s.
Proof.
  unfold shouldCreateNewSubmap.
  destruct (negb _); [|destruct (_ || _)]; repeat split.
Qed.

Lemma publishSubmap_frame s :
  config (publishSubmap s) = config s
  /\ pointcloud_queue_ (publishSubmap s) = pointcloud_queue_ s
  /\ last_msg_time_ptcloud_ (publishSubmap s) = last_msg_time_ptcloud_ s
  /\ pointcloud_deintegration_queue_ (publishSubmap s)
     = pointcloud_deintegration_queue_ s
  /\ submap_counter_ (publishSubmap s) = submap_counter_ s
  /\ map_needs_pruning_ (publishSubmap s) = map_needs_pruning_ s.
Proof. unfold publishSubmap. destruct (0 <? _); repeat split. Qed.

Lemma createNewSubmap_frame (stamp : Time) (T : Transformation) s :
  let s' := createNewSubmap stamp T s in
  config s' = config s
  /\ pointcloud_queue_ s' = pointcloud_queue_ s
  /\ last_msg_time_ptcloud_ s' = last_msg_time_ptcloud_ s
  /\ pointcloud_deintegration_queue_ s'
     = (if pointcloudDeintegrationEnabled (config s)
        then pointcloud_deintegration_queue_ s else []).
Proof.
  unfold createNewSubmap.
  destruct (pointcloudDeintegrationEnabled (config s)); simpl;
    [repeat split|].
  destruct (clear_frame s) as (-> & _).
  destruct (clear_pending s) as [-> ->].
  destruct (clear_layers s) as (_ & _ & ->). repeat split.
Qed.

(** The steps of [processPointCloudMessageAndInsert], named. *)
Lemma process_steps (pointcloud_msg : PointCloud2) (T : Transformation)
    (is_freespace : bool) s s' :
  processPointCloudMessageAndInsert pointcloud_msg T is_freespace s = Some s' ->
  exists s2 s3,
    integratePointcloud (header_stamp pointcloud_msg)
      (refinePose (converted_points pointcloud_msg) T s).2
      (converted_points pointcloud_msg) (converted_colors pointcloud_msg)
      is_freespace (refinePose (converted_points pointcloud_msg) T s).1
    = Some s2
    /\ s3 = (if pointcloudDeintegrationEnabled (config s2)
             then servicePointcloudDeintegrationQueue s2 else s2)
    /\ let s5 :=
         set_mesh_layer
           (clearDistantMesh (getPosition T)
              (max_block_distance_from_body_ (config s3)) (mesh_layer_ s3))
           (set_tsdf_layer
              (removeDistantBlocks (getPosition T)
                 (max_block_distance_from_body_ (config s3)) (tsdf_layer s3))
              s3) in
       let s6 := (shouldCreateNewSubmap (header_stamp pointcloud_msg) T s5).2 in
       s' = emit (EvNewPose T)
              (if (shouldCreateNewSubmap (header_stamp pointcloud_msg) T s5).1
               then createNewSubmap (header_stamp pointcloud_msg) T
                      (publishSubmap s6)
               else s6).
Proof.
  unfold processPointCloudMessageAndInsert.
  destruct (refinePose (converted_points pointcloud_msg) T s) as [s1 Tr].
  simpl fst. simpl snd.
  destruct (integratePointcloud _ _ _ _ _ s1) as [s2|]; [|discriminate].
  intros Hs'. exists s2. eexists. split; [reflexivity|]. split; [reflexivity|].
  cbv zeta.
  match goal with
  | |- context [shouldCreateNewSubmap ?a ?b ?c] =>
      match type of Hs' with
      | context [shouldCreateNewSubmap a b ?d] => change d with c in Hs'
      end;
      destruct (shouldCreateNewSubmap a b c) as [create s6]
  end.
  injection Hs' as <-. reflexivity.
Qed.

(** ** One message: the window afterwards *)

Lemma shouldCreateNewSubmap_disabled (stamp : Time) (T : Transformation) s :
  submappingEnabled (config s) = false ->
  shouldCreateNewSubmap stamp T s = (false, s).
Proof. intros Hoff. unfold shouldCreateNewSubmap. rewrite Hoff. reflexivity. Qed.

Lemma process_window (pointcloud_msg : PointCloud2) (T : Transformation)
    (is_freespace : bool) s s' :
  processPointCloudMessageAndInsert pointcloud_msg T is_freespace s = Some s' ->
  let fused :=
    mkPacket (header_stamp pointcloud_msg)
      (refinePose (converted_points pointcloud_msg) T s).2
      (converted_points pointcloud_msg) (converted_colors pointcloud_msg)
      is_freespace in
  config s' = config s
  /\ pointcloud_queue_ s' = pointcloud_queue_ s
  /\ last_msg_time_ptcloud_ s' = last_msg_time_ptcloud_ s
  /\ (pointcloudDeintegrationEnabled (config s) = true ->
      exists s2,
        pointcloud_deintegration_queue_ s2
        = pointcloud_deintegration_queue_ s ++ [fused]
        /\ config s2 = config s
        /\ pointcloud_deintegration_queue_ s'
           = pointcloud_deintegration_queue_
               (servicePointcloudDeintegrationQueue s2))
  /\ (pointcloudDeintegrationEnabled (config s) = false ->
      submappingEnabled (config s) = true ->
      pointcloud_deintegration_queue_ s' = []
      \/ pointcloud_deintegration_queue_ s'
         = pointcloud_deintegration_queue_ s ++ [fused])
  /\ (pointcloudDeintegrationEnabled (config s) = false ->
      submappingEnabled (config s) = false ->
      pointcloud_deintegration_queue_ s' = pointcloud_deintegration_queue_ s
      /\ submap_counter_ s' = submap_counter_ s
      /\ last_published_submap_timestamp_ s'
         = last_published_submap_timestamp_ s
      /\ last_published_submap_position_ s'
         = last_published_submap_position_ s
      /\ map_needs_pruning_ s' = map_needs_pruning_ s
      /\ trace s'
         = EvNewPose T
           :: EvIntegratePointCloud
                (refinePose (converted_points pointcloud_msg) T s).2
                (converted_points pointcloud_msg)
                (converted_colors pointcloud_msg) is_freespace false
           :: trace (refinePose (converted_points pointcloud_msg) T s).1).
Proof.
  intros Hp fused.
  apply process_steps in Hp as (s2 & s3 & Hint & Hs3 & Hs').
  cbv zeta in Hs'.
  destruct (refinePose_frame (converted_points pointcloud_msg) T s)
    as (Hc1 & Hq1 & Hl1 & Hw1 & _ & _ & Hn1 & Ht1 & Hp1 & Hf1).
  apply integratePointcloud_frame in Hint
    as (Hc2 & Hq2 & Hl2 & _ & Hn2 & Ht2 & Hp2 & Hf2 & Hw2 & Htr2).
  rewrite Hc1 in Hc2, Hw2. rewrite Hw1 in Hw2. fold fused in Hw2.
  assert (Hc3 : config s3 = config s).
  { subst s3. destruct (pointcloudDeintegrationEnabled (config s2));
      [rewrite service_config|]; exact Hc2. }
  assert (Hq3 : pointcloud_queue_ s3 = pointcloud_queue_ s
                /\ last_msg_time_ptcloud_ s3 = last_msg_time_ptcloud_ s).
  { subst s3. destruct (pointcloudDeintegrationEnabled (config s2));
      [|split; congruence].
    destruct (service_loop_frame
                (length (pointcloud_deintegration_queue_ s2)) s2)
      as (_ & H2 & H3 & _).
    unfold servicePointcloudDeintegrationQueue. split; congruence. }
  destruct Hq3 as [Hq3 Hl3].
  set (s5 := set_mesh_layer _ (set_tsdf_layer _ s3)) in Hs'.
  assert (Hc5 : config s5 = config s) by exact Hc3.
  destruct (shouldCreateNewSubmap_frame (header_stamp pointcloud_msg) T s5)
    as (Hc6 & Hq6 & Hl6 & Hw6 & _).
  pose proof (shouldCreateNewSubmap_disabled (header_stamp pointcloud_msg) T s5)
    as Hoff.
  cbv zeta in Hc6, Hq6, Hl6, Hw6.
  set (verdict := shouldCreateNewSubmap (header_stamp pointcloud_msg) T s5) in *.
  destruct (publishSubmap_frame verdict.2) as (Hcp & Hqp & Hlp & Hwp & _).
  destruct (createNewSubmap_frame (header_stamp pointcloud_msg) T
              (publishSubmap verdict.2)) as (Hcn & Hqn & Hln & Hwn).
  cbv zeta in Hcn, Hqn, Hln, Hwn.
  replace (config (publishSubmap verdict.2)) with (config s) in Hwn
    by congruence.
  assert (Hw5 : pointcloud_deintegration_queue_ s5
                = pointcloud_deintegration_queue_ s3) by reflexivity.
  assert (Hq5 : pointcloud_queue_ s5 = pointcloud_queue_ s3) by reflexivity.
  assert (Hl5 : last_msg_time_ptcloud_ s5 = last_msg_time_ptcloud_ s3)
    by reflexivity.
  assert (Hn5 : submap_counter_ s5 = submap_counter_ s3) by reflexivity.
  assert (Ht5 : last_published_submap_timestamp_ s5
                = last_published_submap_timestamp_ s3) by reflexivity.
  assert (Hp5 : last_published_submap_position_ s5
                = last_published_submap_position_ s3) by reflexivity.
  assert (Hf5 : map_needs_pruning_ s5 = map_needs_pruning_ s3) by reflexivity.
  assert (Htr5 : trace s5 = trace s3) by reflexivity.
  clearbody s5.
  subst s'.
  cbn [emit set_trace config pointcloud_queue_ last_msg_time_ptcloud_
       pointcloud_deintegration_queue_ submap_counter_
       last_published_submap_timestamp_ last_published_submap_position_
       map_needs_pruning_ trace].
  split; [destruct verdict.1; congruence|].
  split; [destruct verdict.1; congruence|].
  split; [destruct verdict.1; congruence|].
  split; [|split].
  - intros Hen. rewrite Hen in Hw2, Hwn. exists s2. simpl in Hw2.
    split; [exact Hw2|]. split; [exact Hc2|].
    rewrite Hc2, Hen in Hs3. subst s3.
    destruct verdict.1; congruence.
  - intros Hen Hsub. rewrite Hen in Hw2, Hwn. rewrite Hsub in Hw2.
    simpl in Hw2. rewrite Hc2, Hen in Hs3. subst s3.
    destruct verdict.1; [left; exact Hwn|right; congruence].
  - intros Hen Hsub. rewrite Hen, Hsub in Hw2. simpl in Hw2.
    rewrite Hc2, Hen in Hs3. subst s3.
    rewrite Hc5 in Hoff. specialize (Hoff Hsub).
    subst verdict. rewrite Hoff. cbn [fst snd].
    split; [congruence|]. split; [congruence|]. split; [congruence|].
    split; [congruence|]. split; [congruence|]. rewrite Htr5, Htr2.
    reflexivity.
Qed.

(** X3: with pointcloud deintegration enabled, the window after a message
    is processed is not empty and ends with the cloud just fused, at its
    refined pose; the packets before it are a tail end of the window the
    message found. The newest packet is never evicted. *)
Theorem process_retains_newest (pointcloud_msg : PointCloud2)
    (T : Transformation) (is_freespace : bool) s s' :
  pointcloudDeintegrationEnabled (config s) = true ->
  processPointCloudMessageAndInsert pointcloud_msg T is_freespace s = Some s' ->
  exists kept,
    pointcloud_deintegration_queue_ s'
    = kept
      ++ [mkPacket (header_stamp pointcloud_msg)
            (refinePose (converted_points pointcloud_msg) T s).2
            (converted_points pointcloud_msg)
            (converted_colors pointcloud_msg) is_freespace]
    /\ kept `suffix_of` pointcloud_deintegration_queue_ s.
Proof.
  intros Hen Hp.
  destruct (process_window _ _ _ _ _ Hp) as (_ & _ & _ & Hwin & _).
  destruct (Hwin Hen) as (s2 & Hq2 & _ & ->).
  pose proof (service_queue_suffix s2) as [evicted Hev].
  pose proof (service_loop_keeps_one_packet
                (length (pointcloud_deintegration_queue_ s2)) s2) as Hone.
  fold (servicePointcloudDeintegrationQueue s2) in Hone.
  rewrite Hq2 in Hone at 1. rewrite length_app in Hone. simpl in Hone.
  specialize (Hone ltac:(lia)).
  set (q' := pointcloud_deintegration_queue_
               (servicePointcloudDeintegrationQueue s2)) in *.
  rewrite Hq2 in Hev.
  destruct (decide (q' = [])) as [Hnil|Hne];
    [rewrite Hnil in Hone; simpl in Hone; lia|].
  destruct (exists_last Hne) as (kept & newest & Hq').
  rewrite Hq', app_assoc in Hev.
  apply app_inj_tail in Hev as [Hkept <-].
  exists kept. split; [exact Hq'|]. exists evicted. exact Hkept.
Qed.

(** X4: with a queue-length bound set (so deintegration enabled) and fewer
    than 2^31 - 1 packets retained, the window after a message is processed
    holds at most max(1, bound) packets. *)
Theorem process_bounds_window (pointcloud_msg : PointCloud2)
    (T : Transformation) (is_freespace : bool) s s' (max_queue_length : Z) :
  isSet (pointcloud_deintegration_max_queue_length_ (config s)) = true ->
  threshold_value (pointcloud_deintegration_max_queue_length_ (config s))
  = max_queue_length ->
  Z.of_nat (length (pointcloud_deintegration_queue_ s)) < 2 ^ 31 - 1 ->
  processPointCloudMessageAndInsert pointcloud_msg T is_freespace s = Some s' ->
  Z.of_nat (length (pointcloud_deintegration_queue_ s'))
  <= Z.max 1 max_queue_length.
Proof.
  intros Hset Hval Hsize Hp.
  destruct (process_window _ _ _ _ _ Hp) as (_ & _ & _ & Hwin & _).
  assert (Hen : pointcloudDeintegrationEnabled (config s) = true).
  { unfold pointcloudDeintegrationEnabled. rewrite Hset. reflexivity. }
  destruct (Hwin Hen) as (s2 & Hq2 & Hc2 & ->).
  apply service_bounded_by_queue_length.
  - rewrite Hc2. exact Hset.
  - rewrite Hc2. exact Hval.
  - rewrite Hq2, length_app. simpl. lia.
Qed.

(** X5: with neither deintegration nor submapping enabled, processing a
    message retains nothing: the window, the submap counter and references
    and the pruning flag are as before, and the only integrator call is the
    forward integration of the message. *)
Theorem process_retains_nothing_when_unused (pointcloud_msg : PointCloud2)
    (T : Transformation) (is_freespace : bool) s s' :
  pointcloudDeintegrationEnabled (config s) = false ->
  submappingEnabled (config s) = false ->
  processPointCloudMessageAndInsert pointcloud_msg T is_freespace s = Some s' ->
  pointcloud_deintegration_queue_ s' = pointcloud_deintegration_queue_ s
  /\ submap_counter_ s' = submap_counter_ s
  /\ last_published_submap_timestamp_ s' = last_published_submap_timestamp_ s
  /\ last_published_submap_position_ s' = last_published_submap_position_ s
  /\ map_needs_pruning_ s' = map_needs_pruning_ s
  /\ trace s'
     = EvNewPose T
       :: EvIntegratePointCloud
            (refinePose (converted_points pointcloud_msg) T s).2
            (converted_points pointcloud_msg)
            (converted_colors pointcloud_msg) is_freespace false
       :: trace (refinePose (converted_points pointcloud_msg) T s).1.
Proof.
  intros Hdeint Hsub Hp.
  destruct (process_window _ _ _ _ _ Hp) as (_ & _ & _ & _ & _ & Hoff).
  exact (Hoff Hdeint Hsub).
Qed.

(** ** The queue of waiting messages *)

(** The popping loop in closed form: it pops until fewer than
    [kMaxQueueSize] messages are left, or the fuel is used up. *)
Lemma getNextPointcloudFromQueue_pop_loop (fuel : nat) s :
  while_loop fuel getNextPointcloudFromQueue_pop s
  = set_pointcloud_queue
      (drop (Nat.min fuel (length (pointcloud_queue_ s) - 9))
            (pointcloud_queue_ s)) s.
Proof.
  revert s. induction fuel as [|fuel IH]; intros s.
  - simpl. destruct s; reflexivity.
  - rewrite while_loop_unroll. unfold getNextPointcloudFromQueue_pop.
    unfold kMaxQueueSize.
    destruct (Nat.leb_spec 10 (length (pointcloud_queue_ s))) as [Hge|Hlt].
    + rewrite IH. cbn [pointcloud_queue_ set_pointcloud_queue].
      destruct (pointcloud_queue_ s) as [|m rest] eqn:Hq;
        [simpl in Hge; lia|].
      cbn [tail length] in *.
      replace (Nat.min (S fuel) (S (length rest) - 9))
        with (S (Nat.min fuel (length rest - 9))) by lia.
      reflexivity.
    + replace (Nat.min (S fuel) (length (pointcloud_queue_ s) - 9))
        with 0%nat by lia.
      destruct s; reflexivity.
Qed.

Lemma getNextPointcloudFromQueue_frame s :
  let s1 := (getNextPointcloudFromQueue s).2 in
  config s1 = config s
  /\ last_msg_time_ptcloud_ s1 = last_msg_time_ptcloud_ s
  /\ pointcloud_deintegration_queue_ s1 = pointcloud_deintegration_queue_ s
  /\ pointcloud_queue_ s1 `suffix_of` pointcloud_queue_ s.
Proof.
  unfold getNextPointcloudFromQueue.
  destruct (pointcloud_queue_ s) as [|m rest] eqn:Hq;
    [simpl; rewrite Hq; repeat split; reflexivity|].
  destruct (lookupTransform _ _).
  - simpl. repeat split. apply suffix_cons_r. reflexivity.
  - destruct (_ <=? _)%nat; cbn [snd]; [|rewrite Hq; repeat split; reflexivity].
    rewrite getNextPointcloudFromQueue_pop_loop.
    cbn [pointcloud_queue_ set_pointcloud_queue emit set_trace config
         last_msg_time_ptcloud_ pointcloud_deintegration_queue_].
    rewrite Hq. repeat split. apply suffix_drop.
Qed.

Lemma getNextPointcloudFromQueue_inv s :
  match getNextPointcloudFromQueue s with
  | (Some (pointcloud_msg, T), s1) =>
      pointcloud_queue_ s = pointcloud_msg :: pointcloud_queue_ s1
      /\ lookupTransform (header_frame_id pointcloud_msg)
           (header_stamp pointcloud_msg) = Some T
      /\ trace s1 = trace s
  | (None, s1) =>
      (length (pointcloud_queue_ s1) <= 9)%nat
      /\ ((length (pointcloud_queue_ s) < 10)%nat -> s1 = s)
      /\ ((10 <= length (pointcloud_queue_ s))%nat ->
          pointcloud_queue_ s1
          = drop (length (pointcloud_queue_ s) - 9) (pointcloud_queue_ s)
          /\ length (pointcloud_queue_ s1) = 9%nat
          /\ trace s1
             = EvRosErrorThrottle 60 queue_too_long_error :: trace s)
  end.
Proof.
  unfold getNextPointcloudFromQueue.
  destruct (pointcloud_queue_ s) as [|m rest] eqn:Hq.
  - rewrite Hq. simpl. split; [lia|]. split; [reflexivity|]. lia.
  - destruct (lookupTransform _ _) as [T|] eqn:Hlook.
    + repeat split. exact Hlook.
    + unfold kMaxQueueSize.
      destruct (Nat.leb_spec 10 (length (m :: rest))) as [Hge|Hlt].
      * rewrite getNextPointcloudFromQueue_pop_loop.
        cbn [pointcloud_queue_ set_pointcloud_queue emit set_trace trace].
        rewrite Hq.
        replace (Nat.min (length (m :: rest)) (length (m :: rest) - 9))
          with (length (m :: rest) - 9)%nat by lia.
        rewrite length_drop.
        split; [lia|]. split; [lia|]. intros _.
        split; [reflexivity|]. split; [lia|]. reflexivity.
      * rewrite Hq. split; [simpl in *; lia|]. split; [reflexivity|]. lia.
Qed.

(** X6: [getNextPointcloudFromQueue] hands out the head of the queue, with
    the pose the transformer gave for it, and removes just that message.
    When the head has no pose yet (or the queue is empty) it hands out
    nothing and leaves at most nine messages waiting: on a queue of ten or
    more the throttled error statement is reached once and the popping loop
    leaves exactly the newest nine; a shorter queue is left as it is. *)
Theorem getNextPointcloudFromQueue_cases s :
  match getNextPointcloudFromQueue s with
  | (Some (pointcloud_msg, T), s1) =>
      pointcloud_queue_ s = pointcloud_msg :: pointcloud_queue_ s1
      /\ lookupTransform (header_frame_id pointcloud_msg)
           (header_stamp pointcloud_msg) = Some T
      /\ trace s1 = trace s
  | (None, s1) =>
      (length (pointcloud_queue_ s1) <= 9)%nat
      /\ ((length (pointcloud_queue_ s) < 10)%nat -> s1 = s)
      /\ ((10 <= length (pointcloud_queue_ s))%nat ->
          pointcloud_queue_ s1
          = drop (length (pointcloud_queue_ s) - 9) (pointcloud_queue_ s)
          /\ length (pointcloud_queue_ s1) = 9%nat
          /\ trace s1
             = EvRosErrorThrottle 60 queue_too_long_error :: trace s)
  end.
Proof. apply getNextPointcloudFromQueue_inv. Qed.

(** ** Stamps in order *)

Lemma StronglySorted_sublist {A : Type} (R : relation A) (l k : list A) :
  l `sublist_of` k -> StronglySorted R k -> StronglySorted R l.
Proof.
  induction 1 as [|x l k Hsub IH|x l k Hsub IH]; intros Hk.
  - constructor.
  - apply StronglySorted_cons in Hk as [Hall Hk].
    apply StronglySorted_cons. split; [|apply IH; exact Hk].
    rewrite Forall_forall in *. intros y Hy. apply Hall.
    exact (sublist_subseteq _ _ Hsub y Hy).
  - apply StronglySorted_cons in Hk as [_ Hk]. apply IH. exact Hk.
Qed.

Lemma Forall_sublist {A : Type} (P : A -> Prop) (l k : list A) :
  l `sublist_of` k -> Forall P k -> Forall P l.
Proof.
  intros Hsub. rewrite !Forall_forall. intros Hk x Hx. apply Hk.
  exact (sublist_subseteq _ _ Hsub x Hx).
Qed.

Lemma map_sublist {A B : Type} (f : A -> B) (l k : list A) :
  l `sublist_of` k -> map f l `sublist_of` map f k.
Proof.
  induction 1; simpl; [constructor|constructor; assumption|].
  constructor. assumption.
Qed.

Lemma suffix_is_sublist {A : Type} (l k : list A) :
  l `suffix_of` k -> l `sublist_of` k.
Proof. intros [front ->]. apply sublist_inserts_l. reflexivity. Qed.

Lemma process_window_sublist (pointcloud_msg : PointCloud2)
    (T : Transformation) (is_freespace : bool) s s' :
  processPointCloudMessageAndInsert pointcloud_msg T is_freespace s = Some s' ->
  map timestamp (pointcloud_deintegration_queue_ s')
  `sublist_of` map timestamp (pointcloud_deintegration_queue_ s)
               ++ [header_stamp pointcloud_msg].
Proof.
  intros Hp.
  destruct (process_window _ _ _ _ _ Hp) as (_ & _ & _ & Hon & Hsub & Hoff).
  set (fused := mkPacket (header_stamp pointcloud_msg)
                  (refinePose (converted_points pointcloud_msg) T s).2
                  (converted_points pointcloud_msg)
                  (converted_colors pointcloud_msg) is_freespace) in *.
  change [header_stamp pointcloud_msg] with (map timestamp [fused]).
  rewrite <- map_app. apply map_sublist.
  destruct (pointcloudDeintegrationEnabled (config s)) eqn:Hen.
  - destruct (Hon eq_refl) as (s2 & Hq2 & _ & ->).
    rewrite <- Hq2. apply suffix_is_sublist, service_queue_suffix.
  - destruct (submappingEnabled (config s)) eqn:Hs.
    + destruct (Hsub eq_refl eq_refl) as [-> | ->];
        [apply sublist_nil_l|reflexivity].
    + destruct (Hoff eq_refl eq_refl) as (-> & _).
      apply sublist_inserts_r. reflexivity.
Qed.

Lemma drain_ends (fuel : nat) (processed_any : bool) s
    (processed_any' : bool) s' :
  (length (pointcloud_queue_ s) < fuel)%nat ->
  insertPointcloud_drain fuel processed_any s = Some (processed_any', s') ->
  (length (pointcloud_queue_ s') <= 9)%nat
  /\ pointcloud_queue_ s' `suffix_of` pointcloud_queue_ s
  /\ config s' = config s
  /\ last_msg_time_ptcloud_ s' = last_msg_time_ptcloud_ s
  /\ held_stamps s' `sublist_of` held_stamps s.
Proof.
  revert processed_any s. induction fuel as [|fuel IH];
    intros processed_any s Hfuel Hdrain; [lia|].
  simpl in Hdrain.
  pose proof (getNextPointcloudFromQueue_inv s) as Hcases.
  pose proof (getNextPointcloudFromQueue_frame s) as (Hc & Hl & Hw & Hsuf).
  cbv zeta in Hc, Hl, Hw, Hsuf.
  destruct (getNextPointcloudFromQueue s) as [[[m T]|] s1]; simpl in *.
  - destruct Hcases as (Hq & _ & _).
    destruct (processPointCloudMessageAndInsert m T false s1) as [s2|] eqn:Hp;
      [|discriminate].
    pose proof (process_window_sublist _ _ _ _ _ Hp) as Hwin.
    destruct (process_window _ _ _ _ _ Hp) as (Hc2 & Hq2 & Hl2 & _).
    destruct (IH true s2) as (Hlen & Hsuf' & Hc' & Hl' & Hsub');
      [rewrite Hq2; rewrite Hq in Hfuel; simpl in Hfuel; lia|exact Hdrain|].
    split; [exact Hlen|].
    split; [rewrite Hq2 in Hsuf'; etrans; [exact Hsuf'|exact Hsuf]|].
    split; [congruence|]. split; [congruence|].
    etrans; [exact Hsub'|].
    unfold held_stamps. rewrite Hq2, Hq, <- Hw. simpl.
    rewrite (app_assoc _ [header_stamp m]
               (map header_stamp (pointcloud_queue_ s1))).
    apply sublist_app; [exact Hwin|reflexivity].
  - injection Hdrain as <- <-. destruct Hcases as (Hlen & _).
    split; [exact Hlen|]. split; [exact Hsuf|].
    split; [exact Hc|]. split; [exact Hl|].
    unfold held_stamps. rewrite Hw.
    apply sublist_app; [reflexivity|].
    apply map_sublist, suffix_is_sublist, Hsuf.
Qed.

Lemma insertPointcloud_steps (pointcloud_msg_in : PointCloud2) s s' :
  insertPointcloud pointcloud_msg_in s = Some s' ->
  exists s1 processed_any s2,
    insertPointcloud_enqueue pointcloud_msg_in s = Some s1
    /\ insertPointcloud_drain (S (length (pointcloud_queue_ s1))) false s1
       = Some (processed_any, s2)
    /\ pointcloud_queue_ s' = pointcloud_queue_ s2
    /\ pointcloud_deintegration_queue_ s' = pointcloud_deintegration_queue_ s2
    /\ config s' = config s2
    /\ last_msg_time_ptcloud_ s' = last_msg_time_ptcloud_ s2.
Proof.
  unfold insertPointcloud.
  destruct (insertPointcloud_enqueue pointcloud_msg_in s) as [s1|];
    [|discriminate].
  destruct (insertPointcloud_drain _ _ _) as [[processed_any s2]|] eqn:Hdrain;
    [|discriminate].
  intros Hs'. exists s1, processed_any, s2.
  split; [reflexivity|]. split; [exact Hdrain|].
  destruct (negb processed_any); [injection Hs' as <-; repeat split|].
  destruct (publish_pointclouds_on_update_ (config s2));
    injection Hs' as <-; [|repeat split].
  unfold publishPointclouds. destruct (map_needs_pruning_ s2); repeat split.
Qed.

(** X7: when [insertPointcloud] returns, at most nine messages are still
    waiting for a pose, and they are a tail end of the queue as it stood
    once the new message had passed the rate gate: messages leave the
    queue from the front only, none is skipped. *)
Theorem insertPointcloud_leaves_short_queue (pointcloud_msg_in : PointCloud2)
    s s' :
  insertPointcloud pointcloud_msg_in s = Some s' ->
  (length (pointcloud_queue_ s') <= 9)%nat
  /\ exists s1,
       insertPointcloud_enqueue pointcloud_msg_in s = Some s1
       /\ pointcloud_queue_ s' `suffix_of` pointcloud_queue_ s1.
Proof.
  intros Hins.
  apply insertPointcloud_steps in Hins
    as (s1 & processed_any & s2 & Hgate & Hdrain & -> & _).
  apply drain_ends in Hdrain as (Hlen & Hsuf & _); [|lia].
  split; [exact Hlen|]. exists s1. split; assumption.
Qed.

Lemma enqueue_keeps_stamps_in_order (pointcloud_msg_in : PointCloud2) s s1 :
  insertPointcloud_enqueue pointcloud_msg_in s = Some s1 ->
  stamps_in_order s -> stamps_in_order s1.
Proof.
  intros Hgate. apply insertPointcloud_enqueue_inv in Hgate as [_ ->].
  intros (Hsorted & Hall & Hmin).
  destruct (Z.ltb_spec (min_time_between_msgs_ (config s))
              (header_stamp pointcloud_msg_in - last_msg_time_ptcloud_ s))
    as [Hlt|Hge]; [|repeat split; assumption].
  unfold stamps_in_order, held_stamps in *.
  cbn [pointcloud_deintegration_queue_ pointcloud_queue_
       last_msg_time_ptcloud_ config set_pointcloud_queue
       set_last_msg_time_ptcloud].
  rewrite map_app, app_assoc. simpl.
  rewrite Forall_forall in Hall.
  split; [|split; [|exact Hmin]].
  - apply StronglySorted_app_2; [|exact Hsorted|repeat constructor].
    intros x1 x2 Hx1 Hx2. apply list_elem_of_singleton in Hx2 as ->.
    specialize (Hall x1 Hx1). lia.
  - apply Forall_app. split; [|repeat constructor; lia].
    apply Forall_forall. intros x Hx. specialize (Hall x Hx). lia.
Qed.

(** X8: [insertPointcloud] keeps the stamps it holds in order. If the
    stamps of the window's packets followed by those of the waiting
    messages strictly increase, none is later than the last enqueued stamp
    and the gate's interval is not negative, the same holds when the call
    returns; a freshly constructed server whose interval is not negative is
    in that state. Messages fed through [insertPointcloud] alone thus leave
    a window whose stamps strictly increase. *)
Theorem insertPointcloud_keeps_stamps_in_order
    (pointcloud_msg_in : PointCloud2) s s' :
  stamps_in_order s ->
  insertPointcloud pointcloud_msg_in s = Some s' ->
  stamps_in_order s'
  /\ StronglySorted Z.lt (map timestamp (pointcloud_deintegration_queue_ s'))
  /\ forall (p : RosParams) (tsdf_voxels_per_side : Z),
       0 <= param (param_min_time_between_msgs_sec p) 0 ->
       stamps_in_order (TsdfServer_new p tsdf_voxels_per_side).
Proof.
  intros Hinv Hins.
  apply insertPointcloud_steps in Hins
    as (s1 & processed_any & s2 & Hgate & Hdrain & Hq & Hw & Hc & Hl).
  destruct (enqueue_keeps_stamps_in_order _ _ _ Hgate Hinv)
    as (Hsorted & Hall & Hmin).
  apply drain_ends in Hdrain as (_ & _ & Hc2 & Hl2 & Hsub); [|lia].
  assert (Hstamps : held_stamps s' = held_stamps s2)
    by (unfold held_stamps; rewrite Hq, Hw; reflexivity).
  assert (Hinv' : stamps_in_order s').
  { unfold stamps_in_order. rewrite Hstamps, Hl, Hl2, Hc, Hc2.
    split; [exact (StronglySorted_sublist _ _ _ Hsub Hsorted)|].
    split; [exact (Forall_sublist _ _ _ Hsub Hall)|exact Hmin]. }
  split; [exact Hinv'|].
  split; [exact (StronglySorted_app_1_l _ _ _ (proj1 Hinv'))|].
  intros p n Hp. unfold TsdfServer_new.
  destruct (pointcloudDeintegrationEnabled _ && _);
    (split; [constructor|split; [constructor|exact Hp]]).
Qed.

(** ** Pruning twice *)

Lemma pruned_again_nowhere (n : nat) (l : Layer) (m : MeshLayer)
    (i : BlockIndex) :
  let l1 := (foldl (pruneMap_block n) (l, m) (getAllUpdatedBlocks l)).1 in
  pruned_by n l1 (getAllUpdatedBlocks l1) i = false.
Proof.
  intros l1. unfold pruned_by.
  destruct (l1 !! i) as [b|] eqn:Hi; [|reflexivity].
  apply andb_false_iff.
  destruct (block_contains_observed_voxels n b) eqn:Hobs; [right; reflexivity|].
  left. apply bool_decide_eq_false. intros Hin.
  apply elem_of_getAllUpdatedBlocks in Hin as (b' & Hb' & Hupd).
  assert (b' = b) as -> by congruence.
  subst l1.
  destruct (pruneMap_loop_lookup n (getAllUpdatedBlocks l) l m i) as [Hl _].
  rewrite Hl in Hi. unfold pruned_by in Hi.
  destruct (l !! i) as [b0|] eqn:Hi0; [|discriminate].
  destruct (bool_decide (i ∈ getAllUpdatedBlocks l)) eqn:Hdec.
  - simpl in Hi. destruct (block_contains_observed_voxels n b0) eqn:Hobs0;
      simpl in Hi; [|discriminate].
    injection Hi as ->. congruence.
  - simpl in Hi. injection Hi as ->.
    apply bool_decide_eq_false in Hdec. apply Hdec.
    apply elem_of_getAllUpdatedBlocks. exists b. split; assumption.
Qed.

(** X9: [pruneMap] is idempotent: a second pass right after the first
    finds nothing to remove and leaves the whole server as the first pass
    left it. *)
Theorem pruneMap_idempotent s : pruneMap (pruneMap s) = pruneMap s.
Proof.
  unfold pruneMap at 1.
  set (s1 := pruneMap s).
  set (n := num_voxels_per_block_ (config s1)).
  assert (Hlayers :
    foldl (pruneMap_block n) (tsdf_layer s1, mesh_layer_ s1)
          (getAllUpdatedBlocks (tsdf_layer s1))
    = (tsdf_layer s1, mesh_layer_ s1)).
  { pose proof (pruneMap_loop_lookup n (getAllUpdatedBlocks (tsdf_layer s1))
                  (tsdf_layer s1) (mesh_layer_ s1)) as Hlookup.
    assert (Hnone : forall i,
      pruned_by n (tsdf_layer s1) (getAllUpdatedBlocks (tsdf_layer s1)) i
      = false).
    { intros i. subst s1 n. unfold pruneMap.
      cbn [tsdf_layer config set_map_needs_pruning set_mesh_layer
           set_tsdf_layer].
      apply pruned_again_nowhere. }
    destruct (foldl _ _ _) as [l2 m2]. f_equal; apply map_eq; intros i;
      destruct (Hlookup i) as [Hl Hm]; cbn [fst snd] in Hl, Hm;
      rewrite (Hnone i) in Hl, Hm; assumption. }
  rewrite Hlayers. subst s1. unfold pruneMap. reflexivity.
Qed.

(** ** Publishing to subscribers *)

(** X10: [publishMap] publishes nothing when the map is not to be
    published or nobody subscribes. When a subscriber has joined since the
    last call, what it publishes resets the remote map whatever the caller
    asked for; a call right after that publishes an update only. The count
    of subscribers is recorded on each call that gets past the publish
    switch. *)
Theorem publishMap_resets_for_new_subscribers (reset_remote_map : bool) s :
  (publish_tsdf_map_ (config s) = false ->
   trace (publishMap reset_remote_map s) = trace s
   /\ num_subscribers_tsdf_map_ (publishMap reset_remote_map s)
      = num_subscribers_tsdf_map_ s)
  /\ (publish_tsdf_map_ (config s) = true ->
      num_subscribers_tsdf_map_ (publishMap reset_remote_map s)
      = tsdf_map_pub_getNumSubscribers
      /\ (tsdf_map_pub_getNumSubscribers <= 0 ->
          trace (publishMap reset_remote_map s) = trace s)
      /\ (0 < tsdf_map_pub_getNumSubscribers ->
          num_subscribers_tsdf_map_ s < tsdf_map_pub_getNumSubscribers ->
          trace (publishMap reset_remote_map s)
          = EvPublishLayer true :: trace s)
      /\ (0 < tsdf_map_pub_getNumSubscribers ->
          tsdf_map_pub_getNumSubscribers <= num_subscribers_tsdf_map_ s ->
          trace (publishMap reset_remote_map s)
          = EvPublishLayer reset_remote_map :: trace s)
      /\ (0 < tsdf_map_pub_getNumSubscribers ->
          trace (publishMap false (publishMap reset_remote_map s))
          = EvPublishLayer false :: trace (publishMap reset_remote_map s))).
Proof.
  assert (Hone : forall r s0,
    publish_tsdf_map_ (config s0) = true ->
    num_subscribers_tsdf_map_ (publishMap r s0)
    = tsdf_map_pub_getNumSubscribers
    /\ trace (publishMap r s0)
       = (if 0 <? tsdf_map_pub_getNumSubscribers
          then EvPublishLayer
                 (if num_subscribers_tsdf_map_ s0
                     <? tsdf_map_pub_getNumSubscribers
                  then true else r) :: trace s0
          else trace s0)).
  { intros r s0 Hpub. unfold publishMap.
    destruct (map_needs_pruning_ s0);
      cbn [config pruneMap set_map_needs_pruning set_mesh_layer
           set_tsdf_layer]; rewrite Hpub; cbn [negb];
      destruct (0 <? _); split; reflexivity. }
  split.
  - intros Hpub. unfold publishMap.
    destruct (map_needs_pruning_ s);
      cbn [config pruneMap set_map_needs_pruning set_mesh_layer
           set_tsdf_layer]; rewrite Hpub; split; reflexivity.
  - intros Hpub. destruct (Hone reset_remote_map s Hpub) as [Hnum Htrace].
    split; [exact Hnum|].
    split.
    { intros Hle. rewrite Htrace.
      destruct (Z.ltb_spec 0 tsdf_map_pub_getNumSubscribers);
        [lia|reflexivity]. }
    split.
    { intros Hpos Hnew. rewrite Htrace.
      destruct (Z.ltb_spec 0 tsdf_map_pub_getNumSubscribers); [|lia].
      destruct (Z.ltb_spec (num_subscribers_tsdf_map_ s)
                  tsdf_map_pub_getNumSubscribers); [reflexivity|lia]. }
    split.
    { intros Hpos Hold. rewrite Htrace.
      destruct (Z.ltb_spec 0 tsdf_map_pub_getNumSubscribers); [|lia].
      destruct (Z.ltb_spec (num_subscribers_tsdf_map_ s)
                  tsdf_map_pub_getNumSubscribers); [lia|reflexivity]. }
    intros Hpos.
    assert (Hpub' : publish_tsdf_map_ (config (publishMap reset_remote_map s))
                    = true) by (rewrite publishMap_config; exact Hpub).
    destruct (Hone false _ Hpub') as [_ Htrace']. rewrite Htrace', Hnum.
    destruct (Z.ltb_spec 0 tsdf_map_pub_getNumSubscribers); [|lia].
    rewrite Z.ltb_irrefl. reflexivity.
Qed.

(** ** The correction after a refinement *)

Lemma T_compose_inverse_l {laws : PoseLaws Transformation} (T : Transformation) :
  T_compose (T_inverse T) T = T_identity.
Proof.
  transitivity (T_compose (T_compose (T_inverse T) T)
                  (T_compose (T_inverse T) (T_inverse (T_inverse T)))).
  { rewrite (T_compose_inverse_r (T_inverse T)), T_compose_identity_r.
    reflexivity. }
  rewrite T_compose_assoc.
  rewrite <- (T_compose_assoc (T_inverse T) T (T_inverse T)).
  rewrite (T_compose_inverse_r T), T_compose_identity_r.
  apply T_compose_inverse_r.
Qed.

(** X11: when ICP refines roll and pitch, the correction a refinement
    leaves behind is the one that takes the prior pose to the refined pose,
    correction o priorPose = refinedPose, with or without accumulation. With
    accumulation, if ICP returns the guess it was handed, the correction is
    the one the server held before. *)
Theorem refinement_correction_maps_prior_to_refined
    {laws : PoseLaws Transformation} (points_C : Pointcloud)
    (T : Transformation) s :
  enable_icp_ (config s) = true ->
  refiningRollPitch = true ->
  T_compose (icp_corrected_transform_ (refinePose points_C T s).1) T
  = (refinePose points_C T s).2
  /\ (accumulate_icp_corrections_ (config s) = true ->
      (runICP (tsdf_layer s) points_C
         (T_compose (icp_corrected_transform_ s) T)).2
      = T_compose (icp_corrected_transform_ s) T ->
      icp_corrected_transform_ (refinePose points_C T s).1
      = icp_corrected_transform_ s).
Proof.
  intros Hicp Hrp. unfold refinePose. rewrite Hicp, Hrp. cbn [negb].
  split.
  - destruct (accumulate_icp_corrections_ (config s)); cbn [negb];
      cbn [fst snd icp_corrected_transform_ tsdf_layer emit set_trace
           set_icp_corrected_transform];
      rewrite <- T_compose_assoc, T_compose_inverse_l, T_compose_identity_r;
      reflexivity.
  - intros Hacc Hfixed. rewrite Hacc. cbn [negb].
    cbn [fst snd icp_corrected_transform_ tsdf_layer emit set_trace
         set_icp_corrected_transform].
    rewrite Hfixed.
    rewrite <- T_compose_assoc, T_compose_inverse_r, T_compose_identity_r.
    reflexivity.
Qed.

(** ** Submaps: after a finalization *)

Lemma F32_sub_self (x : FloatingPoint) : zero_or_nan (F32.sub x x) = true.
Proof.
  destruct x as [sign|sign| |sign m e]; try (destruct sign; reflexivity);
    [reflexivity|].
  unfold F32.sub, SFsub. cbv zeta. rewrite Z.sub_diag. reflexivity.
Qed.

Lemma F32_mul_zero_or_nan (a b : FloatingPoint) :
  zero_or_nan a = true -> zero_or_nan b = true ->
  zero_or_nan (F32.mul a b) = true.
Proof.
  destruct a as [sa|sa| |sa ma ea]; try discriminate;
    destruct b as [sb|sb| |sb mb eb]; try discriminate; reflexivity.
Qed.

Lemma F32_add_zero_or_nan (a b : FloatingPoint) :
  zero_or_nan a = true -> zero_or_nan b = true ->
  zero_or_nan (F32.add a b) = true.
Proof.
  destruct a as [sa|sa| |sa ma ea]; try discriminate;
    destruct b as [sb|sb| |sb mb eb]; try discriminate;
    try reflexivity.
  destruct sa, sb; reflexivity.
Qed.

Lemma F32_sqrt_zero_or_nan (a : FloatingPoint) :
  zero_or_nan a = true -> zero_or_nan (F32.sqrt a) = true.
Proof. destruct a as [sa|sa| |sa ma ea]; try discriminate; reflexivity. Qed.

Lemma positive_not_below_zero_or_nan (bound x : FloatingPoint) :
  positive_float bound = true -> zero_or_nan x = true ->
  F32.ltb bound x = false.
Proof.
  unfold positive_float, F32.ltb, SFltb.
  destruct bound as [sb|sb| |sb mb eb]; try discriminate;
    destruct x as [sx|sx| |sx mx ex]; try discriminate;
    try reflexivity; destruct sb; try discriminate; reflexivity.
Qed.

Lemma Point_distance_self (p : Point) :
  zero_or_nan (Point_distance p p) = true.
Proof.
  unfold Point_distance. cbv zeta.
  apply F32_sqrt_zero_or_nan.
  repeat apply F32_add_zero_or_nan;
    apply F32_mul_zero_or_nan; apply F32_sub_self.
Qed.

(** X12: once [createNewSubmap] has run for an observation,
    [shouldCreateNewSubmap] answers false for that same observation,
    provided each submap bound that is set is positive, as the constructor's
    validity test has it. A submap is not finalized twice on one
    observation. *)
Theorem no_second_submap_on_same_observation (current_timestamp : Time)
    (current_T_G_C : Transformation) s :
  submap_bounds_positive (config s) ->
  (shouldCreateNewSubmap current_timestamp current_T_G_C
     (createNewSubmap current_timestamp current_T_G_C s)).1 = false.
Proof.
  intros [Htime Hdist].
  destruct (createNewSubmap_frame current_timestamp current_T_G_C s)
    as (Hc & _).
  assert (Hts : last_published_submap_timestamp_
                  (createNewSubmap current_timestamp current_T_G_C s)
                = current_timestamp) by reflexivity.
  assert (Hpos : last_published_submap_position_
                   (createNewSubmap current_timestamp current_T_G_C s)
                 = getPosition current_T_G_C) by reflexivity.
  cbv zeta in Hc.
  unfold shouldCreateNewSubmap. rewrite Hc, Hts, Hpos.
  destruct (negb (submappingEnabled (config s))); [reflexivity|].
  destruct (_ || _); [reflexivity|].
  cbn [fst]. unfold Time_sub. rewrite Z.sub_diag.
  apply orb_false_iff. split.
  - unfold isSetAndLT, less, Less_float.
    destruct (threshold_is_set (submap_max_time_interval_ (config s))) eqn:Hset;
      [|reflexivity].
    apply positive_not_below_zero_or_nan;
      [apply Htime; exact Hset|reflexivity].
  - unfold isSetAndLT, less, Less_float.
    destruct (threshold_is_set (submap_max_distance_travelled_ (config s)))
      eqn:Hset; [|reflexivity].
    apply positive_not_below_zero_or_nan;
      [apply Hdist; exact Hset|apply Point_distance_self].
Qed.

Lemma getParamIfSetAndValid_valid {T : Type} (value : option T)
    (valid : T -> bool) (zero : T) :
  isSet (getParamIfSetAndValid value valid (Threshold_default zero)) = true ->
  valid (threshold_value
           (getParamIfSetAndValid value valid (Threshold_default zero)))
  = true.
Proof.
  unfold getParamIfSetAndValid. destruct value as [v|]; [|discriminate].
  destruct (valid v) eqn:Hv; [intros _; exact Hv|discriminate].
Qed.

(** X13: in a server as constructed, every bound that is set is strictly
    positive: a parameter that is zero, negative or NaN leaves its bound
    unset. In particular the submap bounds are positive. *)
Theorem constructed_bounds_are_positive (p : RosParams)
    (tsdf_voxels_per_side : Z) :
  let c := config (TsdfServer_new p tsdf_voxels_per_side) in
  submap_bounds_positive c
  /\ (isSet (pointcloud_deintegration_max_queue_length_ c) = true ->
      0 < threshold_value (pointcloud_deintegration_max_queue_length_ c))
  /\ (isSet (pointcloud_deintegration_max_time_interval_ c) = true ->
      positive_float
        (threshold_value (pointcloud_deintegration_max_time_interval_ c))
      = true)
  /\ (isSet (pointcloud_deintegration_max_distance_travelled_ c) = true ->
      positive_float
        (threshold_value (pointcloud_deintegration_max_distance_travelled_ c))
      = true)
  /\ (forall bound : FloatingPoint,
        positive_float bound = true -> F32.isNaN bound = false).
Proof.
  intros c. subst c. unfold TsdfServer_new.
  destruct (pointcloudDeintegrationEnabled _ && _);
    cbn [config set_config emit set_trace foldl advertised_services
         getServerConfigFromRosParam unset_pointcloud_deintegration
         submap_max_time_interval_ submap_max_distance_travelled_
         pointcloud_deintegration_max_queue_length_
         pointcloud_deintegration_max_time_interval_
         pointcloud_deintegration_max_distance_travelled_];
    (split; [split; apply getParamIfSetAndValid_valid|]);
    (split; [|split; [|split]]);
    try (intros [=]; fail);
    try (intros Hset; apply getParamIfSetAndValid_valid in Hset;
         first [apply Z.ltb_lt; exact Hset|exact Hset]);
    intros bound; destruct bound as [sb|sb| |sb mb eb];
    try reflexivity; discriminate.
Qed.

End More_properties.

(** * Paths and directories *)

(** ** Printable characters *)

Lemma char_in_range (char_is_signed : bool) (character : ascii) :
  (char_value char_is_signed kUpperAsciiBound
   <? char_value char_is_signed character)
  || (char_value char_is_signed character
      <? char_value char_is_signed kLowerAsciiBound) = false
  <-> printable character.
Proof.
  unfold printable, char_value.
  change (Z.of_N (N_of_ascii kUpperAsciiBound)) with 126.
  change (Z.of_N (N_of_ascii kLowerAsciiBound)) with 32.
  assert (Hbound : (N_of_ascii character < 256)%N) by apply N_ascii_bounded.
  set (code := N_of_ascii character) in *.
  rewrite orb_false_iff, !Z.ltb_ge.
  destruct char_is_signed; cbn [andb];
    [destruct (Z.leb_spec 128 (Z.of_N code))|]; cbn; lia.
Qed.

Lemma hasOnlyAsciiCharacters_spec (char_is_signed : bool) (s : CString) :
  hasOnlyAsciiCharacters char_is_signed s = true <-> Forall printable s.
Proof.
  induction s as [|character rest IH]; simpl; [split; constructor|].
  rewrite Forall_cons, <- IH, <- (char_in_range char_is_signed character).
  destruct (_ || _); [split; [discriminate|intros [[=] _]]|tauto].
Qed.

(** X14: [hasOnlyAsciiCharacters] answers the same whether [char] is signed
    or unsigned: true exactly when every character lies between space and
    tilde (codes 32 to 126). The empty string passes, and a concatenation
    passes exactly when both parts do. *)
Theorem hasOnlyAsciiCharacters_printable (char_is_signed : bool)
    (s t : CString) :
  (hasOnlyAsciiCharacters char_is_signed s = true <-> Forall printable s)
  /\ hasOnlyAsciiCharacters char_is_signed s
     = hasOnlyAsciiCharacters (negb char_is_signed) s
  /\ hasOnlyAsciiCharacters char_is_signed (s ++ t)
     = hasOnlyAsciiCharacters char_is_signed s
       && hasOnlyAsciiCharacters char_is_signed t.
Proof.
  split; [apply hasOnlyAsciiCharacters_spec|]. split.
  - destruct (hasOnlyAsciiCharacters (negb char_is_signed) s) eqn:Hother.
    + apply (proj2 (hasOnlyAsciiCharacters_spec char_is_signed s)).
      exact (proj1 (hasOnlyAsciiCharacters_spec _ s) Hother).
    + apply not_true_iff_false. intros Hthis.
      pose proof (proj2 (hasOnlyAsciiCharacters_spec (negb char_is_signed) s)
                    (proj1 (hasOnlyAsciiCharacters_spec _ s) Hthis)).
      congruence.
  - induction s as [|character rest IH]; [reflexivity|]. simpl.
    destruct (_ || _); [reflexivity|exact IH].
Qed.

Lemma hasOnlyAsciiCharacters_app (char_is_signed : bool) (s t : CString) :
  hasOnlyAsciiCharacters char_is_signed (s ++ t)
  = hasOnlyAsciiCharacters char_is_signed s
    && hasOnlyAsciiCharacters char_is_signed t.
Proof.
  induction s as [|character rest IH]; [reflexivity|]. simpl.
  destruct (_ || _); [reflexivity|exact IH].
Qed.

(** ** Creating a path *)

Section CreatePath_properties.
Context {FS : Type} (char_is_signed : bool)
        (mkdir : CString -> FS -> Z * Z * FS).

Lemma find_first_of_hit (c a : ascii) (before rest : CString) :
  Ascii.eqb a c = true ->
  find_first_of c (before ++ a :: rest) (length before) = Some (length before).
Proof.
  intros Hc. induction before as [|b before IH]; simpl; [rewrite Hc; reflexivity|].
  rewrite IH. reflexivity.
Qed.

Lemma find_first_of_skip (c a : ascii) (before rest : CString) :
  Ascii.eqb a c = false ->
  find_first_of c (before ++ a :: rest) (length before)
  = find_first_of c (before ++ a :: rest) (S (length before)).
Proof.
  intros Hc. induction before as [|b before IH]; simpl.
  - rewrite Hc. reflexivity.
  - rewrite IH. reflexivity.
Qed.

Lemma find_first_of_end (c : ascii) (s : CString) :
  find_first_of c s (length s) = None.
Proof. induction s as [|a s IH]; simpl; [reflexivity|rewrite IH; reflexivity]. Qed.

Lemma createPath_loop_prefixes (rest : CString) :
  forall (fuel : nat) (before : CString) (fs : FS),
    (length rest < fuel)%nat ->
    createPath_loop char_is_signed mkdir fuel (before ++ rest) (length before) fs
    = make_directories char_is_signed mkdir
        (filter (fun d => negb (skipped_directory d))
                (slash_prefixes before rest)) fs.
Proof.
  induction rest as [|a rest IH]; intros fuel before fs Hfuel.
  - destruct fuel; [simpl in Hfuel; lia|]. simpl.
    rewrite app_nil_r, find_first_of_end. reflexivity.
  - simpl in Hfuel. destruct fuel as [|fuel]; [lia|].
    assert (Hnext : before ++ a :: rest = (before ++ [a]) ++ rest)
      by (rewrite <- app_assoc; reflexivity).
    assert (Hlen : S (length before) = length (before ++ [a]))
      by (rewrite length_app; simpl; lia).
    destruct (Ascii.eqb a "/") eqn:Hslash.
    + cbn [createPath_loop slash_prefixes]. rewrite Hslash.
      rewrite (find_first_of_hit "/" a before rest Hslash).
      rewrite take_app_length. cbn [app filter].
      fold (skipped_directory before).
      rewrite Hnext, Hlen.
      destruct (skipped_directory before) eqn:Hskip; cbn [negb].
      * unfold filter. simpl. rewrite Hskip. simpl.
        apply IH. lia.
      * unfold filter. simpl. rewrite Hskip. simpl.
        destruct (negb (hasOnlyAsciiCharacters char_is_signed before));
          [reflexivity|].
        destruct (mkdir before fs) as [[status errno] fs'].
        destruct (negb (status =? 0) && negb (errno =? EEXIST)) eqn:Hfail.
        -- apply andb_true_iff in Hfail as [Hst _].
           apply negb_true_iff in Hst. rewrite Hst. reflexivity.
        -- apply IH. lia.
    + cbn [slash_prefixes]. rewrite Hslash. cbn [app].
      rewrite <- (IH (S fuel) (before ++ [a]) fs) by lia.
      rewrite <- Hnext, <- Hlen. cbn [createPath_loop].
      rewrite (find_first_of_skip "/" a before rest Hslash). reflexivity.
Qed.

Lemma createPath_as_directories (path_to_create_input : CString)
    (fs : FS) :
  createPath char_is_signed mkdir [] fs = None
  /\ (path_to_create_input <> [] ->
      createPath char_is_signed mkdir path_to_create_input fs
      = Some (make_directories char_is_signed mkdir
                (filter (fun d => negb (skipped_directory d))
                   (slash_prefixes []
                      (with_trailing_slash path_to_create_input)))
                fs)).
Proof.
  split; [reflexivity|]. intros Hne.
  destruct path_to_create_input as [|first rest]; [contradiction|].
  unfold createPath, with_trailing_slash.
  destruct (Ascii.eqb (List.last (first :: rest) first) "/"); cbn [negb];
    f_equal.
  - exact (createPath_loop_prefixes (first :: rest)
             (S (length (first :: rest))) [] fs (Nat.lt_succ_diag_r _)).
  - exact (createPath_loop_prefixes ((first :: rest) ++ ["/"%char])
             (S (length ((first :: rest) ++ ["/"%char]))) [] fs
             (Nat.lt_succ_diag_r _)).
Qed.

(** X15: [createPath] aborts on the empty path. On any other path it makes
    the directories the path names, shortest first: for every slash of the
    path (one is added at the end when missing) what stands before it,
    leaving out the empty name and "."; it stops with false at the first
    name that holds a character outside the printable range, before calling
    [mkdir] on it, and at the first [mkdir] that fails for another reason
    than the directory existing, and answers true when it gets through. *)
Theorem createPath_makes_slash_prefixes (path_to_create_input : CString)
    (fs : FS) :
  createPath char_is_signed mkdir [] fs = None
  /\ (path_to_create_input <> [] ->
      createPath char_is_signed mkdir path_to_create_input fs
      = Some (make_directories char_is_signed mkdir
                (filter (fun d => negb (skipped_directory d))
                   (slash_prefixes []
                      (with_trailing_slash path_to_create_input)))
                fs)).
Proof. apply createPath_as_directories. Qed.

Lemma slash_prefixes_snoc (rest before : CString) :
  slash_prefixes before (rest ++ ["/"%char])
  = slash_prefixes before rest ++ [before ++ rest].
Proof.
  revert before. induction rest as [|a rest IH]; intros before; simpl.
  - rewrite app_nil_r. reflexivity.
  - rewrite IH, <- !app_assoc. reflexivity.
Qed.

Lemma with_trailing_slash_body (path : CString) :
  path <> [] ->
  exists body,
    with_trailing_slash path = body ++ ["/"%char]
    /\ (path = body \/ path = body ++ ["/"%char]).
Proof.
  intros Hne. destruct path as [|first rest]; [contradiction|].
  unfold with_trailing_slash.
  destruct (Ascii.eqb (List.last (first :: rest) first) "/") eqn:Hlast.
  - destruct (exists_last Hne) as (body & x & Hpath).
    rewrite Hpath in Hlast. rewrite List.last_last in Hlast.
    apply Ascii.eqb_eq in Hlast as ->.
    exists body. rewrite Hpath. split; [reflexivity|right; reflexivity].
  - exists (first :: rest). split; [reflexivity|left; reflexivity].
Qed.

Lemma make_directories_true (directories : list CString) (fs fs' : FS) :
  make_directories char_is_signed mkdir directories fs = (true, fs') ->
  Forall (fun d => hasOnlyAsciiCharacters char_is_signed d = true) directories.
Proof.
  revert fs. induction directories as [|d others IH]; intros fs Hmake;
    [constructor|].
  simpl in Hmake.
  destruct (hasOnlyAsciiCharacters char_is_signed d) eqn:Hd;
    [|discriminate].
  cbn [negb] in Hmake.
  destruct (mkdir d fs) as [[status errno] fs1].
  destruct (negb (status =? 0) && negb (errno =? EEXIST)); [discriminate|].
  constructor; [exact Hd|]. exact (IH fs1 Hmake).
Qed.

(** X16: [createPath] never answers true for a path that holds a character
    outside the printable range, whatever [mkdir] does. *)
Theorem createPath_rejects_unprintable (path_to_create_input : CString)
    (fs : FS) :
  path_to_create_input <> [] ->
  hasOnlyAsciiCharacters char_is_signed path_to_create_input = false ->
  exists fs',
    createPath char_is_signed mkdir path_to_create_input fs
    = Some (false, fs').
Proof.
  intros Hne Hbad.
  destruct (createPath_as_directories path_to_create_input fs)
    as [_ Hcreate].
  rewrite (Hcreate Hne).
  destruct (with_trailing_slash_body path_to_create_input Hne)
    as (body & -> & Hbody).
  assert (Hbody_bad : hasOnlyAsciiCharacters char_is_signed body = false).
  { destruct Hbody as [<-|Hpath]; [exact Hbad|].
    rewrite Hpath, hasOnlyAsciiCharacters_app in Hbad.
    apply andb_false_iff in Hbad as [Hb|Hslash]; [exact Hb|].
    destruct char_is_signed; discriminate. }
  rewrite slash_prefixes_snoc, filter_app. cbn [app].
  assert (Hkeep : skipped_directory body = false).
  { unfold skipped_directory, CString_eqb.
    apply orb_false_iff. split; apply bool_decide_eq_false; intros ->;
      destruct char_is_signed; discriminate. }
  unfold filter at 2. simpl. rewrite Hkeep. simpl.
  match goal with
  | |- exists fs', Some (make_directories _ _ ?dirs fs) = _ =>
      destruct (make_directories char_is_signed mkdir dirs fs)
        as [[|] fs'] eqn:Hmake
  end; [|exists fs'; reflexivity].
  apply make_directories_true in Hmake.
  apply Forall_app in Hmake as [_ Hlast].
  apply Forall_cons in Hlast as [Hlast _]. congruence.
Qed.

Lemma slash_prefixes_printable (rest before : CString) :
  hasOnlyAsciiCharacters char_is_signed (before ++ rest) = true ->
  Forall (fun d => hasOnlyAsciiCharacters char_is_signed d = true)
         (slash_prefixes before rest).
Proof.
  revert before. induction rest as [|a rest IH]; intros before Hall;
    [constructor|].
  simpl. apply Forall_app. split.
  - destruct (Ascii.eqb a "/"); [|constructor].
    repeat constructor.
    rewrite hasOnlyAsciiCharacters_app in Hall.
    apply andb_true_iff in Hall as [Hb _]. exact Hb.
  - apply IH. rewrite <- app_assoc. exact Hall.
Qed.

Lemma make_directories_succeeds (directories : list CString) (fs : FS) :
  (forall d fs0, (mkdir d fs0).1.1 = 0 \/ (mkdir d fs0).1.2 = EEXIST) ->
  Forall (fun d => hasOnlyAsciiCharacters char_is_signed d = true)
         directories ->
  exists fs', make_directories char_is_signed mkdir directories fs = (true, fs').
Proof.
  intros Hbenign Hall. revert fs.
  induction Hall as [|d others Hd _ IH]; intros fs; [exists fs; reflexivity|].
  simpl. rewrite Hd. cbn [negb].
  specialize (Hbenign d fs).
  destruct (mkdir d fs) as [[status errno] fs1]. simpl in Hbenign.
  replace (negb (status =? 0) && negb (errno =? EEXIST)) with false;
    [apply IH|].
  symmetry. apply andb_false_iff.
  destruct Hbenign as [->| ->]; [left|right]; reflexivity.
Qed.

(** X17: on a path of printable characters, with a [mkdir] that only ever
    reports success or that the directory exists, [createPath] answers
    true. *)
Theorem createPath_succeeds_on_printable (path_to_create_input : CString)
    (fs : FS) :
  path_to_create_input <> [] ->
  hasOnlyAsciiCharacters char_is_signed path_to_create_input = true ->
  (forall d fs0, (mkdir d fs0).1.1 = 0 \/ (mkdir d fs0).1.2 = EEXIST) ->
  exists fs',
    createPath char_is_signed mkdir path_to_create_input fs = Some (true, fs').
Proof.
  intros Hne Hgood Hbenign.
  destruct (createPath_as_directories path_to_create_input fs)
    as [_ Hcreate].
  rewrite (Hcreate Hne).
  destruct (with_trailing_slash_body path_to_create_input Hne)
    as (body & Hpath & Hbody).
  assert (Hall : hasOnlyAsciiCharacters char_is_signed
                   (with_trailing_slash path_to_create_input) = true).
  { rewrite Hpath. destruct Hbody as [<-| <-]; [|exact Hgood].
    rewrite hasOnlyAsciiCharacters_app, Hgood.
    destruct char_is_signed; reflexivity. }
  destruct (make_directories_succeeds
              (filter (fun d => negb (skipped_directory d))
                 (slash_prefixes []
                    (with_trailing_slash path_to_create_input))) fs Hbenign)
    as [fs' Hmake].
  - apply Forall_forall. intros d Hd.
    apply list_elem_of_filter in Hd as [_ Hd].
    pose proof (slash_prefixes_printable
                  (with_trailing_slash path_to_create_input) [] Hall) as Hp.
    rewrite Forall_forall in Hp. exact (Hp d Hd).
  - exists fs'. rewrite Hmake. reflexivity.
Qed.

End CreatePath_properties.

(** ** The submap directory *)

Lemma sanitize_submap_directory_snoc (char_is_signed : bool)
    (body : CString) (x : ascii) :
  sanitize_submap_directory char_is_signed (body ++ [x])
  = check_submap_directory char_is_signed
      (if Ascii.eqb x "/" then body else body ++ [x]).
Proof.
  destruct body as [|b body]; [reflexivity|].
  unfold sanitize_submap_directory. cbn [app].
  change (b :: body ++ [x]) with ((b :: body) ++ [x]).
  rewrite List.last_last, removelast_last. reflexivity.
Qed.

Lemma check_submap_directory_cases (char_is_signed : bool)
    (directory kept : CString) (errors : list string) :
  check_submap_directory char_is_signed directory = Some (kept, errors) ->
  (length errors <= 1)%nat
  /\ (kept = [] <-> errors <> [])
  /\ (kept <> [] ->
      kept = directory
      /\ (exists rest, kept = "/"%char :: rest)
      /\ hasOnlyAsciiCharacters char_is_signed kept = true).
Proof.
  destruct directory as [|front rest]; [discriminate|].
  unfold check_submap_directory.
  destruct (Ascii.eqb front "/") eqn:Hfront; cbn [negb].
  - apply Ascii.eqb_eq in Hfront. subst front.
    destruct (hasOnlyAsciiCharacters char_is_signed ("/"%char :: rest))
      eqn:Hascii; cbn [negb]; intros [= <- <-].
    + split; [simpl; lia|].
      split; [split; [discriminate|intros H; contradiction]|].
      intros _. split; [reflexivity|].
      split; [exists rest; reflexivity|exact Hascii].
    + split; [simpl; lia|]. split; [split; [discriminate|reflexivity]|].
      intros H; contradiction.
  - cbn [hasOnlyAsciiCharacters negb app]. intros [= <- <-].
    split; [simpl; lia|]. split; [split; [discriminate|reflexivity]|].
    intros H; contradiction.
Qed.

(** X18: the sanitising of the submap directory is undefined on the path
    "/" alone (it asks for the first character of an empty string) and
    defined on every other path. It logs at most one error; the directory it
    keeps is empty exactly when an error was logged or none was given, and
    otherwise is the given path without one trailing slash, starts with a
    slash and holds only printable characters. *)
Theorem sanitize_submap_directory_cases (char_is_signed : bool)
    (write_submaps_to_directory_ : CString) :
  (sanitize_submap_directory char_is_signed write_submaps_to_directory_ = None
   <-> write_submaps_to_directory_ = ["/"%char])
  /\ forall directory errors,
       sanitize_submap_directory char_is_signed write_submaps_to_directory_
       = Some (directory, errors) ->
       (length errors <= 1)%nat
       /\ (directory = []
           <-> errors <> [] \/ write_submaps_to_directory_ = [])
       /\ (directory <> [] ->
           (write_submaps_to_directory_ = directory
            \/ write_submaps_to_directory_ = directory ++ ["/"%char])
           /\ (exists rest, directory = "/"%char :: rest)
           /\ hasOnlyAsciiCharacters char_is_signed directory = true).
Proof.
  destruct (decide (write_submaps_to_directory_ = [])) as [->|Hne].
  { split; [split; discriminate|].
    intros directory errors [= <- <-].
    split; [simpl; lia|]. split; [split; [right; reflexivity|reflexivity]|].
    intros H; contradiction. }
  destruct (exists_last Hne) as (body & x & ->).
  rewrite sanitize_submap_directory_snoc.
  split.
  - destruct (Ascii.eqb x "/") eqn:Hx.
    + apply Ascii.eqb_eq in Hx. subst x.
      destruct body as [|b body].
      * split; reflexivity.
      * split; [|intros [=]; destruct body; discriminate].
        unfold check_submap_directory.
        destruct (negb (Ascii.eqb b "/")); cbn [hasOnlyAsciiCharacters negb];
          [discriminate|].
        destruct (negb _); discriminate.
    + split.
      * destruct body as [|b body]; cbn [app]; unfold check_submap_directory;
          [destruct (negb (Ascii.eqb x "/"))|destruct (negb (Ascii.eqb b "/"))];
          cbn [hasOnlyAsciiCharacters negb]; try discriminate;
          destruct (negb _); discriminate.
      * intros Heq. destruct body as [|b body];
          [injection Heq as ->; discriminate|].
        destruct body; discriminate.
  - intros directory errors Hcheck.
    apply check_submap_directory_cases in Hcheck as (Hlen & Hempty & Hkept).
    split; [exact Hlen|].
    split.
    { rewrite Hempty. split; [intros H; left; exact H|].
      intros [H|H]; [exact H|]. destruct body; discriminate. }
    intros Hd. destruct (Hkept Hd) as (-> & Hslash & Hascii).
    split; [|split; assumption].
    destruct (Ascii.eqb x "/") eqn:Hx; [|left; reflexivity].
    apply Ascii.eqb_eq in Hx. subst x. right. reflexivity.
Qed.

(** ** Submap folders *)

Lemma to_string_injective (n m : Z) : to_string n = to_string m -> n = m.
Proof.
  unfold to_string. intros Heq.
  apply (f_equal string_of_list_ascii) in Heq.
  rewrite !string_of_list_ascii_of_string in Heq.
  apply DecimalZ.to_int_inj.
  assert (Hnorm : forall z, Z.to_int z <> Decimal.Pos Decimal.Nil
                            /\ Z.to_int z <> Decimal.Neg Decimal.Nil).
  { intros [|p|p]; simpl; split; try discriminate;
      intros [= H]; exact (DecimalPos.Unsigned.to_uint_nonnil p H). }
  pose proof (NilZero.isi (Z.to_int n) (proj1 (Hnorm n)) (proj2 (Hnorm n)))
    as Hn.
  pose proof (NilZero.isi (Z.to_int m) (proj1 (Hnorm m)) (proj2 (Hnorm m)))
    as Hm.
  rewrite Heq in Hn. congruence.
Qed.

Lemma digits_printable (d : Decimal.uint) :
  Forall printable (list_ascii_of_string (NilEmpty.string_of_uint d)).
Proof.
  induction d; simpl; constructor; try assumption;
    unfold printable; simpl; lia.
Qed.

Lemma to_string_printable (n : Z) : Forall printable (to_string n).
Proof.
  unfold to_string, NilZero.string_of_int, NilZero.string_of_uint.
  destruct (Z.to_int n) as [d|d]; [|simpl; constructor;
                                    [unfold printable; simpl; lia|]];
    (destruct d; [repeat constructor; unfold printable; simpl; lia
                 |apply digits_printable..]).
Qed.

(** X19: the folder a submap is saved to determines its counter: two
    submaps of one directory with different counters go to different
    folders, so the folder of the submap that [createNewSubmap] starts is
    not the folder of the one just finished. The folder's name holds only
    printable characters when the directory's does. *)
Theorem submap_folders_differ {Transformation : Type}
    {pose_ops : Pose Transformation} {collab : Collaborators Transformation}
    (char_is_signed : bool) (write_submaps_to_directory_ : CString)
    (n m : Z) (stamp : Time) (T : Transformation)
    (s : TsdfServer Transformation) :
  (submap_folder_path write_submaps_to_directory_ n
   = submap_folder_path write_submaps_to_directory_ m -> n = m)
  /\ submap_folder_path write_submaps_to_directory_
       (submap_counter_ (createNewSubmap stamp T s))
     <> submap_folder_path write_submaps_to_directory_ (submap_counter_ s)
  /\ hasOnlyAsciiCharacters char_is_signed
       (submap_folder_path write_submaps_to_directory_ n)
     = hasOnlyAsciiCharacters char_is_signed write_submaps_to_directory_.
Proof.
  assert (Hinj : forall a b,
    submap_folder_path write_submaps_to_directory_ a
    = submap_folder_path write_submaps_to_directory_ b -> a = b).
  { intros a b Heq. unfold submap_folder_path in Heq.
    apply app_inv_head in Heq. apply app_inv_head in Heq.
    exact (to_string_injective a b Heq). }
  split; [apply Hinj|]. split.
  - intros Heq. apply Hinj in Heq.
    assert (Hcount : submap_counter_ (createNewSubmap stamp T s)
                     = submap_counter_ s + 1).
    { unfold createNewSubmap.
      destruct (negb (pointcloudDeintegrationEnabled (config s)));
        [|reflexivity].
      cbn [submap_counter_ set_last_published_submap_position
           set_last_published_submap_timestamp set_submap_counter].
      destruct (clear_frame s) as (_ & -> & _). reflexivity. }
    lia.
  - unfold submap_folder_path. rewrite !hasOnlyAsciiCharacters_app.
    replace (hasOnlyAsciiCharacters char_is_signed (to_string n)) with true
      by (symmetry; apply hasOnlyAsciiCharacters_spec, to_string_printable).
    replace (hasOnlyAsciiCharacters char_is_signed
               (list_ascii_of_string "/voxblox_submap_")) with true
      by (destruct char_is_signed; reflexivity).
    rewrite !andb_true_r. reflexivity.
Qed.

(** * Messages that can be processed *)

Section Defined_properties.
Context {Transformation : Type} {pose_ops : Pose Transformation}
        {collab : Collaborators Transformation}.
Implicit Type s : TsdfServer Transformation.

Lemma process_defined (pointcloud_msg : PointCloud2) (T : Transformation)
    (is_freespace : bool) s :
  well_formed pointcloud_msg ->
  exists s',
    processPointCloudMessageAndInsert pointcloud_msg T is_freespace s = Some s'.
Proof.
  intros Hwf. unfold processPointCloudMessageAndInsert.
  destruct (refinePose (converted_points pointcloud_msg) T s) as [s1 Tr].
  unfold integratePointcloud.
  replace (length (converted_points pointcloud_msg)
           =? length (converted_colors pointcloud_msg))%nat with true
    by (symmetry; apply Nat.eqb_eq; exact Hwf).
  cbn [negb].
  destruct (_ || _);
    match goal with
    | |- context [shouldCreateNewSubmap ?a ?b ?c] =>
        destruct (shouldCreateNewSubmap a b c) as [create s6]
    end; eexists; reflexivity.
Qed.

Lemma drain_defined (fuel : nat) (processed_any : bool) s :
  Forall well_formed (pointcloud_queue_ s) ->
  exists result, insertPointcloud_drain fuel processed_any s = Some result.
Proof.
  revert processed_any s. induction fuel as [|fuel IH];
    intros processed_any s Hwf; [eexists; reflexivity|].
  simpl.
  pose proof (getNextPointcloudFromQueue_inv s) as Hcases.
  pose proof (getNextPointcloudFromQueue_frame s) as (_ & _ & _ & Hsuf).
  cbv zeta in Hsuf.
  destruct (getNextPointcloudFromQueue s) as [[[m T]|] s1]; simpl in *;
    [|eexists; reflexivity].
  destruct Hcases as (Hq & _ & _). rewrite Hq in Hwf.
  apply Forall_cons in Hwf as [Hm Hrest].
  destruct (process_defined m T false s1 Hm) as [s2 Hp]. rewrite Hp.
  apply IH.
  destruct (process_window _ _ _ _ _ Hp) as (_ & -> & _). exact Hrest.
Qed.

(** X20: with neither deintegration nor submapping enabled the rate gate's
    subtraction is the only difference of stamps a call of
    [insertPointcloud] takes. Then, when the incoming message and the
    messages already waiting each carry as many colours as points, the call
    fails to return exactly when that subtraction throws, the seconds of
    stamp minus last enqueued stamp not fitting a [Duration]; the [CHECK] of
    [integratePointcloud] does not fire. The messages left waiting again
    carry as many colours as points. *)
Theorem insertPointcloud_completes (pointcloud_msg_in : PointCloud2) s :
  pointcloudDeintegrationEnabled (config s) = false ->
  submappingEnabled (config s) = false ->
  well_formed pointcloud_msg_in ->
  Forall well_formed (pointcloud_queue_ s) ->
  (insertPointcloud pointcloud_msg_in s = None
   <-> ~ Duration_representable
           (header_stamp pointcloud_msg_in - last_msg_time_ptcloud_ s))
  /\ (forall s',
        insertPointcloud pointcloud_msg_in s = Some s' ->
        Forall well_formed (pointcloud_queue_ s')).
Proof.
  intros _ _ Hmsg Hqueue.
  assert (Hall : forall s1,
            insertPointcloud_enqueue pointcloud_msg_in s = Some s1 ->
            Forall well_formed (pointcloud_queue_ s1)).
  { intros s1 Hgate. apply insertPointcloud_enqueue_inv in Hgate as [_ ->].
    destruct (_ <? _); [|exact Hqueue].
    cbn [pointcloud_queue_ set_pointcloud_queue set_last_msg_time_ptcloud].
    apply Forall_app. split; [exact Hqueue|repeat constructor; exact Hmsg]. }
  split.
  - split.
    + intros Hnone Hfits. revert Hnone. unfold insertPointcloud.
      pose proof (insertPointcloud_enqueue_returns _ _ Hfits) as Hgate.
      rewrite Hgate.
      destruct (drain_defined
                  (S (length (pointcloud_queue_
                        (if min_time_between_msgs_ (config s)
                            <? header_stamp pointcloud_msg_in
                               - last_msg_time_ptcloud_ s
                         then
                           set_pointcloud_queue
                             (pointcloud_queue_ s ++ [pointcloud_msg_in])
                             (set_last_msg_time_ptcloud
                                (header_stamp pointcloud_msg_in) s)
                         else s))))
                  false _ (Hall _ Hgate)) as [[processed_any s2] ->].
      destruct (negb processed_any); [discriminate|].
      destruct (publish_pointclouds_on_update_ (config s2)); discriminate.
    + intros Hnot. unfold insertPointcloud.
      rewrite (insertPointcloud_enqueue_throws _ _ Hnot). reflexivity.
  - intros s' Hs'.
    apply insertPointcloud_steps in Hs'
      as (s1 & b & s2 & Hgate & Hdrain & -> & _).
    apply drain_ends in Hdrain as (_ & Hsuf & _); [|lia].
    apply (Forall_sublist _ _ _ (suffix_is_sublist _ _ Hsuf) (Hall _ Hgate)).
Qed.

End Defined_properties.

(** ** The properties in the concrete setting *)

Section Concrete.
Import XScrew.

(** Closed facts: each conjunct by evaluation. *)
Ltac by_evaluation := cbv zeta; repeat apply conj; vm_compute; reflexivity.

Lemma XScrew_laws : PoseLaws XScrew.t.
Proof.
  split.
  - intros [a b]. reflexivity.
  - intros [a b]. cbn. f_equal; lia.
  - intros [a b] [c d] [e f]. cbn. f_equal; lia.
  - intros [a b]. cbn. f_equal; lia.
Qed.



Lemma service_keeps_one_of_three :
  (1 <= length (pointcloud_deintegration_queue_
                  (servicePointcloudDeintegrationQueue three_packets)))%nat.
Proof.
  apply (service_keeps_one_packet three_packets). simpl. lia.
Defined.

Lemma service_noop_on_unbounded_window :
  pointcloud_deintegration_queue_ unbounded_window
  = [packet_at 1 0; packet_at 9 100]
  /\ servicePointcloudDeintegrationQueue unbounded_window = unbounded_window.
Proof.
  split; [reflexivity|].
  apply (service_noop_when_unset unbounded_window); reflexivity.
Defined.

(** A second message with the stamp of the one just enqueued, with
    [min_time_between_msgs_] at zero: not enqueued. *)
Lemma rate_gate_drops_equal_stamp :
  let s :=
    set_pointcloud_queue [message_at 1]
      (set_last_msg_time_ptcloud (header_stamp (message_at 1)) windowed) in
  insertPointcloud_enqueue (message_at 1) windowed = Some s
  /\ min_time_between_msgs_ (config s) = 0
  /\ last_msg_time_ptcloud_ s = header_stamp (message_at 1)
  /\ insertPointcloud_enqueue (message_at 1) s = Some s
  /\ pointcloud_queue_ s = [message_at 1].
Proof. by_evaluation. Qed.

(** A first message stamped one second is enqueued by the fresh server; one
    stamped 3 * 10^9 seconds makes the subtraction throw. *)
Lemma rate_gate_admits_later_stamp :
  (exists s1,
     insertPointcloud_enqueue (message_at 1) windowed = Some s1
     /\ pointcloud_queue_ s1 = [message_at 1])
  /\ insertPointcloud (message_at 3000000000) windowed = None.
Proof.
  split.
  - destruct (proj2 (rate_gate_admits_iff_strictly_later (message_at 1)
                       windowed))
      as (s1 & Hgate & Hadmits & _);
      [unfold Duration_representable; vm_compute; split; discriminate|].
    exists s1. split; [exact Hgate|].
    rewrite Hadmits; [reflexivity|vm_compute; reflexivity].
  - apply (proj1 (rate_gate_admits_iff_strictly_later (message_at 3000000000)
                    windowed)).
    intros [_ Hfits]. vm_compute in Hfits. apply Hfits. reflexivity.
Defined.

Lemma first_sample_on_fresh_references :
  shouldCreateNewSubmap 1000000000 (mk 7 0) submapped
  = (false,
     set_last_published_submap_position (getPosition (mk 7 0))
       (set_last_published_submap_timestamp 1000000000 submapped)).
Proof.
  apply (first_sample_never_finalizes 1000000000 (mk 7 0) submapped);
    [reflexivity|left; reflexivity].
Defined.

Lemma createNewSubmap_counts_one :
  submap_counter_ (createNewSubmap 1000000000 (mk 7 0) three_packets) = 1.
Proof.
  rewrite (proj1 (createNewSubmap_bookkeeping 1000000000 (mk 7 0)
                    three_packets)).
  reflexivity.
Defined.

(** The same parameters with the merged integrator. *)
Lemma constructor_with_merged_integrator :
  pointcloudDeintegrationEnabled
    (config (TsdfServer_new (collab := collaborators_with kMerged)
               windowed_params 1)) = false.
Proof.
  apply (constructor_disables_unsupported_deintegration
           (collab := collaborators_with kMerged) windowed_params 1);
    [reflexivity|discriminate].
Defined.

Lemma dirty_map_blocks_sized (j : BlockIndex) (b : Block) :
  tsdf_layer dirty_map !! j = Some b -> updated_map b = true ->
  length (voxels b) = num_voxels_per_block_ (config dirty_map).
Proof.
  intros Hl _.
  change (tsdf_layer dirty_map)
    with (<[(7, 0, 0) := mkBlock [mkVoxel (S754_zero false) (S754_zero false)]
                           true]>
            ({[(0, 0, 0) := mkBlock [mkVoxel (S754_zero false) (F32.of_Z 2)]
                              true]} : Layer)) in Hl.
  apply lookup_insert_Some in Hl as [[_ <-]|[_ Hl]]; [reflexivity|].
  apply lookup_singleton_Some in Hl as [_ <-]. reflexivity.
Defined.

Lemma pruneMap_on_dirty_map :
  tsdf_layer (pruneMap dirty_map) !! (7, 0, 0) = None
  /\ mesh_layer_ (pruneMap dirty_map) !! (7, 0, 0) = Some (mkMesh [] true).
Proof.
  assert (Hc : fully_cancelled dirty_map (7, 0, 0)).
  { exists (mkBlock [mkVoxel (S754_zero false) (S754_zero false)] true).
    split; [reflexivity|]. split; [reflexivity|].
    intros voxel Hin. apply list_elem_of_singleton in Hin as ->. reflexivity. }
  destruct (proj1 (pruneMap_removes_fully_cancelled_blocks dirty_map
                     dirty_map_blocks_sized) (7, 0, 0) Hc) as [Hl Hm].
  split; [exact Hl|]. etrans; [exact Hm|reflexivity].
Defined.

(** The stand-in ICP moves its guess along the axis and leaves its roll
    alone. *)
Lemma XScrew_icp_removes_roll_pitch : icp_removes_roll_pitch.
Proof.
  intros _ layer points [sh ro]. unfold without_roll_pitch. cbn.
  replace (sh + 1 + - sh) with 1 by lia.
  replace (ro + - ro) with 0 by lia.
  reflexivity.
Qed.

(** A message seen from position 4: ICP is handed that pose, returns
    position 5, and the correction left behind is one unit along the axis,
    also when the server held another correction before. *)
Lemma refinement_on_fresh_server :
  (refinePose one_point (mk 4 0) submapped).2 = mk 5 0
  /\ icp_corrected_transform_ (refinePose one_point (mk 4 0) submapped).1
     = mk 1 0
  /\ refinePose one_point (mk 4 0)
       (set_icp_corrected_transform (mk 9 0) submapped)
     = refinePose one_point (mk 4 0) submapped.
Proof.
  destruct (refinement_does_not_accumulate (laws := XScrew_laws)
              one_point (mk 4 0) submapped eq_refl eq_refl
              XScrew_icp_removes_roll_pitch)
    as (Hrefined & _ & Hcorrection & Hprevious & _).
  split; [rewrite Hrefined; reflexivity|].
  split; [rewrite Hcorrection; reflexivity|].
  rewrite (Hprevious (mk 9 0)), <- Hrefined.
  destruct (refinePose one_point (mk 4 0) submapped); reflexivity.
Defined.

(** After a deintegration, with the map published: [clear] clears the
    pruning flag. *)
Lemma clear_resets_pruning_flag :
  publish_tsdf_map_ (config serviced) = true
  /\ map_needs_pruning_ serviced = true
  /\ map_needs_pruning_ (clear serviced) = false
  /\ map_needs_pruning_ (clearMapCallback serviced).2 = false.
Proof. by_evaluation. Qed.

Lemma clear_on_dirty_map :
  pointcloud_deintegration_queue_ (clear dirty_map) = []
  /\ submap_counter_ (clear dirty_map) = submap_counter_ dirty_map.
Proof.
  destruct (clear_keeps_submap_bookkeeping dirty_map)
    as (_ & _ & Hq & Hc & _).
  split; [exact Hq|exact Hc].
Defined.

End Concrete.

(** ** The further properties in the concrete setting *)

Section More_concrete.
Import XScrew Samples.

Ltac evaluate := vm_compute; reflexivity.


Lemma processed_is_processed :
  processPointCloudMessageAndInsert (message_at 3) (mk 0 0) false two_packets
  = Some processed.
Proof. evaluate. Defined.

Lemma process_retains_third_cloud :
  exists kept,
    pointcloud_deintegration_queue_ processed
    = kept
      ++ [mkPacket (header_stamp (message_at 3))
            (refinePose (converted_points (message_at 3)) (mk 0 0)
               two_packets).2
            (converted_points (message_at 3))
            (converted_colors (message_at 3)) false]
    /\ kept `suffix_of` pointcloud_deintegration_queue_ two_packets.
Proof.
  apply (process_retains_newest (message_at 3) (mk 0 0) false two_packets
           processed); [reflexivity|exact processed_is_processed].
Defined.

Lemma process_bounds_two_packets :
  Z.of_nat (length (pointcloud_deintegration_queue_ processed)) <= Z.max 1 2.
Proof.
  apply (process_bounds_window (message_at 3) (mk 0 0) false two_packets
           processed 2);
    [reflexivity|reflexivity|vm_compute; reflexivity
    |exact processed_is_processed].
Defined.

Lemma processed_plain_is_processed :
  processPointCloudMessageAndInsert (message_at 3) (mk 0 0) false plain
  = Some processed_plain.
Proof. evaluate. Defined.

Lemma process_retains_nothing_on_plain :
  pointcloud_deintegration_queue_ processed_plain = [].
Proof.
  rewrite (proj1 (process_retains_nothing_when_unused (message_at 3) (mk 0 0)
                    false plain processed_plain eq_refl eq_refl
                    processed_plain_is_processed)).
  reflexivity.
Defined.

Lemma inserted_is_inserted :
  insertPointcloud (message_at 1) windowed = Some inserted.
Proof. evaluate. Defined.

Lemma insertPointcloud_leaves_short_queue_on_windowed :
  (length (pointcloud_queue_ inserted) <= 9)%nat.
Proof.
  apply (insertPointcloud_leaves_short_queue (message_at 1) windowed inserted).
  exact inserted_is_inserted.
Defined.

Lemma windowed_stamps_in_order : stamps_in_order windowed.
Proof.
  split; [constructor|]. split; [constructor|]. vm_compute. discriminate.
Defined.

Lemma insertPointcloud_keeps_order_on_windowed : stamps_in_order inserted.
Proof.
  exact (proj1 (insertPointcloud_keeps_stamps_in_order (message_at 1)
                  windowed inserted windowed_stamps_in_order
                  inserted_is_inserted)).
Defined.

Lemma refinement_maps_prior_to_refined_on_submapped :
  T_compose
    (icp_corrected_transform_
       (refinePose (collab := refining_collaborators) one_point (mk 4 0)
          submapped).1)
    (mk 4 0)
  = mk 5 0.
Proof.
  rewrite (proj1 (refinement_correction_maps_prior_to_refined
                    (collab := refining_collaborators) (laws := XScrew_laws)
                    one_point (mk 4 0) submapped eq_refl eq_refl)).
  reflexivity.
Defined.

Lemma submapped_bounds_positive : submap_bounds_positive (config submapped).
Proof.
  split; [intros Hset; vm_compute in Hset; discriminate|].
  intros _. vm_compute. reflexivity.
Defined.

Lemma no_second_submap_on_submapped :
  (shouldCreateNewSubmap 1000000000 (mk 7 0)
     (createNewSubmap 1000000000 (mk 7 0) submapped)).1 = false.
Proof.
  apply (no_second_submap_on_same_observation 1000000000 (mk 7 0) submapped).
  exact submapped_bounds_positive.
Defined.

Lemma createPath_rejects_unprintable_path :
  exists made,
    createPath false recording_mkdir unprintable_path [] = Some (false, made).
Proof.
  apply (createPath_rejects_unprintable false recording_mkdir
           unprintable_path []); [discriminate|vm_compute; reflexivity].
Defined.

Lemma createPath_succeeds_on_printable_path :
  exists made,
    createPath false recording_mkdir printable_path [] = Some (true, made).
Proof.
  apply (createPath_succeeds_on_printable false recording_mkdir
           printable_path []);
    [discriminate|vm_compute; reflexivity|left; reflexivity].
Defined.

Lemma insertPointcloud_completes_on_plain :
  insertPointcloud (message_at 1) plain <> None
  /\ insertPointcloud (message_at 3000000000) plain = None.
Proof.
  split.
  - intros Hnone.
    apply (proj1 (insertPointcloud_completes (message_at 1) plain
                    eq_refl eq_refl eq_refl (List.Forall_nil _))) in Hnone.
    apply Hnone. unfold Duration_representable.
    vm_compute. split; discriminate.
  - apply (proj1 (insertPointcloud_completes (message_at 3000000000) plain
                    eq_refl eq_refl eq_refl (List.Forall_nil _))).
    intros [_ Hfits]. vm_compute in Hfits. apply Hfits. reflexivity.
Defined.

End More_concrete.
